(** * Retrieval core of ThuTucHanhChinh: BM25 index, semantic cache,
      reranker, context settings and the retrieval pipeline.

    The Python sources under [src/retrieval] are embedded as Rocq functions.
    Python dictionaries are insertion-ordered association lists, exceptions
    are an error monad and floats are rationals ([Q]).  Library functions
    (the regular expressions of the tokenizer, [math.log], [numpy],
    [str.lower]) are the fields of the class [Runtime]; the objects a
    pipeline is constructed with (embedder, query enhancer, database
    client) are the fields of [Pipeline.Collaborators]. *)

From Stdlib Require Import String Ascii.
From Stdlib Require Import List Bool Arith ZArith NArith QArith Lia.
From Stdlib Require Import Permutation Sorted OrdersEx RelationClasses.
Import ListNotations.

Set Implicit Arguments.
Open Scope string_scope.
Open Scope list_scope.
Open Scope nat_scope.

(* ------------------------------------------------------------------ *)
(** * Python values, dictionaries, exceptions                          *)
(* ------------------------------------------------------------------ *)

Module Py.

(** The exceptions the embedded code can raise. *)
Inductive exn : Type :=
| ValueError | RuntimeError | KeyError | IndexError
| ZeroDivisionError | TypeError | AttributeError | FileNotFoundError.

Inductive result (A : Type) : Type :=
| Ok (a : A)
| Raise (e : exn).
Arguments Ok {A} a.
Arguments Raise {A} e.

Definition bind {A B} (m : result A) (k : A -> result B) : result B :=
  match m with
  | Ok a => k a
  | Raise e => Raise e
  end.

Definition is_ok {A} (m : result A) : bool :=
  match m with Ok _ => true | Raise _ => false end.

(** JSON-like Python values.  Floats are rationals. *)
#[warnings="-register-all"]
Inductive value : Type :=
| VNone
| VBool (b : bool)
| VInt (z : Z)
| VFloat (q : Q)
| VStr (s : string)
| VList (l : list value)
| VDict (d : list (string * value)).

(** [bool], [int] and [float] compare by numeric value in Python. *)
Definition as_number (v : value) : option Q :=
  match v with
  | VBool true => Some 1%Q
  | VBool false => Some 0%Q
  | VInt z => Some (inject_Z z)
  | VFloat q => Some q
  | _ => None
  end.

Fixpoint assoc {V} (k : string) (d : list (string * V)) : option V :=
  match d with
  | [] => None
  | (k', v) :: d' => if String.eqb k k' then Some v else assoc k d'
  end.

(** Python [==] on values.  Dictionaries compare regardless of order. *)
Fixpoint py_eq (a b : value) {struct a} : bool :=
  match a, b with
  | VNone, VNone => true
  | VStr s, VStr t => String.eqb s t
  | VList l, VList m =>
      (fix go (l m : list value) {struct l} : bool :=
         match l, m with
         | [], [] => true
         | x :: l', y :: m' => py_eq x y && go l' m'
         | _, _ => false
         end) l m
  | VDict d, VDict e =>
      Nat.eqb (length d) (length e) &&
      (fix go (d : list (string * value)) {struct d} : bool :=
         match d with
         | [] => true
         | (k, v) :: d' =>
             match assoc k e with
             | Some w => py_eq v w
             | None => false
             end && go d'
         end) d
  | VNone, _ | VStr _, _ | VList _, _ | VDict _, _ => false
  | _, _ =>
      match as_number a, as_number b with
      | Some x, Some y => Qeq_bool x y
      | _, _ => false
      end
  end.

(** Truth value of an object in a condition ([if x:]). *)
Definition truthy (v : value) : bool :=
  match v with
  | VNone => false
  | VBool b => b
  | VInt z => negb (Z.eqb z 0)
  | VFloat q => negb (Qeq_bool q 0)
  | VStr s => negb (String.eqb s "")
  | VList l => match l with [] => false | _ => true end
  | VDict d => match d with [] => false | _ => true end
  end.

(** A [dict] with string keys; the list order is the insertion order. *)
Definition dict := list (string * value).

(** [d.get(k)] : [None] when the key is absent. *)
Definition dict_get (d : dict) (k : string) : value :=
  match assoc k d with Some v => v | None => VNone end.

(** [d.get(k, dflt)]. *)
Definition dict_get_or (d : dict) (k : string) (dflt : value) : value :=
  match assoc k d with Some v => v | None => dflt end.

(** [d[k]] : raises [KeyError] when the key is absent. *)
Definition dict_item (d : dict) (k : string) : result value :=
  match assoc k d with Some v => Ok v | None => Raise KeyError end.

(** [k in d]. *)
Definition dict_mem {V} (k : string) (d : list (string * V)) : bool :=
  match assoc k d with Some _ => true | None => false end.

(** [d[k] = v] : an existing key keeps its place, a new key goes last. *)
Fixpoint dict_set {V} (d : list (string * V)) (k : string) (v : V)
  : list (string * V) :=
  match d with
  | [] => [(k, v)]
  | (k', v') :: d' =>
      if String.eqb k k' then (k', v) :: d' else (k', v') :: dict_set d' k v
  end.

(** [del d[k]] for a key that may be absent. *)
Fixpoint dict_del {V} (d : list (string * V)) (k : string)
  : list (string * V) :=
  match d with
  | [] => []
  | (k', v') :: d' =>
      if String.eqb k k' then d' else (k', v') :: dict_del d' k
  end.

(** Numeric reading of a value in arithmetic; other types raise. *)
Definition to_number (v : value) : result Q :=
  match as_number v with Some q => Ok q | None => Raise TypeError end.

(** [l[i]] for a non-negative index. *)
Definition list_item {A} (l : list A) (i : nat) : result A :=
  match nth_error l i with Some a => Ok a | None => Raise IndexError end.

(** [x / y] on floats. *)
Definition fdiv (x y : Q) : result Q :=
  if Qeq_bool y 0 then Raise ZeroDivisionError else Ok (x / y)%Q.

Definition Qltb (x y : Q) : bool := negb (Qle_bool y x).

(** ** Stable sorting

    [list.sort] and [sorted] are stable.  [before y x] says that [y] must
    come strictly before [x]; an element is inserted after the elements
    that must precede it and in front of everything else, so that elements
    with equal keys keep their input order (also with [reverse=True]). *)
Section StableSort.
Variable A : Type.
Variable before : A -> A -> bool.

Fixpoint insert_by (x : A) (l : list A) : list A :=
  match l with
  | [] => [x]
  | y :: l' => if before y x then y :: insert_by x l' else x :: l
  end.

Definition stable_sort (l : list A) : list A :=
  fold_right insert_by [] l.
End StableSort.

(** [sorted(l, key=f, reverse=True)] for a float key. *)
Definition sort_desc {A} (key : A -> Q) (l : list A) : list A :=
  stable_sort (fun y x => Qltb (key x) (key y)) l.

(** [enumerate(l, start)]. *)
Fixpoint enumerate_from {A} (start : nat) (l : list A) : list (nat * A) :=
  match l with
  | [] => []
  | a :: l' => (start, a) :: enumerate_from (S start) l'
  end.

(** Sequencing a loop whose body may raise. *)
Fixpoint foldM {A S} (f : S -> A -> result S) (l : list A) (s : S)
  : result S :=
  match l with
  | [] => Ok s
  | a :: l' => bind (f s a) (foldM f l')
  end.

Fixpoint mapM {A B} (f : A -> result B) (l : list A) : result (list B) :=
  match l with
  | [] => Ok []
  | a :: l' =>
      bind (f a) (fun b => bind (mapM f l') (fun bs => Ok (b :: bs)))
  end.

End Py.

Import Py.

Notation "x <- m ;; k" := (bind m (fun x => k))
  (at level 61, m at next level, right associativity).

(* ------------------------------------------------------------------ *)
(** * context_settings.py                                              *)
(* ------------------------------------------------------------------ *)

Module ContextSettings.

(** A [ContextConfig] is a dictionary with six keys. *)
Definition mk_config (mode : string) (chunks max_descendants max_siblings : Z)
  (include_parents enable_structured_output : bool) : dict :=
  [ ("mode", VStr mode);
    ("chunks", VInt chunks);
    ("max_descendants", VInt max_descendants);
    ("max_siblings", VInt max_siblings);
    ("include_parents", VBool include_parents);
    ("enable_structured_output", VBool enable_structured_output) ].

Definition INTENT_CONTEXT_MAPPING : list (string * dict) :=
  [ ("documents",    mk_config "specific"    2 5  2 true true);
    ("fees",         mk_config "specific"    2 3  1 true true);
    ("location",     mk_config "specific"    2 3  1 true true);
    ("requirements", mk_config "comparison"  2 2  3 true true);
    ("process",      mk_config "list"        2 40 5 true true);
    ("legal",        mk_config "explanation" 3 4  3 true true);
    ("timeline",     mk_config "explanation" 3 4  3 true true);
    ("overview",     mk_config "general"     3 5  2 true false) ].

(** [INTENT_CONTEXT_MAPPING.get(intent, INTENT_CONTEXT_MAPPING["overview"])]:
    the default is evaluated first and would raise [KeyError] if the table
    had no ["overview"] entry. *)
Definition get_context_config (intent : string) : result dict :=
  dflt <- match assoc "overview" INTENT_CONTEXT_MAPPING with
          | Some c => Ok c
          | None => Raise KeyError
          end ;;
  Ok (match assoc intent INTENT_CONTEXT_MAPPING with
      | Some c => c
      | None => dflt
      end).

Definition get_all_intents : list string := map fst INTENT_CONTEXT_MAPPING.

Definition required_keys : list string :=
  [ "mode"; "chunks"; "max_descendants"; "max_siblings";
    "include_parents"; "enable_structured_output" ].

(** [config[k] < lo or config[k] > hi]. *)
Definition out_of_range (config : dict) (k : string) (lo hi : Z)
  : result bool :=
  v <- dict_item config k ;;
  x <- to_number v ;;
  if Qltb x (inject_Z lo) then Ok true
  else
    v' <- dict_item config k ;;
    y <- to_number v' ;;
    Ok (Qltb (inject_Z hi) y).

Definition validate_config (config : dict) : result bool :=
  if negb (forallb (fun key => dict_mem key config) required_keys)
  then Ok false
  else
    bad <- out_of_range config "chunks" 1 10 ;;
    if bad then Ok false else
    bad <- out_of_range config "max_descendants" 0 100 ;;
    if bad then Ok false else
    bad <- out_of_range config "max_siblings" 0 20 ;;
    if bad then Ok false else
    Ok true.

(** Integer field of a configuration, as the pipeline reads it. *)
Definition config_int (config : dict) (k : string) : result Z :=
  v <- dict_item config k ;;
  match v with
  | VInt z => Ok z
  | VBool b => Ok (if b then 1%Z else 0%Z)
  | _ => Raise TypeError
  end.

End ContextSettings.

(* ------------------------------------------------------------------ *)
(** * What the Python runtime provides                                 *)
(* ------------------------------------------------------------------ *)

(** Library functions whose values no statement below depends on.
    [tokenize_text s] is [SimpleBM25.tokenize(s)] for a non-empty string [s]
    (lower-casing, the regular expression [[^\w\s]], [split], the length
    and stop-word filters); [math_log] is [math.log]; [np_sqrt] is the
    square root behind [numpy.linalg.norm]; [str_lower] is [str.lower]. *)
Class Runtime : Type := {
  tokenize_text : string -> list string;
  math_log : Q -> Q;
  np_sqrt : Q -> Q;
  str_lower : string -> string
}.

(* ------------------------------------------------------------------ *)
(** * bm25_search.py                                                   *)
(* ------------------------------------------------------------------ *)

Module BM25.

Record InvertedIndexEntry : Type := {
  doc_id : nat;
  term_freq : nat
}.

Record SimpleBM25 : Type := {
  k1 : Q;
  b : Q;
  chunks : list dict;
  inverted_index : list (string * list InvertedIndexEntry);
  doc_lengths : list nat;
  avg_doc_length : Q;
  num_docs : nat;
  idf_cache : list (string * Q);
  is_built : bool
}.

(** [SimpleBM25(chunks, k1, b)]; [chunks=None] is the empty list. *)
Definition init (chunks : list dict) (k1 b : Q) : SimpleBM25 :=
  {| k1 := k1; b := b; chunks := chunks;
     inverted_index := []; doc_lengths := []; avg_doc_length := 0;
     num_docs := 0; idf_cache := []; is_built := false |}.

Definition Qnat (n : nat) : Q := inject_Z (Z.of_nat n).

Section WithRuntime.
Context {RT : Runtime}.

(** [tokenize(text)] on whatever [chunk.get("content", "")] holds: a false
    value gives no tokens and a value that is no string has no [lower]. *)
Definition tokenize (text : value) : result (list string) :=
  if negb (truthy text) then Ok []
  else match text with
       | VStr s => Ok (tokenize_text s)
       | _ => Raise AttributeError
       end.

(** [Counter(tokens).items()]: terms in order of first occurrence. *)
Fixpoint counter_add (c : list (string * nat)) (t : string)
  : list (string * nat) :=
  match c with
  | [] => [(t, 1%nat)]
  | (t', n) :: c' =>
      if String.eqb t t' then (t', S n) :: c' else (t', n) :: counter_add c' t
  end.

Definition Counter (tokens : list string) : list (string * nat) :=
  fold_left counter_add tokens [].

(** [inverted_index[term].append(entry)] on a [defaultdict(list)]. *)
Fixpoint index_append (idx : list (string * list InvertedIndexEntry))
  (term : string) (e : InvertedIndexEntry)
  : list (string * list InvertedIndexEntry) :=
  match idx with
  | [] => [(term, [e])]
  | (t, ps) :: idx' =>
      if String.eqb term t then (t, ps ++ [e]) :: idx'
      else (t, ps) :: index_append idx' term e
  end.

(** One turn of the loop over [enumerate(self.chunks)]. *)
Definition index_chunk
  (st : list nat * list (string * list InvertedIndexEntry))
  (dc : nat * dict)
  : result (list nat * list (string * list InvertedIndexEntry)) :=
  let '(lens, idx) := st in
  let '(d, chunk) := dc in
  tokens <- tokenize (dict_get_or chunk "content" (VStr "")) ;;
  Ok (lens ++ [List.length tokens],
      fold_left
        (fun idx tf => index_append idx (fst tf)
                         {| doc_id := d; term_freq := snd tf |})
        (Counter tokens) idx).

Definition idf_of (n df : nat) : Q :=
  math_log ((Qnat n - Qnat df + 0.5) / (Qnat df + 0.5) + 1).

Definition sum_nat (l : list nat) : nat := fold_right Nat.add 0%nat l.

Definition build_index (self : SimpleBM25) : result SimpleBM25 :=
  match chunks self with
  | [] => Raise ValueError
  | _ =>
      let n := List.length (chunks self) in
      st <- foldM index_chunk (enumerate_from 0 (chunks self)) ([], []) ;;
      let '(lens, idx) := st in
      let avg := if (0 <? n)%nat then (Qnat (sum_nat lens) / Qnat n)%Q
                 else 0%Q in
      let idf :=
        fold_left
          (fun cache tp =>
             dict_set cache (fst tp) (idf_of n (List.length (snd tp))))
          idx (idf_cache self) in
      Ok {| k1 := k1 self; b := b self; chunks := chunks self;
            inverted_index := idx; doc_lengths := lens;
            avg_doc_length := avg; num_docs := n;
            idf_cache := idf; is_built := true |}
  end.

(** [scores[doc_id] += x], split into the read and the write. *)
Fixpoint list_set {A} (l : list A) (i : nat) (a : A) : list A :=
  match l, i with
  | [], _ => []
  | _ :: l', O => a :: l'
  | x :: l', S i' => x :: list_set l' i' a
  end.

(** The body of the loop over the postings of one query term. *)
Definition score_posting (self : SimpleBM25) (idf : Q)
  (scores : list Q) (entry : InvertedIndexEntry) : result (list Q) :=
  let tf := Qnat (term_freq entry) in
  doc_len <- list_item (doc_lengths self) (doc_id entry) ;;
  let numerator := (tf * (k1 self + 1))%Q in
  ratio <- fdiv (b self * Qnat doc_len) (avg_doc_length self) ;;
  let denominator := (tf + k1 self * (1 - b self + ratio))%Q in
  old <- list_item scores (doc_id entry) ;;
  q <- fdiv numerator denominator ;;
  Ok (list_set scores (doc_id entry) (old + idf * q)%Q).

Definition score_term (self : SimpleBM25) (scores : list Q) (term : string)
  : result (list Q) :=
  match assoc term (inverted_index self) with
  | None => Ok scores
  | Some postings =>
      idf <- match assoc term (idf_cache self) with
             | Some x => Ok x
             | None => Raise KeyError
             end ;;
      foldM (score_posting self idf) postings scores
  end.

(** [all(chunk.get(key) == value for key, value in filters.items())]. *)
Definition matches_filters (chunk : dict) (filters : dict) : bool :=
  forallb (fun kv => py_eq (dict_get chunk (fst kv)) (snd kv)) filters.

Definition apply_filters (self : SimpleBM25) (filters : dict)
  (pairs : list (nat * Q)) : result (list (nat * Q)) :=
  match filters with
  | [] => Ok pairs
  | _ =>
      foldM (fun acc p =>
               chunk <- list_item (chunks self) (fst p) ;;
               Ok (if matches_filters chunk filters then acc ++ [p] else acc))
            pairs []
  end.

(** The returned record: a copy of the chunk with the two score fields. *)
Definition with_scores (chunk : dict) (score : Q) : dict :=
  dict_set (dict_set chunk "score" (VFloat score)) "bm25_score" (VFloat score).

(** [search(query, top_k, filters)]; [top_k] is a number of results, and
    [filters=None] is the empty dictionary. *)
Definition search (self : SimpleBM25) (query : value) (top_k : nat)
  (filters : dict) : result (list dict) :=
  if negb (is_built self) then Raise RuntimeError else
  query_terms <- tokenize query ;;
  match query_terms with
  | [] => Ok []
  | _ =>
      scores <- foldM (score_term self) query_terms
                  (repeat 0%Q (num_docs self)) ;;
      let doc_score_pairs :=
        filter (fun p => Qltb 0 (snd p)) (enumerate_from 0 scores) in
      doc_score_pairs <- apply_filters self filters doc_score_pairs ;;
      let doc_score_pairs := sort_desc snd doc_score_pairs in
      mapM (fun p =>
              chunk <- list_item (chunks self) (fst p) ;;
              Ok (with_scores chunk (snd p)))
           (firstn top_k doc_score_pairs)
  end.

End WithRuntime.

(** ** Persistence: the pickled dictionary and the files holding it. *)
Record IndexData : Type := {
  d_inverted_index : list (string * list InvertedIndexEntry);
  d_doc_lengths : list nat;
  d_avg_doc_length : Q;
  d_num_docs : nat;
  d_idf_cache : list (string * Q);
  d_k1 : Q;
  d_b : Q
}.

Definition files := list (string * IndexData).

Definition save_index (self : SimpleBM25) (fs : files) (filepath : string)
  : files :=
  dict_set fs filepath
    {| d_inverted_index := inverted_index self;
       d_doc_lengths := doc_lengths self;
       d_avg_doc_length := avg_doc_length self;
       d_num_docs := num_docs self;
       d_idf_cache := idf_cache self;
       d_k1 := k1 self;
       d_b := b self |}.

Definition load_index (self : SimpleBM25) (fs : files) (filepath : string)
  : result SimpleBM25 :=
  match assoc filepath fs with
  | None => Raise FileNotFoundError
  | Some data =>
      Ok {| k1 := d_k1 data; b := d_b data; chunks := chunks self;
            inverted_index := d_inverted_index data;
            doc_lengths := d_doc_lengths data;
            avg_doc_length := d_avg_doc_length data;
            num_docs := d_num_docs data;
            idf_cache := d_idf_cache data;
            is_built := true |}
  end.

End BM25.

(* ------------------------------------------------------------------ *)
(** * semantic_cache.py                                                *)
(* ------------------------------------------------------------------ *)

Module Cache.

Section WithResult.
(** The cached object ([Any] in the source). *)
Variable R : Type.

Record CacheEntry : Type := {
  query : string;
  query_embedding : list Q;
  result_ : R;
  timestamp : Q;
  access_count : nat;
  last_accessed : Q
}.

Record CacheStats : Type := {
  hits : nat;
  misses : nat;
  evictions : nat;
  expired : nat;
  total_queries : nat
}.

(** [_cache] is an [OrderedDict]: the head of the list is the least
    recently used entry, the last element the most recent one. *)
Record SemanticCache : Type := {
  max_size : nat;
  ttl_seconds : Q;
  similarity_threshold : Q;
  _cache : list (string * CacheEntry);
  stats : CacheStats
}.

Definition init (max_size : nat) (ttl_hours similarity_threshold : Q)
  : SemanticCache :=
  {| max_size := max_size;
     ttl_seconds := (ttl_hours * 3600)%Q;
     similarity_threshold := similarity_threshold;
     _cache := [];
     stats := {| hits := 0; misses := 0; evictions := 0;
                 expired := 0; total_queries := 0 |} |}.

Definition with_cache (c : SemanticCache) (entries : list (string * CacheEntry))
  : SemanticCache :=
  {| max_size := max_size c; ttl_seconds := ttl_seconds c;
     similarity_threshold := similarity_threshold c;
     _cache := entries; stats := stats c |}.

Definition with_stats (c : SemanticCache) (s : CacheStats) : SemanticCache :=
  {| max_size := max_size c; ttl_seconds := ttl_seconds c;
     similarity_threshold := similarity_threshold c;
     _cache := _cache c; stats := s |}.

Definition incr_total (s : CacheStats) : CacheStats :=
  {| hits := hits s; misses := misses s; evictions := evictions s;
     expired := expired s; total_queries := S (total_queries s) |}.

Definition incr_hits (s : CacheStats) : CacheStats :=
  {| hits := S (hits s); misses := misses s; evictions := evictions s;
     expired := expired s; total_queries := total_queries s |}.

Definition incr_misses (s : CacheStats) : CacheStats :=
  {| hits := hits s; misses := S (misses s); evictions := evictions s;
     expired := expired s; total_queries := total_queries s |}.

Definition incr_evictions (s : CacheStats) : CacheStats :=
  {| hits := hits s; misses := misses s; evictions := S (evictions s);
     expired := expired s; total_queries := total_queries s |}.

Definition add_expired (n : nat) (s : CacheStats) : CacheStats :=
  {| hits := hits s; misses := misses s; evictions := evictions s;
     expired := n + expired s; total_queries := total_queries s |}.

(** [time.time()] is the argument [now] of every operation. *)
Definition _is_expired (c : SemanticCache) (now : Q) (entry : CacheEntry)
  : bool :=
  Qltb (ttl_seconds c) (now - timestamp entry).

(** [_update_access]: bump the counters and [move_to_end]. *)
Definition _update_access (c : SemanticCache) (now : Q) (q : string)
  : SemanticCache :=
  match assoc q (_cache c) with
  | None => c
  | Some e =>
      let e' := {| query := query e; query_embedding := query_embedding e;
                   result_ := result_ e; timestamp := timestamp e;
                   access_count := S (access_count e);
                   last_accessed := now |} in
      with_cache c (dict_del (_cache c) q ++ [(q, e')])
  end.

Definition _remove_entry (c : SemanticCache) (q : string) : SemanticCache :=
  if dict_mem q (_cache c) then with_cache c (dict_del (_cache c) q) else c.

Definition _evict_lru (c : SemanticCache) : SemanticCache :=
  match _cache c with
  | [] => c
  | _ :: rest => with_stats (with_cache c rest) (incr_evictions (stats c))
  end.

Section WithRuntime.
Context {RT : Runtime}.

Definition dot (u v : list Q) : Q :=
  fold_right Qplus 0%Q (map (fun p => (fst p * snd p)%Q) (combine u v)).

Definition norm (u : list Q) : Q := np_sqrt (dot u u).

Definition Qmin' (x y : Q) : Q := if Qltb y x then y else x.
Definition Qmax' (x y : Q) : Q := if Qltb x y then y else x.

Definition _cosine_similarity (vec1 vec2 : list Q) : Q :=
  if negb (List.length vec1 =? List.length vec2) then 0%Q
  else
    let dot_product := dot vec1 vec2 in
    let norm1 := norm vec1 in
    let norm2 := norm vec2 in
    if Qeq_bool norm1 0 || Qeq_bool norm2 0 then 0%Q
    else Qmax' 0 (Qmin' 1 (dot_product / (norm1 * norm2))).

(** The loop of [get] over [self._cache.items()]. *)
Definition best_match_step (c : SemanticCache) (now : Q) (emb : list Q)
  (best : option string * Q) (kv : string * CacheEntry)
  : option string * Q :=
  if _is_expired c now (snd kv) then best
  else
    let similarity := _cosine_similarity emb (query_embedding (snd kv)) in
    if Qltb (snd best) similarity then (Some (fst kv), similarity) else best.

Definition get (c : SemanticCache) (now : Q) (q : string) (emb : list Q)
  : SemanticCache * option R :=
  let c := with_stats c (incr_total (stats c)) in
  match assoc q (_cache c) with
  | Some entry =>
      if _is_expired c now entry then
        let c := _remove_entry c q in
        let c := with_stats c (add_expired 1 (stats c)) in
        let c := with_stats c (incr_misses (stats c)) in
        (c, None)
      else
        let c := _update_access c now q in
        let c := with_stats c (incr_hits (stats c)) in
        (c, Some (result_ entry))
  | None =>
      let '(best_match, best_similarity) :=
        fold_left (best_match_step c now emb) (_cache c) (None, 0%Q) in
      match best_match with
      | Some m =>
          if negb (String.eqb m "")
             && Qle_bool (similarity_threshold c) best_similarity
          then
            let c := _update_access c now m in
            let c := with_stats c (incr_hits (stats c)) in
            (* [self._cache[best_match]]: the key was just moved to the end *)
            match assoc m (_cache c) with
            | Some entry => (c, Some (result_ entry))
            | None => (c, None)
            end
          else (with_stats c (incr_misses (stats c)), None)
      | None => (with_stats c (incr_misses (stats c)), None)
      end
  end.

End WithRuntime.

Definition put (c : SemanticCache) (now : Q) (q : string) (emb : list Q)
  (r : R) : SemanticCache :=
  let c :=
    if (max_size c <=? List.length (_cache c)) && negb (dict_mem q (_cache c))
    then _evict_lru c else c in
  let entry := {| query := q; query_embedding := emb; result_ := r;
                  timestamp := now; access_count := 0;
                  last_accessed := now |} in
  let c := if dict_mem q (_cache c)
           then with_cache c (dict_del (_cache c) q) else c in
  with_cache c (_cache c ++ [(q, entry)]).

Definition clear (c : SemanticCache) : SemanticCache := with_cache c [].

Definition clear_expired (c : SemanticCache) (now : Q)
  : SemanticCache * nat :=
  let expired_queries :=
    map fst (filter (fun kv => _is_expired c now (snd kv)) (_cache c)) in
  let c :=
    fold_left
      (fun c q =>
         let c := _remove_entry c q in
         with_stats c (add_expired 1 (stats c)))
      expired_queries c in
  (c, List.length expired_queries).

Definition size (c : SemanticCache) : nat := List.length (_cache c).

(** The public operations, for statements about sequences of calls. *)
Inductive op : Type :=
| OpGet (now : Q) (q : string) (emb : list Q)
| OpPut (now : Q) (q : string) (emb : list Q) (r : R)
| OpClear
| OpClearExpired (now : Q)
| OpGetStats.

Definition step {RT : Runtime} (c : SemanticCache) (o : op) : SemanticCache :=
  match o with
  | OpGet now q emb => fst (get c now q emb)
  | OpPut now q emb r => put c now q emb r
  | OpClear => clear c
  | OpClearExpired now => fst (clear_expired c now)
  | OpGetStats => c
  end.

Definition run {RT : Runtime} (c : SemanticCache) (ops : list op)
  : SemanticCache :=
  fold_left step ops c.

End WithResult.

Arguments OpGet {R} now q emb.
Arguments OpPut {R} now q emb r.
Arguments OpClear {R}.
Arguments OpClearExpired {R} now.
Arguments OpGetStats {R}.

End Cache.

(* ------------------------------------------------------------------ *)
(** * cross_encoder_reranker.py                                        *)
(* ------------------------------------------------------------------ *)

Module Reranker.

Record RerankResult : Type := {
  chunk : dict;
  ensemble_score : Q;
  semantic_score : Q;
  bm25_score : Q;
  cross_encoder_score : Q;
  rank : nat
}.

(** [remote_score query content] is what the [try] block of [score_pair]
    yields for [content[:500]] when the cross-encoder is enabled: a
    similarity obtained from two HTTP embedding calls, or [None] when a
    call fails. *)
Record CrossEncoderReranker : Type := {
  semantic_weight : Q;
  bm25_weight : Q;
  cross_encoder_weight : Q;
  use_cross_encoder : bool;
  remote_score : string -> string -> option Q
}.

(** The constructor divides each weight by their sum. *)
Definition init (semantic_weight bm25_weight cross_encoder_weight : Q)
  (use_cross_encoder : bool) (remote : string -> string -> option Q)
  : result CrossEncoderReranker :=
  let total_weight :=
    (semantic_weight + bm25_weight + cross_encoder_weight)%Q in
  sw <- fdiv semantic_weight total_weight ;;
  bw <- fdiv bm25_weight total_weight ;;
  cw <- fdiv cross_encoder_weight total_weight ;;
  Ok {| semantic_weight := sw; bm25_weight := bw;
        cross_encoder_weight := cw;
        use_cross_encoder := use_cross_encoder;
        remote_score := remote |}.

Definition score_pair (self : CrossEncoderReranker) (query text : string)
  : option Q :=
  if negb (use_cross_encoder self) then Some 0.5%Q
  else remote_score self query text.

(** [min(max(x, 0.0), 1.0)]. *)
Definition clamp01 (x : Q) : Q :=
  let m := if Qltb x 0 then 0%Q else x in
  if Qltb 1 m then 1%Q else m.

(** The scoring of one candidate, the body of the first loop of [rerank]. *)
Definition score_chunk (self : CrossEncoderReranker) (query : string)
  (ic : nat * dict) : result RerankResult :=
  let '(i, chunk) := ic in
  semantic <- to_number (dict_get_or chunk "score" (VFloat 0)) ;;
  bm25 <- to_number (dict_get_or chunk "bm25_score" (VFloat 0)) ;;
  let semantic := clamp01 semantic in
  let bm25 := clamp01 bm25 in
  ce <- (if use_cross_encoder self then
           match dict_get_or chunk "content" (VStr "") with
           | VStr text =>
               match score_pair self query text with
               | Some s => Ok s
               | None => Ok 0.5%Q
               end
           | _ => Raise TypeError
           end
         else Ok 0.5%Q) ;;
  Ok {| chunk := chunk;
        ensemble_score := (semantic_weight self * semantic
                           + bm25_weight self * bm25
                           + cross_encoder_weight self * ce)%Q;
        semantic_score := semantic;
        bm25_score := bm25;
        cross_encoder_score := ce;
        rank := i + 1 |}.

Definition set_rank (ir : nat * RerankResult) : RerankResult :=
  let '(i, r) := ir in
  {| chunk := chunk r; ensemble_score := ensemble_score r;
     semantic_score := semantic_score r; bm25_score := bm25_score r;
     cross_encoder_score := cross_encoder_score r; rank := i |}.

Definition rerank (self : CrossEncoderReranker) (query : string)
  (chunks : list dict) (top_k : nat) : result (list RerankResult) :=
  match chunks with
  | [] => Ok []
  | _ =>
      rerank_results <- mapM (score_chunk self query)
                          (enumerate_from 0 chunks) ;;
      let rerank_results := sort_desc ensemble_score rerank_results in
      let rerank_results := map set_rank (enumerate_from 1 rerank_results) in
      Ok (firstn top_k rerank_results)
  end.

Definition rerank_simple (self : CrossEncoderReranker) (query : string)
  (chunks : list dict) (top_k : nat) : result (list dict) :=
  rerank_results <- rerank self query chunks top_k ;;
  Ok (map (fun r =>
             dict_set
               (dict_set (chunk r) "final_score" (VFloat (ensemble_score r)))
               "original_rank" (VInt (Z.of_nat (rank r))))
          rerank_results).

End Reranker.

(* ------------------------------------------------------------------ *)
(** * vector_store.py                                                  *)
(* ------------------------------------------------------------------ *)

Module VectorStore.

(** The payload of a stored point, as [add_chunks] writes it. *)
Record Point : Type := {
  chunk_id : string;
  thu_tuc_id : string;
  chunk_type : string;
  chunk_tier : string;
  parent_chunk_id : option string;
  content : string;
  metadata : value
}.

Inductive Match : Type :=
| MatchValue (v : value)
| MatchAny (any : list value).

Record FieldCondition : Type := {
  key : string;
  match_ : Match
}.

Definition payload_field (p : Point) (k : string) : value :=
  if String.eqb k "chunk_id" then VStr (chunk_id p)
  else if String.eqb k "thu_tuc_id" then VStr (thu_tuc_id p)
  else if String.eqb k "chunk_type" then VStr (chunk_type p)
  else if String.eqb k "chunk_tier" then VStr (chunk_tier p)
  else if String.eqb k "parent_chunk_id" then
         match parent_chunk_id p with Some s => VStr s | None => VNone end
  else if String.eqb k "content" then VStr (content p)
  else if String.eqb k "metadata" then metadata p
  else VNone.

Definition satisfies (p : Point) (c : FieldCondition) : bool :=
  match match_ c with
  | MatchValue v => py_eq (payload_field p (key c)) v
  | MatchAny vs => existsb (py_eq (payload_field p (key c))) vs
  end.

(** The database client: the stored points, in the order in which a scroll
    visits them, and the nearest-neighbour query, which returns payloads
    with similarity scores. *)
Record QdrantClient : Type := {
  points : list Point;
  query_points : list Q -> nat -> list FieldCondition -> list (Point * Q)
}.

(** [client.scroll(scroll_filter=Filter(must=conds), limit=n)[0]]: the
    first [n] stored points that satisfy every condition. *)
Definition scroll (client : QdrantClient) (must : list FieldCondition)
  (limit : nat) : list Point :=
  firstn limit (filter (fun p => forallb (satisfies p) must) (points client)).

Definition format_point (p : Point) (score : Q) : dict :=
  [ ("chunk_id", VStr (chunk_id p));
    ("mã_thủ_tục", VStr (thu_tuc_id p));
    ("chunk_type", VStr (chunk_type p));
    ("chunk_tier", VStr (chunk_tier p));
    ("parent_chunk_id",
      match parent_chunk_id p with Some s => VStr s | None => VNone end);
    ("content", VStr (content p));
    ("metadata", metadata p);
    ("score", VFloat score) ].

(** [search(query_embedding, top_k, filters)]. *)
Definition search (client : QdrantClient) (query_embedding : list Q)
  (top_k : nat) (filters : dict) : list dict :=
  let conditions :=
    map (fun kv => {| key := fst kv; match_ := MatchValue (snd kv) |})
        filters in
  map (fun ps => format_point (fst ps) (snd ps))
      (query_points client query_embedding top_k conditions).

Definition str_of (v : value) : string :=
  match v with VStr s => s | _ => "" end.

(** The sort key [(x["chunk_tier"] != "parent", x["chunk_id"])]. *)
Definition sort_key (x : dict) : bool * string :=
  (negb (py_eq (dict_get x "chunk_tier") (VStr "parent")),
   str_of (dict_get x "chunk_id")).

Definition str_ltb (s t : string) : bool :=
  match String_as_OT.compare s t with Lt => true | _ => false end.

(** [<] on the key tuples: [False < True], then the strings. *)
Definition key_ltb (k1 k2 : bool * string) : bool :=
  match fst k1, fst k2 with
  | false, true => true
  | true, false => false
  | _, _ => str_ltb (snd k1) (snd k2)
  end.

Definition search_by_code (client : QdrantClient) (thu_tuc_id : string)
  (include_parent include_children : bool) (chunk_type_filter : value)
  : list dict :=
  let code := {| key := "thu_tuc_id"; match_ := MatchValue (VStr thu_tuc_id) |} in
  let all_points :=
    if truthy chunk_type_filter && include_parent then
      scroll client
        [ code;
          {| key := "chunk_tier"; match_ := MatchValue (VStr "parent") |} ]
        100
    else [] in
  let all_points :=
    if include_children then
      let child_must_conditions :=
        [ code;
          {| key := "chunk_tier"; match_ := MatchValue (VStr "child") |} ]
        ++ (if truthy chunk_type_filter then
              match chunk_type_filter with
              | VList l => [ {| key := "chunk_type"; match_ := MatchAny l |} ]
              | v => [ {| key := "chunk_type"; match_ := MatchValue v |} ]
              end
            else []) in
      all_points ++ scroll client child_must_conditions 100
    else all_points in
  let all_points :=
    if negb (truthy chunk_type_filter) then scroll client [ code ] 100
    else all_points in
  let formatted_results := map (fun p => format_point p 1) all_points in
  let formatted_results :=
    if negb include_parent then
      filter (fun r => negb (py_eq (dict_get r "chunk_tier") (VStr "parent")))
             formatted_results
    else formatted_results in
  let formatted_results :=
    if negb include_children then
      filter (fun r => negb (py_eq (dict_get r "chunk_tier") (VStr "child")))
             formatted_results
    else formatted_results in
  stable_sort (fun y x => key_ltb (sort_key y) (sort_key x)) formatted_results.

End VectorStore.

(* ------------------------------------------------------------------ *)
(** * retrieval_pipeline.py                                            *)
(* ------------------------------------------------------------------ *)

(** Chunk content handled character by character: a Python [str] is its
    sequence of code points, and [len] counts code points. *)
Module Text.

Definition text := list N.

(** [str.isspace] on one character. *)
Definition isspace (c : N) : bool :=
  ((9 <=? c) && (c <=? 13) || (28 <=? c) && (c <=? 32)
   || (c =? 133) || (c =? 160) || (c =? 5760)
   || (8192 <=? c) && (c <=? 8202)
   || (c =? 8232) || (c =? 8233) || (c =? 8239) || (c =? 8287)
   || (c =? 12288))%N.

(** [s.split()]: the maximal runs of characters that are no white space.
    [cur] holds the current run, last character first. *)
Fixpoint split_from (cur : text) (s : text) : list text :=
  match s with
  | [] => match cur with [] => [] | _ => [rev cur] end
  | c :: s' =>
      if isspace c then
        match cur with
        | [] => split_from [] s'
        | _ => rev cur :: split_from [] s'
        end
      else split_from (c :: cur) s'
  end.

Definition split (s : text) : list text := split_from [] s.

(** [' '.join(words)]. *)
Fixpoint join (words : list text) : text :=
  match words with
  | [] => []
  | [w] => w
  | w :: ws => w ++ 32%N :: join ws
  end.

(** [l[-n:]]: the whole list when [n] is 0, its last [n] elements else. *)
Definition last_n {A} (n : nat) (l : list A) : list A :=
  match n with
  | O => l
  | _ => skipn (List.length l - n) l
  end.

(** The marker put between the two halves of a shortened chunk: two line
    feeds, the bracketed notice and two line feeds. *)
Definition ELISION : text :=
  [10; 10; 91; 46; 46; 46; 32; 78; 7897; 105; 32; 100; 117; 110; 103; 32;
   113; 117; 225; 32; 100; 224; 105; 44; 32; 273; 227; 32; 114; 250; 116;
   32; 103; 7885; 110; 32; 46; 46; 46; 93; 10; 10]%N.

Definition _truncate_chunk_if_needed (content : text) (max_tokens : nat)
  : text :=
  let max_chars := max_tokens * 4 in
  if List.length content <=? max_chars then content
  else
    let words := split content in
    if max_tokens <? List.length words then
      let half := max_tokens / 2 in
      join (firstn half words) ++ ELISION ++ join (last_n half words)
    else content.

(** The default [max_tokens=1200], the only value the pipeline uses. *)
Definition truncate (content : text) : text :=
  _truncate_chunk_if_needed content 1200.

End Text.

Module Pipeline.

Import ContextSettings VectorStore.

(** The query descriptor returned by the query enhancer. *)
Record QueryInfo : Type := {
  original_query : string;
  intent : string;
  query_variations : list string;
  entities : dict;
  filters : dict;
  exact_code : option string
}.

Record RetrievalResult : Type := {
  query : string;
  result_intent : string;
  retrieved_chunks : list dict;
  context : string;
  confidence : Q;
  metadata : dict
}.

(** The objects handed to the constructor whose code lies outside the
    repository or outside this development: the embedder, the query
    enhancer (an LLM behind it) and the database client.  [assemble] is
    [_assemble_context], which lays out the context text and computes a
    confidence; it returns both or raises. *)
Record Collaborators : Type := {
  encode : string -> list Q;
  enhance_query : string -> QueryInfo;
  client : QdrantClient;
  assemble : list dict -> list dict -> dict -> result (string * Q)
}.

Record HierarchicalRetrievalPipeline : Type := {
  collab : Collaborators;
  bm25 : option BM25.SimpleBM25;
  reranker : option Reranker.CrossEncoderReranker;
  cache : option (Cache.SemanticCache RetrievalResult)
}.

Definition with_cache (p : HierarchicalRetrievalPipeline)
  (c : option (Cache.SemanticCache RetrievalResult))
  : HierarchicalRetrievalPipeline :=
  {| collab := collab p; bm25 := bm25 p; reranker := reranker p;
     cache := c |}.

(** One entry of [fused_scores] in the rank fusion. *)
Record Fused : Type := {
  doc : dict;
  rrf_score : Q;
  count : nat;
  semantic_count : nat;
  bm25_count : nat
}.

Definition hashable (v : value) : bool :=
  match v with VList _ | VDict _ => false | _ => true end.

(** [fused_scores[doc_id]] updated for one occurrence of a document. *)
Fixpoint fuse_add (fused : list (value * Fused)) (doc_id : value)
  (d : dict) (score : Q) (is_bm25 : bool) : list (value * Fused) :=
  match fused with
  | [] =>
      [ (doc_id,
         {| doc := d; rrf_score := (0 + score)%Q; count := 1;
            semantic_count := if is_bm25 then 0 else 1;
            bm25_count := if is_bm25 then 1 else 0 |}) ]
  | (k, f) :: rest =>
      if py_eq doc_id k then
        (k, {| doc := doc f; rrf_score := (rrf_score f + score)%Q;
               count := S (count f);
               semantic_count :=
                 if is_bm25 then semantic_count f else S (semantic_count f);
               bm25_count :=
                 if is_bm25 then S (bm25_count f) else bm25_count f |})
        :: rest
      else (k, f) :: fuse_add rest doc_id d score is_bm25
  end.

Definition attach_fusion (f : Fused) : dict :=
  dict_set
    (dict_set
       (dict_set (doc f) "rrf_score" (VFloat (rrf_score f)))
       "retrieval_count" (VInt (Z.of_nat (count f))))
    "source_counts"
    (VDict [ ("semantic", VInt (Z.of_nat (semantic_count f)));
             ("bm25", VInt (Z.of_nat (bm25_count f))) ]).

Section WithRuntime.
Context {RT : Runtime}.

(** ["bm25" in query_name.lower()]. *)
Definition is_bm25_source (query_name : string) : bool :=
  match String.index 0 "bm25" (str_lower query_name) with
  | Some _ => true
  | None => false
  end.

(** Stage 6. *)
Definition _reciprocal_rank_fusion
  (results_per_query : list (string * list dict)) (k : nat)
  : result (list dict) :=
  fused_scores <-
    foldM (fun fused qr =>
             let is_bm25 := is_bm25_source (fst qr) in
             foldM (fun fused rd =>
                      doc_id <- dict_item (snd rd) "chunk_id" ;;
                      let base := (1 / (BM25.Qnat k + BM25.Qnat (fst rd)))%Q in
                      let score := if is_bm25 then (base * 1.2)%Q else base in
                      if hashable doc_id
                      then Ok (fuse_add fused doc_id (snd rd) score is_bm25)
                      else Raise TypeError)
                   (enumerate_from 1 (snd qr)) fused)
          results_per_query [] ;;
  Ok (map attach_fusion (sort_desc rrf_score (map snd fused_scores))).

(** Stage 7. *)
Definition _rerank_with_score_fusion (self : HierarchicalRetrievalPipeline)
  (query : string) (documents : list dict) (top_k : nat)
  : result (list dict) :=
  match documents with
  | [] => Ok []
  | _ =>
      match reranker self with
      | Some r => Reranker.rerank_simple r query documents top_k
      | None =>
          scored <-
            mapM (fun d =>
                    rrf <- to_number (dict_get_or d "rrf_score" (VFloat 0)) ;;
                    vector_score <- to_number (dict_get_or d "score" (VFloat 0)) ;;
                    let final_score := (0.6 * rrf + 0.4 * vector_score)%Q in
                    Ok (dict_set d "final_score" (VFloat final_score),
                        final_score))
                 documents ;;
          Ok (firstn top_k (map fst (sort_desc snd scored)))
      end
  end.

(** Stages 3 and 4.  The records come from [VectorStore.search], so the
    subscripts ["mã_thủ_tục"] and ["chunk_id"] always find their key. *)
Definition _hierarchical_retrieve (self : HierarchicalRetrievalPipeline)
  (query_info : QueryInfo) (top_k_parent top_k_child : nat)
  : list dict * list (string * list dict) :=
  let c := collab self in
  let query_embedding := encode c (original_query query_info) in
  let parent_results :=
    VectorStore.search (client c) query_embedding top_k_parent
      [ ("chunk_tier", VStr "parent") ] in
  let parent_thu_tuc_ids :=
    map (fun r => dict_get r "mã_thủ_tục") parent_results in
  let all_child_results :=
    fold_left
      (fun all query_variation =>
         let query_emb := encode c query_variation in
         let child_filter := [ ("chunk_tier", VStr "child") ] in
         let chunk_type := dict_get (filters query_info) "chunk_type" in
         let child_results :=
           if truthy chunk_type then
             let strict :=
               VectorStore.search (client c) query_emb top_k_child
                 (dict_set child_filter "chunk_type" chunk_type) in
             match strict with
             | [] => VectorStore.search (client c) query_emb top_k_child
                       child_filter
             | _ => strict
             end
           else
             VectorStore.search (client c) query_emb top_k_child child_filter in
         let filtered_children :=
           filter (fun ch =>
                     existsb (py_eq (dict_get ch "mã_thủ_tục"))
                             parent_thu_tuc_ids)
                  child_results in
         let filtered_children :=
           match filtered_children, child_results with
           | [], _ :: _ =>
               map (fun ch => dict_set ch "cross_tier_match" (VBool false))
                   (firstn 5 child_results)
           | _, _ =>
               map (fun ch => dict_set ch "cross_tier_match" (VBool true))
                   filtered_children
           end in
         dict_set all query_variation filtered_children)
      (query_variations query_info) [] in
  (parent_results, all_child_results).

(** The result of Stage 2 for a detected code. *)
Definition exact_lookup (self : HierarchicalRetrievalPipeline)
  (query_info : QueryInfo) (code : string) : list dict :=
  search_by_code (client (collab self)) code true true
    (dict_get (filters query_info) "chunk_type").

Definition tier_is (t : string) (r : dict) : bool :=
  py_eq (dict_get r "chunk_tier") (VStr t).

(** [self.cache.put(question, query_embedding, result)] at the end of a
    path; the embedding of Stage 0 is reused when there is one. *)
Definition cache_result (self : HierarchicalRetrievalPipeline) (now : Q)
  (question : string) (query_embedding : option (list Q))
  (r : RetrievalResult) : HierarchicalRetrievalPipeline :=
  match cache self with
  | None => self
  | Some c =>
      let emb := match query_embedding with
                 | Some e => e
                 | None => encode (collab self) question
                 end in
      with_cache self (Some (Cache.put c now question emb r))
  end.

(** Stages 3 to 8, the hybrid search. *)
Definition hybrid_search (self : HierarchicalRetrievalPipeline)
  (question : string) (query_info : QueryInfo) (context_config : dict)
  (top_k_parent top_k_child top_k_final : nat)
  : result RetrievalResult :=
  let '(parent_results, child_results) :=
    _hierarchical_retrieve self query_info top_k_parent top_k_child in
  bm25_results <-
    match bm25 self with
    | Some bm =>
        if BM25.is_built bm then
          let chunk_type := dict_get (filters query_info) "chunk_type" in
          let bm25_filters :=
            if truthy chunk_type
            then [ ("chunk_tier", VStr "child"); ("chunk_type", chunk_type) ]
            else [ ("chunk_tier", VStr "child") ] in
          bm25_chunks <- BM25.search bm (VStr question) top_k_child
                           bm25_filters ;;
          match bm25_chunks with
          | [] => Ok []
          | _ => Ok [ ("bm25", bm25_chunks) ]
          end
        else Ok []
    | None => Ok []
    end ;;
  let all_child_results :=
    fold_left (fun d kv => dict_set d (fst kv) (snd kv))
              bm25_results child_results in
  fused_results <- _reciprocal_rank_fusion all_child_results 60 ;;
  reranked_results <-
    _rerank_with_score_fusion self question fused_results top_k_final ;;
  cc <- assemble (collab self) parent_results reranked_results
          context_config ;;
  Ok {| query := question;
        result_intent := intent query_info;
        retrieved_chunks := reranked_results;
        context := fst cc;
        confidence := snd cc;
        metadata :=
          [ ("num_parent_chunks",
              VInt (Z.of_nat (List.length parent_results)));
            ("num_child_chunks",
              VInt (Z.of_nat (List.length reranked_results)));
            ("query_variations",
              VList (map VStr (query_variations query_info))) ] |}.

(** Stage 2 once the lookup has returned [exact_results]. *)
Definition exact_match_result (self : HierarchicalRetrievalPipeline)
  (question : string) (query_info : QueryInfo) (context_config : dict)
  (code : string) (exact_results : list dict) : result RetrievalResult :=
  let parent_results := filter (tier_is "parent") exact_results in
  let child_results := filter (tier_is "child") exact_results in
  cc <- assemble (collab self) parent_results child_results context_config ;;
  Ok {| query := question;
        result_intent := intent query_info;
        retrieved_chunks := exact_results;
        context := fst cc;
        confidence := 1;
        metadata :=
          [ ("search_type", VStr "exact_code_match");
            ("thu_tuc_id", VStr code);
            ("num_parent_chunks",
              VInt (Z.of_nat (List.length parent_results)));
            ("num_child_chunks",
              VInt (Z.of_nat (List.length child_results))) ] |}.

(** Stage 2: the detected code and the chunks found for it, when a code
    was detected and the lookup found something. *)
Definition exact_match_routing (self : HierarchicalRetrievalPipeline)
  (query_info : QueryInfo) : option (string * list dict) :=
  match exact_code query_info with
  | Some code =>
      if String.eqb code "" then None
      else match exact_lookup self query_info code with
           | [] => None
           | exact_results => Some (code, exact_results)
           end
  | None => None
  end.

(** Stages 1 to 8, entered after a cache miss or without a cache. *)
Definition retrieve_uncached (self : HierarchicalRetrievalPipeline)
  (now : Q) (question : string) (query_embedding : option (list Q))
  (top_k_parent top_k_child : nat)
  : result (RetrievalResult * HierarchicalRetrievalPipeline) :=
  let query_info := enhance_query (collab self) question in
  context_config <- get_context_config (intent query_info) ;;
  chunks <- config_int context_config "chunks" ;;
  (* the table holds positive integers; the count is read off as a [nat] *)
  let top_k_final := Z.to_nat chunks in
  match exact_match_routing self query_info with
  | Some (code, exact_results) =>
      r <- exact_match_result self question query_info context_config
             code exact_results ;;
      Ok (r, cache_result self now question query_embedding r)
  | None =>
      r <- hybrid_search self question query_info context_config
             top_k_parent top_k_child top_k_final ;;
      Ok (r, cache_result self now question query_embedding r)
  end.

(** [retrieve(question, top_k_parent, top_k_child, top_k_final)].
    [now] is the clock at the cache look-up and [now'] the clock when the
    result is stored. *)
Definition retrieve (self : HierarchicalRetrievalPipeline) (now now' : Q)
  (question : string) (top_k_parent top_k_child top_k_final : nat)
  : result (RetrievalResult * HierarchicalRetrievalPipeline) :=
  match cache self with
  | Some c =>
      let query_embedding := encode (collab self) question in
      let '(c', cached_result) := Cache.get c now question query_embedding in
      match cached_result with
      | Some r => Ok (r, with_cache self (Some c'))
      | None =>
          retrieve_uncached (with_cache self (Some c')) now' question
            (Some query_embedding) top_k_parent top_k_child
      end
  | None =>
      retrieve_uncached self now' question None top_k_parent top_k_child
  end.

(** The constructor with its automatic initialisations. *)
Definition init (c : Collaborators) (bm25 : option BM25.SimpleBM25)
  (chunks : list dict) (auto_init_bm25 : bool)
  (reranker : option Reranker.CrossEncoderReranker) (use_reranker : bool)
  (cache : option (Cache.SemanticCache RetrievalResult)) (use_cache : bool)
  : result HierarchicalRetrievalPipeline :=
  bm <- match bm25, auto_init_bm25, chunks with
        | None, true, _ :: _ =>
            built <- BM25.build_index (BM25.init chunks 1.5 0.75) ;;
            Ok (Some built)
        | _, _, _ => Ok bm25
        end ;;
  rr <- match reranker, use_reranker with
        | None, true =>
            r <- Reranker.init 0.55 0.35 0.10 false (fun _ _ => None) ;;
            Ok (Some r)
        | _, _ => Ok reranker
        end ;;
  let ca := match cache, use_cache with
            | None, true => Some (Cache.init RetrievalResult 100 24 0.92)
            | _, _ => cache
            end in
  Ok {| collab := c; bm25 := bm; reranker := rr; cache := ca |}.

End WithRuntime.

End Pipeline.

(* ------------------------------------------------------------------ *)
(** * semantic_cache.py, continued: statistics                         *)
(* ------------------------------------------------------------------ *)

Module CacheStatsView.
Import Cache.

(** The property [CacheStats.hit_rate]. *)
Definition hit_rate (s : CacheStats) : Q :=
  if total_queries s =? 0 then 0%Q
  else (BM25.Qnat (hits s) / BM25.Qnat (total_queries s))%Q.

(** The dictionary built by [get_stats]. *)
Definition get_stats {R} (c : SemanticCache R) : dict :=
  [ ("size", VInt (Z.of_nat (List.length (_cache c))));
    ("max_size", VInt (Z.of_nat (max_size c)));
    ("hits", VInt (Z.of_nat (hits (stats c))));
    ("misses", VInt (Z.of_nat (misses (stats c))));
    ("hit_rate", VFloat (hit_rate (stats c)));
    ("evictions", VInt (Z.of_nat (evictions (stats c))));
    ("expired", VInt (Z.of_nat (expired (stats c))));
    ("total_queries", VInt (Z.of_nat (total_queries (stats c)))) ].

(** The keys of the [OrderedDict], least recently used first. *)
Definition keys {R} (c : SemanticCache R) : list string :=
  map fst (_cache c).

End CacheStatsView.

(* ------------------------------------------------------------------ *)
(** * query_enhancer.py                                                *)
(* ------------------------------------------------------------------ *)

Module QueryEnhancer.
Import Pipeline.

Definition INTENT_MAPPING : list (string * list string) :=
  [
    ("documents",
      [ "giấy tờ cần nộp"; "hồ sơ bao gồm"; "văn bản nộp"; "tài liệu cần";
        "nộp gì" ]);
    ("requirements",
      [ "điều kiện"; "yêu cầu"; "ai được"; "đối tượng"; "được làm";
        "được phép" ]);
    ("process",
      [ "trình tự"; "các bước"; "làm thế nào"; "quy trình"; "cách thức" ]);
    ("legal",
      [ "căn cứ"; "pháp lý"; "luật"; "nghị định"; "thông tư"; "quy định" ]);
    ("timeline",
      [ "thời gian"; "bao lâu"; "thời hạn"; "mất bao lâu"; "trong vòng";
        "ngày làm việc" ]);
    ("fees",
      [ "phí"; "lệ phí"; "chi phí"; "tốn"; "giá"; "mất bao nhiêu" ]);
    ("location",
      [ "ở đâu"; "địa chỉ"; "nơi"; "cơ quan nào"; "đến đâu" ]) ].

Definition INTENT_EXCLUSIONS : list (string * list string) :=
  [
    ("documents",
      [ "thời gian"; "bao lâu"; "thời hạn"; "hình thức thông báo";
        "thông báo" ]) ].

(** The enhancer with what it obtains from outside: the model's answer to
    the intent prompt, stripped and lower-cased ([None] when the call
    raises), the match of the procedure-code pattern, the query rewritten
    by the substitutions of [_rewrite_query], and the two methods that
    parse a model answer, [extract_entities] and
    [generate_query_variations]. *)
Record OllamaQueryEnhancer : Type := {
  ask_intent : string -> option string;
  _extract_procedure_code : string -> option string;
  _rewrite_query : string -> string;
  extract_entities : string -> dict;
  generate_query_variations : string -> string -> nat -> list string
}.

(** [kw in text]. *)
Definition contains (kw text : string) : bool :=
  match String.index 0 kw text with
  | Some _ => true
  | None => false
  end.

(** The score of one intent in the loop of [detect_intent]. *)
Definition keyword_score (question_lower intent : string)
  (keywords : list string) : nat :=
  let score :=
    List.length (filter (fun kw => contains kw question_lower) keywords) in
  match assoc intent INTENT_EXCLUSIONS with
  | Some exclusions =>
      if existsb (fun excl => contains excl question_lower) exclusions
      then 0
      else score
  | None => score
  end.

(** [intent_scores]: the intents with a positive score, in table order. *)
Definition intent_scores (question_lower : string) : list (string * nat) :=
  filter (fun p => 0 <? snd p)
         (map (fun ik => (fst ik,
                          keyword_score question_lower (fst ik) (snd ik)))
              INTENT_MAPPING).

(** [max(d, key=d.get)]: the first key with the largest value. *)
Fixpoint max_from (best : string * nat) (l : list (string * nat))
  : string * nat :=
  match l with
  | [] => best
  | x :: l' => if snd best <? snd x then max_from x l' else max_from best l'
  end.

Definition valid_intents : list string :=
  map fst INTENT_MAPPING ++ [ "overview" ].

Section WithRuntime.
Context {RT : Runtime}.

Definition detect_intent (self : OllamaQueryEnhancer) (question : string)
  : string :=
  let question_lower := str_lower question in
  match intent_scores question_lower with
  | first :: rest => fst (max_from first rest)
  | [] =>
      match ask_intent self question with
      | Some intent =>
          if existsb (String.eqb intent) valid_intents then intent
          else "overview"
      | None => "overview"
      end
  end.

(** Step 4 of [enhance_query]. *)
Definition intent_to_chunk_type : list (string * value) :=
  [ ("documents", VStr "child_documents");
    ("requirements", VStr "child_requirements");
    ("process", VStr "child_process");
    ("timeline", VList [ VStr "child_process"; VStr "child_fees_timing" ]);
    ("legal", VStr "child_legal") ].

Definition enhance_query (self : OllamaQueryEnhancer) (question : string)
  : QueryInfo :=
  let exact_code := _extract_procedure_code self question in
  let rewritten_query := _rewrite_query self question in
  let query_for_processing :=
    if negb (String.eqb rewritten_query question)
       && negb (String.eqb (str_lower rewritten_query) (str_lower question))
    then rewritten_query else question in
  let intent := detect_intent self question in
  let entities := extract_entities self question in
  let variations :=
    if negb (String.eqb query_for_processing question)
    then query_for_processing
         :: generate_query_variations self question intent 2
    else generate_query_variations self question intent 3 in
  let filters :=
    if negb (String.eqb intent "overview") then
      match assoc intent intent_to_chunk_type with
      | Some chunk_type => [ ("chunk_type", chunk_type) ]
      | None => []
      end
    else [] in
  {| original_query := question;
     intent := intent;
     query_variations := variations;
     entities := entities;
     filters := filters;
     exact_code := exact_code |}.

End WithRuntime.

End QueryEnhancer.

(* ------------------------------------------------------------------ *)
(** * Predicates used in the statements, and concrete scenarios       *)
(* ------------------------------------------------------------------ *)

Module Props.
Import ContextSettings.

(** What [validate_config] checks, spelled out on the fields. *)
Definition well_formed_config (c : dict) : Prop :=
  Forall (fun key => dict_mem key c = true) required_keys /\
  exists chunks max_descendants max_siblings : Z,
    config_int c "chunks" = Ok chunks /\
    config_int c "max_descendants" = Ok max_descendants /\
    config_int c "max_siblings" = Ok max_siblings /\
    (1 <= chunks <= 10)%Z /\
    (0 <= max_descendants <= 100)%Z /\
    (0 <= max_siblings <= 20)%Z.

(** A float field of a returned record ([0] when it holds no float). *)
Definition float_field (r : dict) (k : string) : Q :=
  match dict_get r k with VFloat q => q | _ => 0%Q end.

(** Every [key: value] pair of [filters] equals the field of [c]. *)
Definition satisfies_filters (c : dict) (filters : dict) : Prop :=
  Forall (fun kv => py_eq (dict_get c (fst kv)) (snd kv) = true) filters.

(** A word: not empty and free of white space. *)
Definition word (w : Text.text) : Prop :=
  w <> [] /\ Forall (fun c => Text.isspace c = false) w.

(** [x] may stand before [y] in the result of the exact-code lookup: a
    parent-tier chunk is never behind a chunk of another tier, and two
    chunks of one tier stand in ascending [chunk_id] order. *)
Definition parent_first_then_id (x y : dict) : Prop :=
  (Pipeline.tier_is "parent" y = true ->
   Pipeline.tier_is "parent" x = true) /\
  (dict_get x "chunk_tier" = dict_get y "chunk_tier" ->
   VectorStore.str_ltb (VectorStore.str_of (dict_get y "chunk_id"))
                       (VectorStore.str_of (dict_get x "chunk_id")) = false).

(** Stage 0 does not answer: there is no cache, or its [get] misses. *)
Definition cache_miss {RT : Runtime}
  (self : Pipeline.HierarchicalRetrievalPipeline) (now : Q)
  (question : string) : Prop :=
  match Pipeline.cache self with
  | None => True
  | Some c =>
      snd (Cache.get c now question
             (Pipeline.encode (Pipeline.collab self) question)) = None
  end.

End Props.

Module Scenario.

(** A runtime for running the definitions on small inputs.  The texts of
    the scenarios are lower-case ASCII words separated by single spaces,
    none of them a stop word, so that the tokens are the words of at
    least two letters; [(x - 1) / x] stands for [math.log], positive above
    1 like the logarithm; similarities are not consulted. *)
Fixpoint words_from (cur : string) (s : string) : list string :=
  match s with
  | EmptyString =>
      if (1 <? String.length cur) then [cur] else []
  | String c s' =>
      if Ascii.eqb c " "%char then
        (if (1 <? String.length cur) then [cur] else []) ++ words_from "" s'
      else words_from (cur ++ String c EmptyString)%string s'
  end.

Definition toy_runtime : Runtime :=
  {| tokenize_text := words_from "";
     math_log := fun x => ((x - 1) / x)%Q;
     np_sqrt := fun x => x;
     str_lower := fun s => s |}.

(** Three chunks of two procedures. *)
Definition demo_chunks : list dict :=
  [ [ ("chunk_id", VStr "1.000001_child_process_0");
      ("thu_tuc_id", VStr "1.000001");
      ("chunk_tier", VStr "child");
      ("chunk_type", VStr "child_process");
      ("content", VStr "dang ky nghia vu quan su lan dau") ];
    [ ("chunk_id", VStr "1.000002_child_process_0");
      ("thu_tuc_id", VStr "1.000002");
      ("chunk_tier", VStr "child");
      ("chunk_type", VStr "child_process");
      ("content", VStr "dang ky ket hon") ];
    [ ("chunk_id", VStr "1.000001_parent");
      ("thu_tuc_id", VStr "1.000001");
      ("chunk_tier", VStr "parent");
      ("chunk_type", VStr "parent_overview");
      ("content", VStr "nghia vu quan su nam thanh nien") ] ].

Definition demo_bm25 : BM25.SimpleBM25 :=
  match @BM25.build_index toy_runtime (BM25.init demo_chunks 1.5 0.75) with
  | Ok idx => idx
  | Raise _ => BM25.init demo_chunks 1.5 0.75
  end.

(** Two candidates for the reranker: the second one scores higher. *)
Definition chunk_a : dict :=
  [ ("chunk_id", VStr "a"); ("content", VStr "alpha"); ("score", VFloat 0.2) ].

Definition chunk_b : dict :=
  [ ("chunk_id", VStr "b"); ("content", VStr "beta"); ("score", VFloat 0.9) ].

(** A content of 1201 one-letter words: 2401 characters. *)
Definition many_short_words : Text.text :=
  Text.join (repeat [97%N] 1201).

(** A content of 1300 four-letter words: 6499 characters. *)
Definition many_long_words : Text.text :=
  Text.join (repeat [97; 98; 99; 100]%N 1300).

(** A store with nine chunks: a parent and seven children of procedure
    1.000001, children first, and one chunk of procedure 1.000002. *)
Definition demo_point (code id tier type : string) : VectorStore.Point :=
  {| VectorStore.chunk_id := id;
     VectorStore.thu_tuc_id := code;
     VectorStore.chunk_type := type;
     VectorStore.chunk_tier := tier;
     VectorStore.parent_chunk_id :=
       if String.eqb tier "child" then Some (code ++ "_parent")%string
       else None;
     VectorStore.content := "noi dung";
     VectorStore.metadata := VDict [ ("mã_thủ_tục", VStr code) ] |}.

Definition demo_points : list VectorStore.Point :=
  [ demo_point "1.000001" "1.000001_child_process_1" "child" "child_process";
    demo_point "1.000001" "1.000001_child_process_0" "child" "child_process";
    demo_point "1.000002" "1.000002_parent" "parent" "parent_overview";
    demo_point "1.000001" "1.000001_child_documents_0" "child"
               "child_documents";
    demo_point "1.000001" "1.000001_child_requirements_0" "child"
               "child_requirements";
    demo_point "1.000001" "1.000001_parent" "parent" "parent_overview";
    demo_point "1.000001" "1.000001_child_legal_0" "child" "child_legal";
    demo_point "1.000001" "1.000001_child_fees_timing_0" "child"
               "child_fees_timing";
    demo_point "1.000001" "1.000001_child_agencies_0" "child"
               "child_agencies" ].

(** An enhancer that finds the code 1.000001 and the intent [fees], which
    carries no chunk-type filter, in every question. *)
Definition demo_collab : Pipeline.Collaborators :=
  {| Pipeline.encode := fun _ => [1%Q];
     Pipeline.enhance_query := fun question =>
       {| Pipeline.original_query := question;
          Pipeline.intent := "fees";
          Pipeline.query_variations := [question];
          Pipeline.entities := [];
          Pipeline.filters := [];
          Pipeline.exact_code := Some "1.000001" |};
     Pipeline.client :=
       {| VectorStore.points := demo_points;
          VectorStore.query_points := fun _ _ _ => [] |};
     Pipeline.assemble := fun _ _ _ => Ok (""%string, 0%Q) |}.

(** The pipeline as its constructor sets it up by default: no BM25 index
    (no chunks were given), the default reranker and an empty cache. *)
Definition demo_pipeline : Pipeline.HierarchicalRetrievalPipeline :=
  match Pipeline.init (RT:=toy_runtime) demo_collab None [] true None true
          None true with
  | Ok p => p
  | Raise _ =>
      {| Pipeline.collab := demo_collab; Pipeline.bm25 := None;
         Pipeline.reranker := None; Pipeline.cache := None |}
  end.

(** A second set-up for the hybrid path: no code is detected, the intent
    is [process], the nearest-neighbour query returns the stored points
    that pass the filter, each with similarity 0.8, and the BM25 index is
    built over [demo_chunks]. *)
Definition hybrid_collab : Pipeline.Collaborators :=
  {| Pipeline.encode := fun _ => [1%Q];
     Pipeline.enhance_query := fun question =>
       {| Pipeline.original_query := question;
          Pipeline.intent := "process";
          Pipeline.query_variations := [question];
          Pipeline.entities := [];
          Pipeline.filters := [ ("chunk_type", VStr "child_process") ];
          Pipeline.exact_code := None |};
     Pipeline.client :=
       {| VectorStore.points := demo_points;
          VectorStore.query_points := fun _ top_k conds =>
            firstn top_k
              (map (fun p => (p, 0.8%Q))
                 (filter (fun p => forallb (VectorStore.satisfies p) conds)
                         demo_points)) |};
     Pipeline.assemble := fun _ _ _ => Ok (""%string, 0%Q) |}.

Definition hybrid_pipeline : Pipeline.HierarchicalRetrievalPipeline :=
  match Pipeline.init (RT:=toy_runtime) hybrid_collab None demo_chunks true
          None true None true with
  | Ok p => p
  | Raise _ =>
      {| Pipeline.collab := hybrid_collab; Pipeline.bm25 := None;
         Pipeline.reranker := None; Pipeline.cache := None |}
  end.

End Scenario.

(** * Further scenarios *)

Module CacheScenario.
Import Cache.

(** A cache for two entries with a time to live of one hour, holding the
    queries [a] (stored at second 0) and [b] (stored at second 1). *)
Definition two_entries : SemanticCache string :=
  put (put (init string 2 1 0.92) 0 "a" [1; 0]%Q "ra") 1 "b" [0; 1]%Q "rb".

End CacheScenario.

Module BM25Props.
Import BM25.

(** A value [tokenize] accepts: a string, or anything false. *)
Definition text_or_false (v : value) : bool :=
  match v with
  | VStr _ => true
  | _ => negb (truthy v)
  end.

(** The [content] field as [build_index] reads it. *)
Definition content_of (chunk : dict) : value :=
  dict_get_or chunk "content" (VStr "").

(** A posting with a positive term frequency for a document that has at
    least one token. *)
Definition good_posting (lens : list nat) (e : InvertedIndexEntry) : Prop :=
  1 <= term_freq e /\
  exists len, nth_error lens (doc_id e) = Some len /\ 1 <= len.

(** [term] has a posting for document [d]. *)
Definition has_posting (idx : list (string * list InvertedIndexEntry))
  (term : string) (d : nat) : Prop :=
  exists ps e, assoc term idx = Some ps /\ In e ps /\ doc_id e = d.

(** The score of document [d] is strictly larger in [s'] than in [s]. *)
Definition raised (s s' : list Q) (d : nat) : Prop :=
  exists x y, nth_error s d = Some x /\ nth_error s' d = Some y /\ (x < y)%Q.

Section WithRuntime.
Context {RT : Runtime}.

(** What the loop of [build_index] has established once the chunks
    [done] are indexed. *)
Record index_inv (done : list dict) (lens : list nat)
  (idx : list (string * list InvertedIndexEntry)) : Prop := {
  inv_len : List.length lens = List.length done;
  inv_keys : NoDup (map fst idx);
  inv_good :
    forall t ps e, assoc t idx = Some ps -> In e ps -> good_posting lens e;
  inv_df :
    forall t ps, assoc t idx = Some ps ->
                 List.length ps <= List.length done;
  inv_docs :
    forall d c toks,
      nth_error done d = Some c ->
      tokenize (content_of c) = Ok toks ->
      nth_error lens d = Some (List.length toks) /\
      forall t, In t toks -> has_posting idx t d
}.

(** What [search] relies on in the fields of a built index. *)
Record well_built (self : SimpleBM25) : Prop := {
  wb_built : is_built self = true;
  wb_docs : num_docs self = List.length (chunks self);
  wb_nonempty : 0 < num_docs self;
  wb_inv : index_inv (chunks self) (doc_lengths self) (inverted_index self);
  wb_idf :
    forall t ps, assoc t (inverted_index self) = Some ps ->
                 assoc t (idf_cache self)
                 = Some (idf_of (num_docs self) (List.length ps));
  wb_avg :
    avg_doc_length self
    = (Qnat (sum_nat (doc_lengths self)) / Qnat (num_docs self))%Q
}.

End WithRuntime.

End BM25Props.

Module RerankerScenario.
Import Reranker.

(** The reranker the pipeline constructs by default, with the weights as
    the constructor leaves them. *)
Definition default_reranker : CrossEncoderReranker :=
  {| semantic_weight := 0.55 / (0.55 + 0.35 + 0.10);
     bm25_weight := 0.35 / (0.55 + 0.35 + 0.10);
     cross_encoder_weight := 0.10 / (0.55 + 0.35 + 0.10);
     use_cross_encoder := false;
     remote_score := fun _ _ => None |}.

End RerankerScenario.

Module FusionProps.
Import Pipeline.

(** Dictionary keys up to Python equality: [1], [1.0] and [True] are one
    key.  Numbers are reduced fractions. *)
Inductive hkey : Type :=
| KNone
| KStr (s : string)
| KNum (q : Q).

Definition canon (v : value) : hkey :=
  match v with
  | VNone => KNone
  | VStr s => KStr s
  | _ => match as_number v with
         | Some q => KNum (Qred q)
         | None => KNone
         end
  end.

(** What holds of every entry of [fused_scores]. *)
Definition entry_ok (kf : value * Fused) : Prop :=
  hashable (fst kf) = true /\
  dict_get (doc (snd kf)) "chunk_id" = fst kf /\
  (0 < rrf_score (snd kf))%Q /\
  count (snd kf) = semantic_count (snd kf) + bm25_count (snd kf) /\
  1 <= count (snd kf).

(** The chunk identifier of a record. *)
Definition chunk_id_of (r : dict) : value := dict_get r "chunk_id".

(** [fused_scores] holds one entry per key, each of them well formed. *)
Definition fused_ok (fused : list (value * Fused)) : Prop :=
  NoDup (map canon (map fst fused)) /\ Forall entry_ok fused.

(** [v in fused_scores]. *)
Definition covers (fused : list (value * Fused)) (v : value) : Prop :=
  existsb (py_eq v) (map fst fused) = true.

(** A record the fusion can key: it has a hashable [chunk_id]. *)
Definition has_chunk_id (d : dict) : Prop :=
  exists id, dict_item d "chunk_id" = Ok id /\ hashable id = true.

(** A record the reranker can score: [score] and [bm25_score] are
    numbers where they are present. *)
Definition scorable (d : dict) : Prop :=
  is_ok (to_number (dict_get_or d "score" (VFloat 0))) = true /\
  is_ok (to_number (dict_get_or d "bm25_score" (VFloat 0))) = true.

End FusionProps.

Module EnhancerScenario.
Import QueryEnhancer.

(** An enhancer whose model always answers [documents], finds no
    procedure code and rewrites nothing. *)
Definition demo_enhancer : OllamaQueryEnhancer :=
  {| ask_intent := fun _ => Some "documents";
     _extract_procedure_code := fun _ => None;
     _rewrite_query := fun question => question;
     extract_entities := fun _ => [];
     generate_query_variations := fun question _ n => firstn n [question] |}.

(** An enhancer whose model does not answer. *)
Definition silent_enhancer : OllamaQueryEnhancer :=
  {| ask_intent := fun _ => None;
     _extract_procedure_code := fun _ => None;
     _rewrite_query := fun question => question;
     extract_entities := fun _ => [];
     generate_query_variations := fun question _ n => firstn n [question] |}.

End EnhancerScenario.

Module ContextProps.
Import ContextSettings.

(** The number under a key of a configuration. *)
Definition number_field (config : dict) (k : string) : result Q :=
  v <- dict_item config k ;; to_number v.

Definition all_keys_present (config : dict) : Prop :=
  Forall (fun key => dict_mem key config = true) required_keys.

End ContextProps.

Module PipelineScenario.

(** A pipeline constructed with [use_reranker=False] and
    [use_cache=False], over no chunks. *)
Definition plain_pipeline : Pipeline.HierarchicalRetrievalPipeline :=
  {| Pipeline.collab := Scenario.hybrid_collab;
     Pipeline.bm25 := None;
     Pipeline.reranker := None;
     Pipeline.cache := None |}.

End PipelineScenario.

Module BM25Scenario.
Import BM25.

(** A corpus of one chunk that carries a [score] field of its own (the
    similarity 0.7 of an earlier vector search). *)
Definition scored_chunk : dict :=
  [ ("chunk_id", VStr "1.000002_child_process_0");
    ("content", VStr "dang ky");
    ("score", VFloat 0.7) ].

Definition scored_bm25 : SimpleBM25 :=
  match @build_index Scenario.toy_runtime (init [scored_chunk] 1.5 0.75) with
  | Ok idx => idx
  | Raise _ => init [scored_chunk] 1.5 0.75
  end.

End BM25Scenario.

(* ------------------------------------------------------------------ *)
(** * Facts about the Python layer                                     *)
(* ------------------------------------------------------------------ *)

Module PyFacts.

Lemma bind_ok {A B} (m : result A) (k : A -> result B) (b : B) :
  bind m k = Ok b -> exists a, m = Ok a /\ k a = Ok b.
Proof. destruct m; cbn; intros H; [eauto | discriminate]. Qed.

Lemma list_item_ok {A} (l : list A) (i : nat) (a : A) :
  list_item l i = Ok a -> nth_error l i = Some a.
Proof.
  unfold list_item. destruct (nth_error l i); intros H; inversion H; auto.
Qed.

Lemma mapM_ok {A B} (f : A -> result B) (l : list A) (rs : list B) :
  mapM f l = Ok rs -> Forall2 (fun a r => f a = Ok r) l rs.
Proof.
  revert rs. induction l as [|a l IH]; cbn; intros rs H.
  - inversion H. constructor.
  - apply bind_ok in H as (b & Hb & H).
    apply bind_ok in H as (bs & Hbs & H).
    inversion H; subst. constructor; auto.
Qed.

Lemma mapM_total {A B} (f : A -> result B) (l : list A) :
  Forall (fun a => exists b, f a = Ok b) l -> exists rs, mapM f l = Ok rs.
Proof.
  induction 1 as [|a l (b & Hb) _ (rs & Hrs)]; cbn.
  - eauto.
  - rewrite Hb, Hrs. cbn. eauto.
Qed.

Lemma assoc_dict_set_same {V} (d : list (string * V)) k v :
  assoc k (dict_set d k v) = Some v.
Proof.
  induction d as [|[k' v'] d IH]; cbn.
  - now rewrite String.eqb_refl.
  - destruct (String.eqb k k') eqn:E; cbn; rewrite E; auto.
Qed.

Lemma assoc_dict_set_other {V} (d : list (string * V)) k k' v :
  k <> k' -> assoc k (dict_set d k' v) = assoc k d.
Proof.
  intros Hne. induction d as [|[k0 v0] d IH]; cbn.
  - destruct (String.eqb k k') eqn:E; auto.
    apply String.eqb_eq in E. contradiction.
  - destruct (String.eqb k' k0) eqn:E; cbn.
    + apply String.eqb_eq in E; subst k0.
      destruct (String.eqb k k') eqn:E'; auto.
      apply String.eqb_eq in E'. contradiction.
    + destruct (String.eqb k k0); auto.
Qed.

Lemma dict_get_set_same (d : dict) k v : dict_get (dict_set d k v) k = v.
Proof. unfold dict_get. now rewrite assoc_dict_set_same. Qed.

Lemma dict_get_set_other (d : dict) k k' v :
  k <> k' -> dict_get (dict_set d k' v) k = dict_get d k.
Proof. intros. unfold dict_get. now rewrite assoc_dict_set_other. Qed.

Lemma Qltb_lt (x y : Q) : Qltb x y = true <-> (x < y)%Q.
Proof.
  unfold Qltb. rewrite negb_true_iff.
  split; intros H.
  - apply Qnot_le_lt. intros Hle. apply Qle_bool_iff in Hle. congruence.
  - destruct (Qle_bool y x) eqn:E; auto.
    apply Qle_bool_iff in E. exfalso. eapply Qlt_not_le; eauto.
Qed.

Lemma Qltb_ge (x y : Q) : Qltb x y = false <-> (y <= x)%Q.
Proof.
  unfold Qltb. rewrite negb_false_iff. apply Qle_bool_iff.
Qed.

Section StableSortFacts.
Variable A : Type.
Variable before : A -> A -> bool.
Hypothesis before_asym :
  forall x y, before y x = true -> before x y = false.
Hypothesis precede_trans :
  forall a b c, before b a = false -> before c b = false ->
                before c a = false.

Lemma insert_by_perm x l : Permutation (insert_by before x l) (x :: l).
Proof.
  induction l as [|y l IH]; cbn; auto.
  destruct (before y x); auto.
  rewrite IH. apply perm_swap.
Qed.

Lemma stable_sort_perm l : Permutation (stable_sort before l) l.
Proof.
  induction l as [|x l IH]; cbn; auto.
  rewrite insert_by_perm. now constructor.
Qed.

Lemma insert_by_sorted x l :
  StronglySorted (fun a b => before b a = false) l ->
  StronglySorted (fun a b => before b a = false) (insert_by before x l).
Proof.
  induction 1 as [|y l Hs IH Hy]; cbn.
  - repeat constructor.
  - destruct (before y x) eqn:E.
    + constructor; auto.
      eapply Permutation_Forall.
      * symmetry. apply insert_by_perm.
      * constructor; auto.
    + constructor.
      * constructor; auto.
      * constructor; auto.
        eapply Forall_impl; [|exact Hy].
        intros z Hz. cbn in Hz. eapply precede_trans; eauto.
Qed.

Lemma stable_sort_sorted l :
  StronglySorted (fun a b => before b a = false) (stable_sort before l).
Proof.
  induction l as [|x l IH]; cbn.
  - constructor.
  - now apply insert_by_sorted.
Qed.
End StableSortFacts.

Lemma StronglySorted_weaken {A} (P P' : A -> A -> Prop) l :
  (forall a b, P a b -> P' a b) ->
  StronglySorted P l -> StronglySorted P' l.
Proof.
  intros HP. induction 1 as [|a l Hs IH Ha]; constructor; auto.
  eapply Forall_impl; [|exact Ha]. auto.
Qed.

Lemma sort_desc_perm {A} (key : A -> Q) l : Permutation (sort_desc key l) l.
Proof. apply stable_sort_perm. Qed.

Lemma sort_desc_sorted {A} (key : A -> Q) l :
  StronglySorted (fun a b => (key b <= key a)%Q) (sort_desc key l).
Proof.
  unfold sort_desc.
  eapply StronglySorted_weaken; [|apply stable_sort_sorted].
  - intros a b Hab. cbn in Hab. now apply Qltb_ge in Hab.
  - intros x y Hxy. apply Qltb_lt in Hxy. apply Qltb_ge.
    now apply Qlt_le_weak.
  - intros a b c Hab Hbc. apply Qltb_ge in Hab, Hbc. apply Qltb_ge.
    eapply Qle_trans; eauto.
Qed.

Lemma In_firstn {A} (x : A) n l : In x (firstn n l) -> In x l.
Proof.
  revert n. induction l as [|a l IH]; intros [|n]; cbn; try tauto.
  intros [H|H]; auto. right. eauto.
Qed.

Lemma length_enumerate_from {A} (start : nat) (l : list A) :
  List.length (enumerate_from start l) = List.length l.
Proof.
  revert start. induction l as [|a l IH]; intros start; cbn; auto.
Qed.

Lemma firstn_seq_min (k start n : nat) :
  firstn k (seq start n) = seq start (Nat.min k n).
Proof.
  revert start n. induction k as [|k IH]; intros start [|n]; cbn; auto.
  now rewrite IH.
Qed.

Lemma StronglySorted_firstn {A} (P : A -> A -> Prop) n l :
  StronglySorted P l -> StronglySorted P (firstn n l).
Proof.
  intros Hs. revert n. induction Hs as [|a l Hs IH Ha]; intros [|n]; cbn;
    try constructor; auto.
  rewrite Forall_forall in *. intros x Hx. apply Ha.
  eapply In_firstn; eauto.
Qed.

Lemma StronglySorted_Forall2 {A B} (P : A -> A -> Prop) (P' : B -> B -> Prop)
  (R : A -> B -> Prop) l l' :
  (forall a b a' b', R a a' -> R b b' -> P a b -> P' a' b') ->
  Forall2 R l l' -> StronglySorted P l -> StronglySorted P' l'.
Proof.
  intros HR H2. induction H2 as [|a a' l l' Ha H2 IH]; intros Hs.
  - constructor.
  - inversion Hs as [|? ? Hs' Hall]; subst. constructor; auto.
    clear IH Hs Hs'. induction H2 as [|b b' l l' Hb H2 IH]; constructor.
    + inversion Hall; subst. eauto.
    + inversion Hall; subst. auto.
Qed.

End PyFacts.

(* ------------------------------------------------------------------ *)
(** * Properties of the context settings                               *)
(* ------------------------------------------------------------------ *)

Module ContextSettingsFacts.
Import ContextSettings Props.

Lemma get_context_config_cases (intent : string) :
  exists c, get_context_config intent = Ok c /\
            In c (map snd INTENT_CONTEXT_MAPPING).
Proof.
  unfold get_context_config. cbn [assoc INTENT_CONTEXT_MAPPING].
  repeat match goal with
         | |- context [String.eqb ?a ?b] =>
             lazymatch a with
             | intent => destruct (String.eqb a b)
             | _ => change (String.eqb a b) with false ||
                    change (String.eqb a b) with true
             end
         end;
    cbn; eexists; split; try reflexivity; cbn; tauto.
Qed.

Lemma table_records_valid :
  Forall (fun c => validate_config c = Ok true /\ well_formed_config c)
         (map snd INTENT_CONTEXT_MAPPING).
Proof.
  cbn [map snd INTENT_CONTEXT_MAPPING].
  repeat constructor; try reflexivity;
    (eexists _, _, _;
     repeat split; try reflexivity; cbn; try lia; discriminate).
Qed.

(** C10.  For every input string [get_context_config] returns one of the
    eight records of the intent-to-context table, and every record of the
    table passes [validate_config]: the six required keys are present,
    [chunks] lies between 1 and 10, [max_descendants] between 0 and 100 and
    [max_siblings] between 0 and 20. *)
Theorem context_config_total_and_valid :
  List.length INTENT_CONTEXT_MAPPING = 8 /\
  (forall intent : string,
      exists c, get_context_config intent = Ok c /\
                In c (map snd INTENT_CONTEXT_MAPPING)) /\
  Forall (fun c => validate_config c = Ok true /\ well_formed_config c)
         (map snd INTENT_CONTEXT_MAPPING).
Proof.
  split; [reflexivity|].
  split; [exact get_context_config_cases | exact table_records_valid].
Qed.

End ContextSettingsFacts.

(* ------------------------------------------------------------------ *)
(** * Properties of the BM25 index                                     *)
(* ------------------------------------------------------------------ *)

Module BM25Facts.
Import BM25 Props PyFacts.

Section WithRuntime.
Context {RT : Runtime}.

Lemma matches_filters_spec (c : dict) (filters : dict) :
  matches_filters c filters = true <-> satisfies_filters c filters.
Proof.
  unfold matches_filters, satisfies_filters.
  rewrite forallb_forall, Forall_forall. reflexivity.
Qed.

Lemma apply_filters_loop (self : SimpleBM25) (filters : dict)
  (P : nat * Q -> Prop) pairs acc out :
  Forall P pairs ->
  Forall (fun p => P p /\
            exists c, nth_error (chunks self) (fst p) = Some c /\
                      matches_filters c filters = true) acc ->
  foldM (fun acc p =>
           chunk <- list_item (chunks self) (fst p) ;;
           Ok (if matches_filters chunk filters then acc ++ [p] else acc))
        pairs acc = Ok out ->
  Forall (fun p => P p /\
            exists c, nth_error (chunks self) (fst p) = Some c /\
                      matches_filters c filters = true) out.
Proof.
  intros HP. revert acc. induction HP as [|p pairs Hp _ IH]; cbn; intros acc Hacc H.
  - now inversion H; subst.
  - apply bind_ok in H as (acc' & Hstep & H).
    apply bind_ok in Hstep as (c & Hc & Hstep).
    apply list_item_ok in Hc.
    apply IH in H; auto.
    inversion Hstep; subst acc'.
    destruct (matches_filters c filters) eqn:E; auto.
    apply Forall_app. split; auto.
    constructor; eauto.
Qed.

Lemma apply_filters_ok (self : SimpleBM25) (filters : dict)
  (P : nat * Q -> Prop) pairs out :
  Forall P pairs ->
  apply_filters self filters pairs = Ok out ->
  Forall (fun p => P p /\
            forall c, nth_error (chunks self) (fst p) = Some c ->
                      matches_filters c filters = true) out.
Proof.
  intros HP H. unfold apply_filters in H.
  destruct filters as [|f filters].
  - inversion H; subst. eapply Forall_impl; [|exact HP].
    cbn. auto.
  - eapply apply_filters_loop in H; eauto.
    eapply Forall_impl; [|exact H].
    cbn beta. intros p (Hp & c & Hc & Hm). split; auto.
    intros c' Hc'. congruence.
Qed.

Lemma with_scores_bm25 (c : dict) (s : Q) :
  dict_get (with_scores c s) "bm25_score" = VFloat s.
Proof. unfold with_scores. apply dict_get_set_same. Qed.

Lemma with_scores_other (c : dict) (s : Q) (k : string) :
  k <> "score" -> k <> "bm25_score" ->
  dict_get (with_scores c s) k = dict_get c k.
Proof.
  intros H1 H2. unfold with_scores.
  rewrite !dict_get_set_other; auto.
Qed.

(** C2, as amended.  Whenever [search] returns (which requires a built
    index), for any query, [top_k] and filter dictionary: every returned
    record is a copy of a corpus chunk with the fields [score] and
    [bm25_score] both set to one number; the corpus chunk satisfies every
    filter, each filter key being compared with the chunk's own field of
    that name; the returned record satisfies every filter whose key is
    neither [score] nor [bm25_score], the two fields that [search]
    overwrites after the test; every returned [bm25_score] is positive;
    the list is sorted by descending [bm25_score]; and it has at most
    [top_k] elements. *)
Theorem bm25_search_sound (self : SimpleBM25) (query : value) (top_k : nat)
  (filters : dict) (rs : list dict) :
  search self query top_k filters = Ok rs ->
  is_built self = true /\
  List.length rs <= top_k /\
  Forall (fun r =>
            (exists d c s,
                nth_error (chunks self) d = Some c /\
                r = with_scores c s /\
                satisfies_filters c filters) /\
            Forall (fun kv =>
                      fst kv = "score" \/ fst kv = "bm25_score" \/
                      py_eq (dict_get r (fst kv)) (snd kv) = true) filters /\
            exists s, dict_get r "bm25_score" = VFloat s /\ (0 < s)%Q) rs /\
  StronglySorted
    (fun r1 r2 =>
       (float_field r2 "bm25_score" <= float_field r1 "bm25_score")%Q) rs.
Proof.
  unfold search. intros H.
  destruct (is_built self) eqn:Hb; cbn in H; [|discriminate].
  split; [reflexivity|].
  apply bind_ok in H as (terms & _ & H).
  destruct terms as [|t terms].
  { inversion H; subst. cbn. repeat split; auto with arith; constructor. }
  apply bind_ok in H as (scores & _ & H).
  apply bind_ok in H as (pairs & Hpairs & H).
  apply mapM_ok in H.
  eapply apply_filters_ok with (P := fun p => (0 < snd p)%Q) in Hpairs.
  2:{ rewrite Forall_forall. intros p Hp. apply filter_In in Hp as [_ Hp].
      now apply Qltb_lt in Hp. }
  assert (Hsorted : Forall (fun p => (0 < snd p)%Q /\
            forall c, nth_error (chunks self) (fst p) = Some c ->
                      matches_filters c filters = true)
            (firstn top_k (sort_desc snd pairs))).
  { rewrite Forall_forall in *. intros p Hp. apply Hpairs.
    apply In_firstn in Hp.
    eapply Permutation_in; [apply sort_desc_perm | exact Hp]. }
  split.
  { apply Forall2_length in H. rewrite <- H. rewrite length_firstn.
    apply Nat.le_min_l. }
  split.
  - clear - H Hsorted.
    induction H as [|p r ps rs Hr H IH]; constructor.
    + inversion Hsorted as [|? ? [Hpos Hm] _]; subst.
      apply bind_ok in Hr as (c & Hc & Hr). apply list_item_ok in Hc.
      inversion Hr; subst r. specialize (Hm c Hc).
      apply matches_filters_spec in Hm.
      split; [|split].
      * exists (fst p), c, (snd p). auto.
      * unfold satisfies_filters in Hm.
        eapply Forall_impl; [|exact Hm].
        intros [k v] Hkv. cbn in *.
        destruct (string_dec k "score") as [->|H1]; auto.
        destruct (string_dec k "bm25_score") as [->|H2]; auto.
        right; right. rewrite with_scores_other; auto.
      * exists (snd p). split; auto. apply with_scores_bm25.
    + apply IH. now inversion Hsorted.
  - eapply StronglySorted_Forall2; [| exact H |].
    2:{ apply StronglySorted_firstn. apply sort_desc_sorted. }
    intros p1 p2 r1 r2 H1 H2 Hle. cbn beta in *.
    apply bind_ok in H1 as (c1 & _ & H1). inversion H1; subst r1.
    apply bind_ok in H2 as (c2 & _ & H2). inversion H2; subst r2.
    unfold float_field. rewrite !with_scores_bm25. exact Hle.
Qed.

(** C6, as amended.  [build_index] on an instance constructed with the
    empty chunk list raises [ValueError] before it writes any field: the
    instance keeps [num_docs = 0], [avg_doc_length = 0] and stays unbuilt,
    and every subsequent [search] raises [RuntimeError]. *)
Theorem build_index_empty_raises (k1 b : Q) (query : value) (top_k : nat)
  (filters : dict) :
  build_index (init [] k1 b) = Raise ValueError /\
  num_docs (init [] k1 b) = 0 /\
  avg_doc_length (init [] k1 b) = 0%Q /\
  is_built (init [] k1 b) = false /\
  search (init [] k1 b) query top_k filters = Raise RuntimeError.
Proof. repeat split. Qed.

Lemma load_after_save (orig fresh : SimpleBM25) (fs : files) (path : string) :
  load_index fresh (save_index orig fs path) path =
  Ok {| k1 := k1 orig; b := b orig; chunks := chunks fresh;
        inverted_index := inverted_index orig;
        doc_lengths := doc_lengths orig;
        avg_doc_length := avg_doc_length orig;
        num_docs := num_docs orig;
        idf_cache := idf_cache orig;
        is_built := true |}.
Proof.
  unfold load_index, save_index. now rewrite assoc_dict_set_same.
Qed.

(** Where the round trip does work: for a built index, [save_index(path)]
    followed by [load_index(path)] on an instance that holds the same
    chunk list gives a search-equivalent index: every query, [top_k] and
    filter dictionary gets the same outcome, chunks and scores
    included. *)
Theorem bm25_save_load_same_chunks (orig fresh : SimpleBM25) (fs : files)
  (path : string) :
  is_built orig = true ->
  chunks fresh = chunks orig ->
  exists loaded,
    load_index fresh (save_index orig fs path) path = Ok loaded /\
    forall (query : value) (top_k : nat) (filters : dict),
      search loaded query top_k filters = search orig query top_k filters.
Proof.
  intros Hb Hc. eexists. split; [apply load_after_save|].
  rewrite Hc. destruct orig; cbn in *. subst. reflexivity.
Qed.

(** Where the round trip fails: whenever [search] on the original index
    returns at least one chunk, the same [search] on the index reloaded
    into an instance constructed without chunks raises [IndexError]. *)
Lemma reload_without_chunks_raises (orig : SimpleBM25) (k1' b' : Q)
  (fs : files) (path : string) (query : value) (top_k : nat)
  (filters : dict) (r : dict) (rs : list dict) :
  search orig query top_k filters = Ok (r :: rs) ->
  exists loaded,
    load_index (init [] k1' b') (save_index orig fs path) path = Ok loaded /\
    search loaded query top_k filters = Raise IndexError.
Proof.
  intros H. eexists. split; [apply load_after_save|].
  destruct orig as [k bb cs ii dl avg n idf built].
  unfold search in *. cbn [is_built chunks num_docs init] in *.
  destruct built; cbn [negb] in *; [|discriminate].
  destruct (tokenize query) as [terms|e]; cbn [bind] in *; [|discriminate].
  destruct terms as [|t terms]; [discriminate|].
  match type of H with
  | context [foldM (score_term ?o) ?ts ?i] =>
      match goal with
      | |- context [foldM (score_term ?l) ts i] =>
          change (foldM (score_term l) ts i) with (foldM (score_term o) ts i)
      end
  end.
  match type of H with
  | context [foldM (score_term ?o) ?ts ?i] =>
      destruct (foldM (score_term o) ts i) as [scores|e]
  end; cbn [bind] in *; [|discriminate].
  remember (filter (fun p : nat * Q => Qltb 0 (snd p))
              (enumerate_from 0 scores)) as pairs eqn:Hp. clear Hp.
  destruct filters as [|f filters]; cbn [apply_filters bind] in *.
  - destruct (firstn top_k (sort_desc snd pairs)) as [|p ps];
      [discriminate|].
    cbn [mapM]. unfold list_item. now destruct (fst p).
  - destruct pairs as [|p ps].
    + cbn in H. destruct top_k; discriminate.
    + cbn [foldM]. unfold list_item. now destruct (fst p).
Qed.

End WithRuntime.

(** C2 on the three-chunk corpus: two child chunks answer the query. *)
Lemma bm25_search_sound_witness :
  exists rs,
    search (RT:=Scenario.toy_runtime) Scenario.demo_bm25
      (VStr "dang ky nghia vu") 2 [("chunk_tier", VStr "child")] = Ok rs /\
    List.length rs = 2 /\
    is_built Scenario.demo_bm25 = true /\
    StronglySorted
      (fun r1 r2 =>
         (float_field r2 "bm25_score" <= float_field r1 "bm25_score")%Q) rs.
Proof.
  eexists. split; [vm_compute; reflexivity|].
  split; [reflexivity|].
  pose proof
    (bm25_search_sound (RT:=Scenario.toy_runtime) Scenario.demo_bm25
       (VStr "dang ky nghia vu") 2 [("chunk_tier", VStr "child")]
       ltac:(vm_compute; reflexivity)) as (Hb & _ & _ & Hs).
  split; [exact Hb | exact Hs].
Defined.

(** C2 as stated fails for a filter on one of the score fields: the
    stored chunk has [score = 0.7] and passes the filter [score = 0.7],
    and the record that [search] returns for it carries the BM25 score
    1/2 in that field, so it does not satisfy the filter. *)
Lemma bm25_filter_on_score_not_kept :
  build_index (RT:=Scenario.toy_runtime)
    (init [BM25Scenario.scored_chunk] 1.5 0.75)
  = Ok BM25Scenario.scored_bm25 /\
  satisfies_filters BM25Scenario.scored_chunk [("score", VFloat 0.7)] /\
  exists r,
    search (RT:=Scenario.toy_runtime) BM25Scenario.scored_bm25
      (VStr "dang ky") 5 [("score", VFloat 0.7)] = Ok [r] /\
    (float_field r "score" == 1 # 2)%Q /\
    py_eq (dict_get r "score") (VFloat 0.7) = false /\
    ~ satisfies_filters r [("score", VFloat 0.7)].
Proof.
  split; [vm_compute; reflexivity|].
  split; [repeat constructor|].
  eexists. split; [vm_compute; reflexivity|].
  split; [vm_compute; reflexivity|].
  split; [vm_compute; reflexivity|].
  intros H. inversion H as [|kv l Hkv _]; subst.
  vm_compute in Hkv. discriminate Hkv.
Qed.

(** C6 as stated fails: no runtime lets [build_index] succeed on the
    empty chunk list. *)
Lemma build_index_empty_not_ok :
  ~ exists (RT : Runtime) (idx : SimpleBM25),
      build_index (init [] 1.5 0.75) = Ok idx.
Proof. intros (RT & idx & H). discriminate H. Qed.

(** C4.  The round trip on a fresh instance is not search-equivalent.
    The index built over the three-chunk corpus is saved and loaded into
    [SimpleBM25()], an instance constructed without chunks: [load_index]
    returns an instance that is marked built and has the three documents
    of the original in its index but no chunk; for the query "dang ky"
    with [top_k = 5] the original index returns the two child chunks and
    the loaded instance raises [IndexError]. *)
Theorem bm25_reload_without_chunks_differs :
  exists loaded,
    load_index (init [] 1.5 0.75)
      (save_index Scenario.demo_bm25 [] "bm25_index.pkl") "bm25_index.pkl"
    = Ok loaded /\
    is_built loaded = true /\
    num_docs loaded = 3 /\
    chunks loaded = [] /\
    search (RT:=Scenario.toy_runtime) loaded (VStr "dang ky") 5 []
    = Raise IndexError /\
    exists c1 c2 s1 s2,
      nth_error Scenario.demo_chunks 0 = Some c1 /\
      nth_error Scenario.demo_chunks 1 = Some c2 /\
      search (RT:=Scenario.toy_runtime) Scenario.demo_bm25 (VStr "dang ky") 5 []
      = Ok [with_scores c2 s2; with_scores c1 s1].
Proof.
  eexists. split; [vm_compute; reflexivity|].
  split; [reflexivity|]. split; [reflexivity|]. split; [reflexivity|].
  split; [vm_compute; reflexivity|].
  eexists _, _, _, _. split; [reflexivity|]. split; [reflexivity|].
  vm_compute. reflexivity.
Qed.

(** The round trip on the three-chunk corpus, reloaded into an instance
    constructed with the same chunks. *)
Lemma bm25_save_load_same_chunks_witness :
  is_built Scenario.demo_bm25 = true /\
  chunks (init Scenario.demo_chunks 1.5 0.75) = chunks Scenario.demo_bm25 /\
  exists loaded,
    load_index (init Scenario.demo_chunks 1.5 0.75)
      (save_index Scenario.demo_bm25 [] "bm25_index.pkl") "bm25_index.pkl"
    = Ok loaded /\
    forall (query : value) (top_k : nat) (filters : dict),
      search (RT:=Scenario.toy_runtime) loaded query top_k filters
      = search (RT:=Scenario.toy_runtime) Scenario.demo_bm25 query top_k
          filters.
Proof.
  split; [reflexivity|]. split; [reflexivity|].
  apply (bm25_save_load_same_chunks (RT:=Scenario.toy_runtime)); reflexivity.
Defined.

End BM25Facts.

(* ------------------------------------------------------------------ *)
(** * Properties of the semantic cache                                 *)
(* ------------------------------------------------------------------ *)

Module CacheFacts.
Import Cache PyFacts.

Section WithResult.
Variable R : Type.
Context {RT : Runtime}.

(** The three counters the consistency statement is about. *)
Lemma update_access_stats (c : SemanticCache R) now q :
  stats (_update_access c now q) = stats c.
Proof. unfold _update_access. destruct (assoc q (_cache c)); reflexivity. Qed.

Lemma remove_entry_stats (c : SemanticCache R) q :
  stats (_remove_entry c q) = stats c.
Proof. unfold _remove_entry. destruct (dict_mem q (_cache c)); reflexivity. Qed.

Lemma get_counts (c : SemanticCache R) now q emb :
  let c' := fst (get c now q emb) in
  total_queries (stats c') = S (total_queries (stats c)) /\
  ((hits (stats c') = S (hits (stats c)) /\
    misses (stats c') = misses (stats c)) \/
   (hits (stats c') = hits (stats c) /\
    misses (stats c') = S (misses (stats c)))).
Proof.
  unfold get. cbn [_cache with_stats].
  destruct (assoc q (_cache c)) as [entry|].
  - destruct (_is_expired _ now entry); cbn [fst stats with_stats].
    + rewrite remove_entry_stats. cbn. auto.
    + rewrite update_access_stats. cbn. auto.
  - destruct (fold_left _ _ _) as [[m|] best]; cbn [fst stats with_stats]; auto.
    destruct (negb (String.eqb m "") && Qle_bool _ best); cbn; auto.
    match goal with
    | |- context [assoc m ?d] => destruct (assoc m d)
    end; cbn [fst stats with_stats];
      rewrite update_access_stats; cbn; auto.
Qed.

Lemma clear_expired_loop_counts (qs : list string) (c : SemanticCache R) :
  let c' := fold_left
              (fun c q =>
                 let c := _remove_entry c q in
                 with_stats c (add_expired 1 (stats c))) qs c in
  hits (stats c') = hits (stats c) /\
  misses (stats c') = misses (stats c) /\
  total_queries (stats c') = total_queries (stats c).
Proof.
  revert c. induction qs as [|q qs IH]; intros c; cbn; auto.
  destruct (IH (with_stats (_remove_entry c q)
                  (add_expired 1 (stats (_remove_entry c q)))))
    as (H1 & H2 & H3).
  cbn in *. rewrite H1, H2, H3, remove_entry_stats. auto.
Qed.

Lemma put_counts (c : SemanticCache R) now q emb r :
  hits (stats (put c now q emb r)) = hits (stats c) /\
  misses (stats (put c now q emb r)) = misses (stats c) /\
  total_queries (stats (put c now q emb r)) = total_queries (stats c).
Proof.
  unfold put, _evict_lru.
  destruct (_ && _); [destruct (_cache c)|]; cbn [_cache with_cache with_stats];
    match goal with
    | |- context [if ?b then _ else _] => destruct b
    end; cbn; auto.
Qed.

Lemma step_keeps_invariant (c : SemanticCache R) (o : op R) :
  hits (stats c) + misses (stats c) = total_queries (stats c) ->
  hits (stats (step c o)) + misses (stats (step c o))
  = total_queries (stats (step c o)).
Proof.
  intros H. destruct o as [now q emb|now q emb r| |now|]; cbn [step]; auto.
  - destruct (get_counts c now q emb) as (Ht & [[Hh Hm]|[Hh Hm]]);
      cbn zeta in *; lia.
  - destruct (put_counts c now q emb r) as (Hh & Hm & Ht). lia.
  - destruct (clear_expired_loop_counts
                (map fst (filter (fun kv => _is_expired c now (snd kv))
                                 (_cache c))) c) as (Hh & Hm & Ht).
    cbn zeta in *. unfold clear_expired. cbn [fst]. lia.
Qed.

Lemma run_keeps_invariant (ops : list (op R)) (c : SemanticCache R) :
  hits (stats c) + misses (stats c) = total_queries (stats c) ->
  hits (stats (run c ops)) + misses (stats (run c ops))
  = total_queries (stats (run c ops)).
Proof.
  revert c. induction ops as [|o ops IH]; intros c H; cbn; auto.
  apply IH. now apply step_keeps_invariant.
Qed.

(** C9.  After any sequence of operations on a new cache,
    [hits + misses = total_queries]; a [get] adds exactly 1 to
    [total_queries] and exactly 1 to exactly one of [hits] and [misses];
    [put], [clear], [clear_expired] and [get_stats] leave
    [total_queries] as it is. *)
Theorem cache_counters_consistent :
  (forall (max_size : nat) (ttl_hours threshold : Q) (ops : list (op R)),
      let c := run (init R max_size ttl_hours threshold) ops in
      hits (stats c) + misses (stats c) = total_queries (stats c)) /\
  (forall (c : SemanticCache R) now q emb,
      let c' := fst (get c now q emb) in
      total_queries (stats c') = S (total_queries (stats c)) /\
      ((hits (stats c') = S (hits (stats c)) /\
        misses (stats c') = misses (stats c)) \/
       (hits (stats c') = hits (stats c) /\
        misses (stats c') = S (misses (stats c))))) /\
  (forall (c : SemanticCache R) (o : op R),
      match o with
      | OpGet _ _ _ => True
      | _ => total_queries (stats (step c o)) = total_queries (stats c)
      end).
Proof.
  split; [|split].
  - intros. apply run_keeps_invariant. reflexivity.
  - exact get_counts.
  - intros c [now q emb|now q emb r| |now|]; cbn [step]; auto.
    + apply put_counts.
    + unfold clear_expired. cbn [fst].
      apply (clear_expired_loop_counts
               (map fst (filter (fun kv => _is_expired c now (snd kv))
                                (_cache c))) c).
Qed.

(** ** The size bound, for a capacity of at least one entry *)

Lemma length_dict_del_mem {V} (d : list (string * V)) q :
  dict_mem q d = true -> S (List.length (dict_del d q)) = List.length d.
Proof.
  unfold dict_mem. induction d as [|[k v] d IH]; cbn; [discriminate|].
  destruct (String.eqb q k); cbn; auto.
Qed.

Lemma length_dict_del_le {V} (d : list (string * V)) q :
  List.length (dict_del d q) <= List.length d.
Proof.
  induction d as [|[k v] d IH]; cbn; auto.
  destruct (String.eqb q k); cbn; lia.
Qed.

Lemma update_access_size (c : SemanticCache R) now q :
  size (_update_access c now q) = size c /\
  max_size (_update_access c now q) = max_size c.
Proof.
  unfold _update_access, size.
  destruct (assoc q (_cache c)) eqn:E; cbn; auto.
  rewrite length_app. cbn. split; auto.
  rewrite Nat.add_1_r. apply length_dict_del_mem.
  unfold dict_mem. now rewrite E.
Qed.

Lemma remove_entry_size (c : SemanticCache R) q :
  size (_remove_entry c q) <= size c /\
  max_size (_remove_entry c q) = max_size c.
Proof.
  unfold _remove_entry, size. destruct (dict_mem q (_cache c)); cbn; auto.
  split; auto. apply length_dict_del_le.
Qed.

Lemma get_size (c : SemanticCache R) now q emb :
  size (fst (get c now q emb)) <= size c /\
  max_size (fst (get c now q emb)) = max_size c.
Proof.
  unfold get. cbn [_cache with_stats].
  destruct (assoc q (_cache c)) as [entry|].
  - destruct (_is_expired _ now entry); cbn [fst].
    + apply (remove_entry_size (with_stats c (incr_total (stats c))) q).
    + destruct (update_access_size (with_stats c (incr_total (stats c))) now q)
        as [H1 H2].
      unfold size in *. cbn in *. rewrite H1. auto.
  - destruct (fold_left _ _ _) as [[m|] best]; cbn [fst]; auto.
    destruct (negb (String.eqb m "") && Qle_bool _ best); cbn [fst]; auto.
    destruct (update_access_size (with_stats c (incr_total (stats c))) now m)
      as [H1 H2].
    match goal with
    | |- context [assoc m ?d] => destruct (assoc m d)
    end; cbn [fst]; unfold size in *; cbn in *; rewrite H1; auto.
Qed.

Lemma assoc_tail_none {V} (d : list (string * V)) kv q :
  dict_mem q (kv :: d) = false -> dict_mem q d = false.
Proof.
  unfold dict_mem. destruct kv as [k v]. cbn.
  destruct (String.eqb q k); [discriminate | auto].
Qed.

Lemma put_size (c : SemanticCache R) now q emb r :
  1 <= max_size c ->
  size c <= max_size c ->
  size (put c now q emb r) <= max_size c /\
  max_size (put c now q emb r) = max_size c.
Proof.
  intros Hpos Hle. unfold put, _evict_lru, size in *.
  destruct (dict_mem q (_cache c)) eqn:Hmem.
  - rewrite andb_false_r. rewrite Hmem. cbn. rewrite length_app. cbn.
    split; auto. rewrite Nat.add_1_r, length_dict_del_mem; auto.
  - rewrite andb_true_r.
    destruct (max_size c <=? List.length (_cache c)) eqn:Hfull.
    + apply Nat.leb_le in Hfull.
      destruct (_cache c) as [|kv rest] eqn:Hc; cbn in *; [lia|].
      apply assoc_tail_none in Hmem. rewrite Hmem. cbn.
      rewrite length_app. cbn. split; auto. lia.
    + apply Nat.leb_gt in Hfull. rewrite Hmem. cbn.
      rewrite length_app. cbn. split; auto. lia.
Qed.

Lemma clear_expired_loop_size (qs : list string) (c : SemanticCache R) :
  let c' := fold_left
              (fun c q =>
                 let c := _remove_entry c q in
                 with_stats c (add_expired 1 (stats c))) qs c in
  size c' <= size c /\ max_size c' = max_size c.
Proof.
  revert c. induction qs as [|q qs IH]; intros c; cbn; auto.
  destruct (IH (with_stats (_remove_entry c q)
                  (add_expired 1 (stats (_remove_entry c q)))))
    as (H1 & H2).
  destruct (remove_entry_size c q) as (H3 & H4).
  unfold size in *. cbn in *. split; [lia | congruence].
Qed.

Lemma step_size (c : SemanticCache R) (o : op R) :
  1 <= max_size c ->
  size c <= max_size c ->
  size (step c o) <= max_size c /\ max_size (step c o) = max_size c.
Proof.
  intros Hpos Hle.
  destruct o as [now q emb|now q emb r| |now|]; cbn [step]; auto.
  - destruct (get_size c now q emb). split; [lia | auto].
  - now apply put_size.
  - unfold clear, size. cbn. split; [lia | auto].
  - unfold clear_expired. cbn [fst].
    destruct (clear_expired_loop_size
                (map fst (filter (fun kv => _is_expired c now (snd kv))
                                 (_cache c))) c) as (H1 & H2).
    cbn zeta in *. split; [lia | auto].
Qed.

(** With room for at least one entry the capacity is never exceeded. *)
Lemma cache_size_bounded_pos (max_size' : nat) (ttl_hours threshold : Q)
  (ops : list (op R)) :
  1 <= max_size' ->
  size (run (init R max_size' ttl_hours threshold) ops) <= max_size'.
Proof.
  intros Hpos.
  assert (H : forall c : SemanticCache R,
             1 <= max_size c -> size c <= max_size c ->
             size (run c ops) <= max_size c).
  { induction ops as [|o ops IH]; intros c H1 H2; cbn; auto.
    destruct (step_size c o H1 H2) as (H3 & H4).
    rewrite <- H4. apply IH; rewrite H4; auto. }
  apply (H (init R max_size' ttl_hours threshold)); cbn; lia.
Qed.

End WithResult.

(** C3 at capacity 0: [put] on the empty cache finds nothing to evict and
    stores the entry, so the cache then holds one entry against a capacity
    of zero, and the next [get] for that query is a hit. *)
Theorem cache_capacity_zero_stores (RT : Runtime) :
  let c0 := init string 0 24 0.92 in
  let c1 := put c0 100 "q1" [1%Q] "r1" in
  max_size c1 = 0 /\
  size c1 = 1 /\
  snd (get c1 101 "q1" [1%Q]) = Some "r1" /\
  hits (stats (fst (get c1 101 "q1" [1%Q]))) = 1 /\
  misses (stats (fst (get c1 101 "q1" [1%Q]))) = 0.
Proof. cbv zeta. repeat split. Qed.

End CacheFacts.

(* ------------------------------------------------------------------ *)
(** * Properties of the reranker                                       *)
(* ------------------------------------------------------------------ *)

Module RerankerFacts.
Import Reranker PyFacts.

(** The constructor leaves weights that sum to one. *)
Lemma init_weights_sum (sw bw cw : Q) (use : bool)
  (remote : string -> string -> option Q) (r : CrossEncoderReranker) :
  init sw bw cw use remote = Ok r ->
  (semantic_weight r + bm25_weight r + cross_encoder_weight r == 1)%Q.
Proof.
  unfold init, fdiv. intros H.
  destruct (Qeq_bool (sw + bw + cw) 0) eqn:E; cbn in H; [discriminate|].
  inversion H; subst r; cbn.
  apply Qeq_bool_neq in E. field. exact E.
Qed.

Lemma clamp01_range (x : Q) : (0 <= clamp01 x <= 1)%Q.
Proof.
  unfold clamp01.
  destruct (Qltb x 0) eqn:E0.
  - destruct (Qltb 1 0) eqn:E1.
    + apply Qltb_lt in E1. discriminate E1.
    + split; [apply Qle_refl | discriminate].
  - apply Qltb_ge in E0.
    destruct (Qltb 1 x) eqn:E1.
    + split; discriminate.
    + apply Qltb_ge in E1. auto.
Qed.

(** What the first loop of [rerank] computes for one candidate. *)
Lemma score_chunk_ok (self : CrossEncoderReranker) query i c r :
  score_chunk self query (i, c) = Ok r ->
  chunk r = c /\ rank r = i + 1 /\
  (ensemble_score r ==
     semantic_weight self * semantic_score r
     + bm25_weight self * bm25_score r
     + cross_encoder_weight self * cross_encoder_score r)%Q /\
  (exists s, to_number (dict_get_or c "score" (VFloat 0)) = Ok s /\
             semantic_score r = clamp01 s) /\
  (exists s, to_number (dict_get_or c "bm25_score" (VFloat 0)) = Ok s /\
             bm25_score r = clamp01 s) /\
  (use_cross_encoder self = false -> cross_encoder_score r = 0.5%Q).
Proof.
  unfold score_chunk. intros H.
  apply bind_ok in H as (s & Hs & H).
  apply bind_ok in H as (bm & Hbm & H).
  apply bind_ok in H as (ce & Hce & H).
  inversion H; subst r; cbn.
  repeat split; eauto; try reflexivity.
  intros Hoff. rewrite Hoff in Hce. now inversion Hce.
Qed.

Lemma set_rank_enumerate (start : nat) (l : list RerankResult) :
  Forall2 (fun r r' =>
             chunk r' = chunk r /\ ensemble_score r' = ensemble_score r)
          l (map set_rank (enumerate_from start l)) /\
  map rank (map set_rank (enumerate_from start l))
  = seq start (List.length l).
Proof.
  revert start. induction l as [|r l IH]; intros start; cbn.
  - split; auto.
  - destruct (IH (S start)) as [H1 H2]. split.
    + constructor; auto.
    + now rewrite H2.
Qed.

(** [rerank] returns at most [top_k] results, sorted by descending
    ensemble score, and ranked 1, 2, ... in that order. *)
Lemma rerank_sorted (self : CrossEncoderReranker) query chunks top_k rs :
  rerank self query chunks top_k = Ok rs ->
  List.length rs <= top_k /\
  StronglySorted (fun r1 r2 => (ensemble_score r2 <= ensemble_score r1)%Q) rs /\
  map rank rs = seq 1 (List.length rs).
Proof.
  unfold rerank. intros H.
  destruct chunks as [|c chunks].
  { inversion H; subst. cbn. repeat split; auto with arith. constructor. }
  apply bind_ok in H as (scored & _ & H). inversion H; subst rs; clear H.
  destruct (set_rank_enumerate 1 (sort_desc ensemble_score scored))
    as [H2 Hr].
  split; [rewrite length_firstn; apply Nat.le_min_l|].
  split.
  - apply StronglySorted_firstn.
    eapply StronglySorted_Forall2; [| exact H2 | apply sort_desc_sorted].
    intros a b a' b' [_ Ha] [_ Hb] Hle. cbn beta in *.
    now rewrite Ha, Hb.
  - rewrite <- firstn_map, Hr, firstn_seq_min, length_firstn, !length_map.
    now rewrite length_enumerate_from.
Qed.

(** The [original_rank] written by [rerank_simple] is the position in the
    returned list plus one. *)
Lemma rerank_simple_rank (self : CrossEncoderReranker) query chunks top_k out :
  rerank_simple self query chunks top_k = Ok out ->
  map (fun d => dict_get d "original_rank") out
  = map (fun i => VInt (Z.of_nat i)) (seq 1 (List.length out)).
Proof.
  unfold rerank_simple. intros H.
  apply bind_ok in H as (rs & Hrs & H). inversion H; subst out; clear H.
  apply rerank_sorted in Hrs as (_ & _ & Hr).
  rewrite map_map, length_map, <- Hr, map_map.
  apply map_ext. intros r. apply dict_get_set_same.
Qed.

(** C8 on two candidates with the weights of the pipeline and the
    cross-encoder off.  Candidate [b] stands second in the input and scores
    higher: it is returned first with [original_rank = 1], its rank after
    sorting, where its input position plus 1 is 2; [a], first in the input,
    gets [original_rank = 2].  The ensemble scores are
    [0.55 * 0.9 + 0.35 * 0 + 0.10 * 0.5] and [0.55 * 0.2 + 0.10 * 0.5]. *)
Theorem rerank_simple_original_rank_overwritten :
  exists r,
    init 0.55 0.35 0.10 false (fun _ _ => None) = Ok r /\
    exists b' a',
      rerank_simple r "q" [Scenario.chunk_a; Scenario.chunk_b] 5
      = Ok [b'; a'] /\
      dict_get b' "chunk_id" = VStr "b" /\
      dict_get b' "original_rank" = VInt 1 /\
      (Props.float_field b' "final_score" == 0.545)%Q /\
      dict_get a' "chunk_id" = VStr "a" /\
      dict_get a' "original_rank" = VInt 2 /\
      (Props.float_field a' "final_score" == 0.16)%Q.
Proof.
  eexists. split; [vm_compute; reflexivity|].
  eexists _, _. split; [vm_compute; reflexivity|].
  repeat split.
Qed.

End RerankerFacts.

(* ------------------------------------------------------------------ *)
(** * Properties of the content truncation                             *)
(* ------------------------------------------------------------------ *)

Module TextFacts.
Import Text Props.

Lemma split_from_words (s cur : text) :
  Forall (fun c => isspace c = false) cur ->
  Forall word (split_from cur s).
Proof.
  revert cur. induction s as [|c s IH]; intros cur Hcur; cbn.
  - destruct cur as [|x cur]; constructor; auto.
    split.
    + intros E. apply (f_equal (@List.length N)) in E.
      rewrite length_rev in E. discriminate.
    + apply Forall_rev. exact Hcur.
  - destruct (isspace c) eqn:Ec.
    + destruct cur as [|x cur]; [now apply IH|].
      constructor; [|now apply IH].
      split.
      * intros E. apply (f_equal (@List.length N)) in E.
        rewrite length_rev in E. discriminate.
      * apply Forall_rev. exact Hcur.
    + apply IH. constructor; auto.
Qed.

Lemma split_words (s : text) : Forall word (split s).
Proof. apply split_from_words. constructor. Qed.

(** Reading a word moves it, reversed, into the current run. *)
Lemma split_from_word (w rest cur : text) :
  Forall (fun c => isspace c = false) w ->
  split_from cur (w ++ rest) = split_from (rev w ++ cur) rest.
Proof.
  revert cur. induction w as [|c w IH]; intros cur Hw; cbn; auto.
  inversion Hw as [|? ? Hc Hw']; subst. rewrite Hc.
  rewrite IH; auto. now rewrite <- app_assoc.
Qed.

Lemma split_word_space (w tail : text) (sp : N) :
  word w -> isspace sp = true ->
  split_from [] (w ++ sp :: tail) = w :: split_from [] tail.
Proof.
  intros [Hne Hw] Hsp. rewrite split_from_word by exact Hw.
  rewrite app_nil_r. cbn [split_from]. rewrite Hsp.
  destruct (rev w) as [|x r] eqn:Er.
  - apply (f_equal (@rev N)) in Er. rewrite rev_involutive in Er.
    contradiction.
  - now rewrite <- Er, rev_involutive.
Qed.

Lemma split_word_end (w : text) : word w -> split_from [] w = [w].
Proof.
  intros [Hne Hw]. rewrite <- (app_nil_r w) at 1.
  rewrite split_from_word by exact Hw. rewrite app_nil_r. cbn [split_from].
  destruct (rev w) as [|x r] eqn:Er.
  - apply (f_equal (@rev N)) in Er. rewrite rev_involutive in Er.
    contradiction.
  - now rewrite <- Er, rev_involutive.
Qed.

Lemma join_cons2 (w w' : text) (ws : list text) :
  join (w :: w' :: ws) = w ++ 32%N :: join (w' :: ws).
Proof. reflexivity. Qed.

(** The words of [' '.join(ws)] followed by white space and more text. *)
Lemma split_join_space (ws : list text) (sp : N) (rest : text) :
  Forall word ws -> isspace sp = true ->
  split (join ws ++ sp :: rest) = ws ++ split rest.
Proof.
  unfold split. intros Hws Hsp.
  induction Hws as [|w ws Hw Hws IH].
  - cbn. now rewrite Hsp.
  - destruct ws as [|w' ws].
    + cbn [join app]. now apply split_word_space.
    + rewrite join_cons2, <- app_assoc, <- app_comm_cons.
      rewrite split_word_space by auto. now rewrite IH.
Qed.

(** The words of [' '.join(ws)] alone. *)
Lemma split_join (ws : list text) : Forall word ws -> split (join ws) = ws.
Proof.
  unfold split. intros Hws.
  induction Hws as [|w ws Hw Hws IH]; auto.
  destruct ws as [|w' ws].
  - cbn [join]. now apply split_word_end.
  - rewrite join_cons2, split_word_space by auto. now rewrite IH.
Qed.

(** Text that ends in white space closes its last word. *)
Lemma split_from_app_space (s t cur : text) (sp : N) :
  isspace sp = true ->
  split_from cur (s ++ sp :: t) = split_from cur (s ++ [sp]) ++ split t.
Proof.
  intros Hsp. unfold split. revert cur.
  induction s as [|c s IH]; intros cur; cbn.
  - rewrite Hsp. destruct cur; reflexivity.
  - destruct (isspace c).
    + destruct cur; rewrite IH; reflexivity.
    + apply IH.
Qed.

Lemma truncate_general (content : text) (m : nat) :
  _truncate_chunk_if_needed content m =
  if (m * 4 <? List.length content) && (m <? List.length (split content))
  then join (firstn (m / 2) (split content)) ++ ELISION
       ++ join (last_n (m / 2) (split content))
  else content.
Proof.
  unfold _truncate_chunk_if_needed. rewrite Nat.leb_antisym.
  destruct (m * 4 <? List.length content); cbn [negb andb]; reflexivity.
Qed.

(** The words of a shortened content: the kept words around the nine
    words of the marker. *)
Lemma split_around_elision (front back : list text) :
  Forall word front -> Forall word back ->
  split (join front ++ ELISION ++ join back)
  = front ++ split ELISION ++ back.
Proof.
  intros Hf Hb.
  assert (HE : ELISION = 10%N :: removelast (tl ELISION) ++ [10%N])
    by reflexivity.
  assert (HS : split_from [] (removelast (tl ELISION) ++ [10%N])
               = split ELISION) by (vm_compute; reflexivity).
  rewrite HE at 1. rewrite <- app_comm_cons, <- app_assoc.
  rewrite split_join_space by (auto; reflexivity).
  f_equal. unfold split at 1. cbn [app].
  rewrite split_from_app_space by reflexivity.
  rewrite split_join by exact Hb.
  now rewrite HS.
Qed.

Lemma last_n_succ {A} (n : nat) (l : list A) :
  last_n (S n) l = skipn (List.length l - S n) l.
Proof. reflexivity. Qed.

Lemma Forall_skipn {A} (P : A -> Prop) (n : nat) (l : list A) :
  Forall P l -> Forall P (skipn n l).
Proof.
  intros H. rewrite <- (firstn_skipn n l) in H.
  now apply Forall_app in H.
Qed.

Lemma Forall_firstn {A} (P : A -> Prop) (n : nat) (l : list A) :
  Forall P l -> Forall P (firstn n l).
Proof.
  intros H. rewrite <- (firstn_skipn n l) in H.
  now apply Forall_app in H.
Qed.

(** C7, as amended.  A content is shortened exactly when it has more than
    4800 characters and more than 1200 words.  The shortened content is
    the first 600 words joined by single spaces, the marker, and the last
    600 words joined by single spaces; read back word by word it is the
    first 600 words, the nine words of the marker and the last 600 words.
    Any other content is returned as it is. *)
Theorem truncate_characterised (content : text) :
  let words := split content in
  let shortened :=
    (4800 <? List.length content) && (1200 <? List.length words) in
  truncate content =
    (if shortened
     then join (firstn 600 words) ++ ELISION
          ++ join (skipn (List.length words - 600) words)
     else content) /\
  split (truncate content) =
    (if shortened
     then firstn 600 words ++ split ELISION
          ++ skipn (List.length words - 600) words
     else words) /\
  (if shortened
   then List.length (firstn 600 words) = 600 /\
        List.length (skipn (List.length words - 600) words) = 600 /\
        List.length (split ELISION) = 9
   else True).
Proof.
  intros words shortened.
  assert (Ht : truncate content =
               if shortened
               then join (firstn 600 words) ++ ELISION
                    ++ join (skipn (List.length words - 600) words)
               else content).
  { unfold truncate. rewrite truncate_general.
    change (1200 * 4) with 4800. change (1200 / 2) with 600.
    change 600 with (S 599) at 2. rewrite last_n_succ. reflexivity. }
  split; [exact Ht|].
  rewrite Ht. subst shortened.
  destruct (4800 <? List.length content); cbn [andb]; [|auto].
  destruct (1200 <? List.length words) eqn:Hw; [|auto].
  apply Nat.ltb_lt in Hw.
  split.
  - apply split_around_elision.
    + apply Forall_firstn, split_words.
    + apply Forall_skipn, split_words.
  - rewrite length_firstn, length_skipn. repeat split; lia.
Qed.

(** C7 as stated fails on 1201 one-letter words: the content has more than
    1200 words and only 2401 characters, and it is returned unshortened. *)
Lemma truncate_keeps_many_short_words :
  List.length (split Scenario.many_short_words) = 1201 /\
  List.length Scenario.many_short_words = 2401 /\
  truncate Scenario.many_short_words = Scenario.many_short_words.
Proof. vm_compute. repeat split. Qed.

(** A content of 1300 four-letter words is shortened to 1209 words. *)
Example truncate_many_long_words :
  List.length (split Scenario.many_long_words) = 1300 /\
  List.length (split (truncate Scenario.many_long_words)) = 1209.
Proof. vm_compute. split; reflexivity. Qed.

End TextFacts.

(* ------------------------------------------------------------------ *)
(** * Properties of the exact-code lookup                              *)
(* ------------------------------------------------------------------ *)

Module VectorStoreFacts.
Import VectorStore Props PyFacts.

Lemma str_ltb_lt (s t : string) :
  str_ltb s t = true <-> String_as_OT.lt s t.
Proof.
  unfold str_ltb, String_as_OT.lt.
  destruct (String_as_OT.compare s t); split; congruence.
Qed.

Lemma str_ltb_asym (s t : string) :
  str_ltb s t = true -> str_ltb t s = false.
Proof.
  intros H. apply str_ltb_lt in H.
  destruct (str_ltb t s) eqn:E; auto.
  apply str_ltb_lt in E. exfalso.
  eapply (StrictOrder_Irreflexive s). etransitivity; eauto.
Qed.

Lemma str_ltb_ge_trans (a b c : string) :
  str_ltb b a = false -> str_ltb c b = false -> str_ltb c a = false.
Proof.
  intros Hab Hbc.
  destruct (str_ltb c a) eqn:Hca; auto. exfalso.
  apply str_ltb_lt in Hca.
  destruct (String_as_OT.compare_spec b a) as [E|Hlt|Hgt].
  - change (b = a) in E. subst b. apply str_ltb_lt in Hca. congruence.
  - apply str_ltb_lt in Hlt. congruence.
  - assert (Hcb : String_as_OT.lt c b) by (etransitivity; eauto).
    apply str_ltb_lt in Hcb. congruence.
Qed.

Lemma key_ltb_asym (k1 k2 : bool * string) :
  key_ltb k1 k2 = true -> key_ltb k2 k1 = false.
Proof.
  destruct k1 as [[|] s], k2 as [[|] t]; cbn; auto using str_ltb_asym.
Qed.

Lemma key_ltb_ge_trans (a b c : bool * string) :
  key_ltb b a = false -> key_ltb c b = false -> key_ltb c a = false.
Proof.
  destruct a as [[|] s], b as [[|] t], c as [[|] u]; cbn;
    eauto using str_ltb_ge_trans; discriminate.
Qed.

Lemma sorted_by_key_parent_first (x y : dict) :
  key_ltb (sort_key y) (sort_key x) = false -> parent_first_then_id x y.
Proof.
  unfold parent_first_then_id, sort_key, Pipeline.tier_is.
  cbn [fst snd]. intros H. split.
  - intros Hy. rewrite Hy in H.
    unfold key_ltb in H. cbn [fst snd negb] in H.
    destruct (py_eq (dict_get x "chunk_tier") (VStr "parent"));
      [reflexivity | discriminate].
  - intros Ht. rewrite Ht in H. unfold key_ltb in H. cbn [fst snd] in H.
    destruct (negb (py_eq (dict_get y "chunk_tier") (VStr "parent")));
      exact H.
Qed.

Lemma scroll_satisfies (client : QdrantClient) must limit cond :
  In cond must ->
  Forall (fun p => satisfies p cond = true) (scroll client must limit).
Proof.
  intros Hin. unfold scroll. rewrite Forall_forall. intros p Hp.
  apply In_firstn in Hp. apply filter_In in Hp as [_ Hp].
  rewrite forallb_forall in Hp. auto.
Qed.

Lemma scroll_length (client : QdrantClient) must limit :
  List.length (scroll client must limit) <= limit.
Proof. unfold scroll. rewrite length_firstn. apply Nat.le_min_l. Qed.

Lemma satisfies_code (p : Point) (code : string) :
  satisfies p {| key := "thu_tuc_id"; match_ := MatchValue (VStr code) |}
  = true ->
  thu_tuc_id p = code.
Proof. cbn. apply String.eqb_eq. Qed.

(** The points gathered by [search_by_code] before formatting. *)
Lemma search_by_code_spec (client : QdrantClient) (code : string)
  (chunk_type_filter : value) :
  exists pts,
    search_by_code client code true true chunk_type_filter
    = stable_sort (fun y x => key_ltb (sort_key y) (sort_key x))
        (map (fun p => format_point p 1) pts) /\
    Forall (fun p => thu_tuc_id p = code) pts /\
    List.length pts <= 200.
Proof.
  unfold search_by_code. cbn [negb andb].
  set (cond := {| key := "thu_tuc_id"; match_ := MatchValue (VStr code) |}).
  destruct (truthy chunk_type_filter); cbn [negb andb];
    eexists; (split; [reflexivity|]); split.
  - apply Forall_app. split;
      (eapply Forall_impl; [intros p; apply satisfies_code|]);
      apply scroll_satisfies; cbn; auto.
  - rewrite length_app.
    pose proof (scroll_length client
                  [cond; {| key := "chunk_tier";
                            match_ := MatchValue (VStr "parent") |}] 100).
    match goal with
    | |- _ + List.length (scroll client ?m 100) <= _ =>
        pose proof (scroll_length client m 100)
    end.
    lia.
  - eapply Forall_impl; [intros p; apply satisfies_code|].
    apply scroll_satisfies; cbn; auto.
  - pose proof (scroll_length client [cond] 100). lia.
Qed.

(** Every chunk found for a code carries that code, parents stand first
    and each tier is in ascending [chunk_id] order; there are at most 200
    of them. *)
Lemma search_by_code_sound (client : QdrantClient) (code : string)
  (chunk_type_filter : value) :
  let rs := search_by_code client code true true chunk_type_filter in
  Forall (fun r => dict_get r "mã_thủ_tục" = VStr code) rs /\
  StronglySorted parent_first_then_id rs /\
  List.length rs <= 200.
Proof.
  destruct (search_by_code_spec client code chunk_type_filter)
    as (pts & -> & Hcode & Hlen).
  cbv zeta. split; [|split].
  - eapply Permutation_Forall.
    + symmetry. apply stable_sort_perm.
    + rewrite Forall_map. eapply Forall_impl; [|exact Hcode].
      intros p Hp. cbn. now rewrite Hp.
  - eapply StronglySorted_weaken; [|apply stable_sort_sorted].
    + intros x y. apply sorted_by_key_parent_first.
    + intros x y. apply key_ltb_asym.
    + intros a b c. apply key_ltb_ge_trans.
  - erewrite Permutation_length by apply stable_sort_perm.
    now rewrite length_map.
Qed.

End VectorStoreFacts.

(* ------------------------------------------------------------------ *)
(** * Properties of the retrieval pipeline                             *)
(* ------------------------------------------------------------------ *)

Module PipelineFacts.
Import ContextSettings VectorStore Pipeline Props PyFacts.

(** The size figures of every record of the table. *)
Lemma table_sizes :
  Forall (fun c =>
            exists chunks max_descendants max_siblings : Z,
              config_int c "chunks" = Ok chunks /\
              config_int c "max_descendants" = Ok max_descendants /\
              config_int c "max_siblings" = Ok max_siblings /\
              (1 <= chunks)%Z /\
              (chunks <= chunks * max_descendants + max_siblings)%Z)
         (map snd INTENT_CONTEXT_MAPPING).
Proof.
  cbn [map snd INTENT_CONTEXT_MAPPING].
  repeat constructor;
    (eexists _, _, _; repeat split; try reflexivity; cbn; lia).
Qed.

Lemma context_config_sizes (intent : string) :
  exists cfg chunks max_descendants max_siblings,
    get_context_config intent = Ok cfg /\
    config_int cfg "chunks" = Ok chunks /\
    config_int cfg "max_descendants" = Ok max_descendants /\
    config_int cfg "max_siblings" = Ok max_siblings /\
    (1 <= chunks)%Z /\
    (chunks <= chunks * max_descendants + max_siblings)%Z.
Proof.
  destruct (ContextSettingsFacts.get_context_config_cases intent)
    as (cfg & Hcfg & Hin).
  pose proof table_sizes as HT. rewrite Forall_forall in HT.
  destruct (HT cfg Hin) as (ch & md & ms & H).
  exists cfg, ch, md, ms. tauto.
Qed.

Section WithRuntime.
Context {RT : Runtime}.

(** After a miss at Stage 0 the call continues with Stage 1, on a
    pipeline with the same collaborators. *)
Lemma retrieve_after_miss (self : HierarchicalRetrievalPipeline)
  (now now' : Q) (question : string) (kp kc kf : nat) :
  cache_miss self now question ->
  exists self1 emb,
    retrieve self now now' question kp kc kf
    = retrieve_uncached self1 now' question emb kp kc /\
    collab self1 = collab self.
Proof.
  unfold cache_miss, retrieve. intros Hmiss.
  destruct (cache self) as [c|].
  - destruct (Cache.get c now question (encode (collab self) question))
      as [c' cached]. cbn in Hmiss. subst cached.
    eexists _, _. split; reflexivity.
  - eexists _, _. split; reflexivity.
Qed.

Lemma exact_match_routing_collab (self self1 : HierarchicalRetrievalPipeline)
  (qi : QueryInfo) :
  collab self1 = collab self ->
  exact_match_routing self1 qi = exact_match_routing self qi.
Proof.
  intros H. unfold exact_match_routing, exact_lookup. now rewrite H.
Qed.

Lemma rerank_fusion_length (self : HierarchicalRetrievalPipeline)
  (query : string) (documents : list dict) (top_k : nat) (out : list dict) :
  _rerank_with_score_fusion self query documents top_k = Ok out ->
  List.length out <= top_k.
Proof.
  unfold _rerank_with_score_fusion. intros H.
  destruct documents as [|d documents].
  { inversion H; subst. cbn. lia. }
  destruct (reranker self) as [r|].
  - unfold Reranker.rerank_simple in H.
    apply bind_ok in H as (rs & Hrs & H). inversion H; subst out.
    rewrite length_map.
    now apply RerankerFacts.rerank_sorted in Hrs as (Hlen & _).
  - apply bind_ok in H as (scored & _ & H). inversion H; subst out.
    rewrite length_firstn. apply Nat.le_min_l.
Qed.

Lemma hybrid_search_length (self : HierarchicalRetrievalPipeline)
  (question : string) (qi : QueryInfo) (cfg : dict) (kp kc kf : nat)
  (r : RetrievalResult) :
  hybrid_search self question qi cfg kp kc kf = Ok r ->
  List.length (retrieved_chunks r) <= kf.
Proof.
  unfold hybrid_search. intros H.
  destruct (_hierarchical_retrieve self qi kp kc) as [parents children].
  apply bind_ok in H as (bm & _ & H).
  apply bind_ok in H as (fused & _ & H).
  apply bind_ok in H as (reranked & Hrr & H).
  apply bind_ok in H as (cc & _ & H).
  inversion H; subst r; cbn.
  eapply rerank_fusion_length; eauto.
Qed.

Lemma exact_match_routing_some (self : HierarchicalRetrievalPipeline)
  (qi : QueryInfo) (code : string) (rs : list dict) :
  exact_match_routing self qi = Some (code, rs) ->
  exact_code qi = Some code /\ code <> "" /\
  rs = exact_lookup self qi code /\ rs <> [].
Proof.
  unfold exact_match_routing. intros H.
  destruct (exact_code qi) as [c|]; [|discriminate].
  destruct (String.eqb c "") eqn:E; [discriminate|].
  apply String.eqb_neq in E.
  destruct (exact_lookup self qi c) as [|x l] eqn:El; [discriminate|].
  inversion H; subst. rewrite El. repeat split; auto. discriminate.
Qed.

(** C1.  When Stage 0 does not answer, the enhancer detects a code, the
    exact-code lookup finds chunks and the context assembly succeeds on
    them, [retrieve] returns a result with confidence 1 and
    [search_type = "exact_code_match"] whose chunks are those of the
    lookup: each carries the detected code, parent-tier chunks stand
    first and each tier is in ascending [chunk_id] order. *)
Theorem exact_code_retrieve (self : HierarchicalRetrievalPipeline)
  (now now' : Q) (question code : string) (kp kc kf : nat) :
  let qi := enhance_query (collab self) question in
  let found := exact_lookup self qi code in
  cache_miss self now question ->
  exact_code qi = Some code ->
  code <> "" ->
  found <> [] ->
  (forall cfg,
      get_context_config (intent qi) = Ok cfg ->
      is_ok (assemble (collab self)
               (filter (tier_is "parent") found)
               (filter (tier_is "child") found) cfg) = true) ->
  exists r self',
    retrieve self now now' question kp kc kf = Ok (r, self') /\
    confidence r = 1%Q /\
    dict_get (metadata r) "search_type" = VStr "exact_code_match" /\
    retrieved_chunks r = found /\
    Forall (fun c => dict_get c "mã_thủ_tục" = VStr code)
           (retrieved_chunks r) /\
    StronglySorted parent_first_then_id (retrieved_chunks r).
Proof.
  intros qi found Hmiss Hcode Hne Hfound Hasm.
  destruct (retrieve_after_miss self now now' question kp kc kf Hmiss)
    as (self1 & emb & -> & Hcollab).
  unfold retrieve_uncached. rewrite Hcollab. fold qi.
  destruct (context_config_sizes (intent qi))
    as (cfg & ch & md & ms & Hcfg & Hch & _).
  rewrite Hcfg. cbn [bind]. rewrite Hch. cbn [bind].
  rewrite (exact_match_routing_collab self self1 qi Hcollab).
  unfold exact_match_routing. rewrite Hcode.
  apply String.eqb_neq in Hne. rewrite Hne.
  fold found. destruct found as [|x l] eqn:Ef; [contradiction|].
  rewrite <- Ef in *.
  unfold exact_match_result. rewrite Hcollab.
  specialize (Hasm cfg Hcfg).
  destruct (assemble (collab self) _ _ cfg) as [cc|e]; [|discriminate].
  cbn [bind]. eexists _, _. split; [reflexivity|].
  cbn [confidence metadata retrieved_chunks].
  destruct (VectorStoreFacts.search_by_code_sound (client (collab self)) code
              (dict_get (filters qi) "chunk_type")) as (H1 & H2 & _).
  repeat split; auto.
Qed.

(** C5, as amended.  When Stage 0 does not answer and [retrieve]
    returns: on the hybrid path the returned list has at most
    [context_config.chunks] elements, which is within
    [chunks * max_descendants + max_siblings]; on the exact-code path the
    returned list is the whole result of the exact-code lookup, at most
    200 chunks whatever the configuration. *)
Theorem retrieved_chunks_size (self self' : HierarchicalRetrievalPipeline)
  (now now' : Q) (question : string) (kp kc kf : nat)
  (r : RetrievalResult) :
  let qi := enhance_query (collab self) question in
  cache_miss self now question ->
  retrieve self now now' question kp kc kf = Ok (r, self') ->
  exists cfg chunks max_descendants max_siblings,
    get_context_config (intent qi) = Ok cfg /\
    config_int cfg "chunks" = Ok chunks /\
    config_int cfg "max_descendants" = Ok max_descendants /\
    config_int cfg "max_siblings" = Ok max_siblings /\
    match exact_match_routing self qi with
    | Some (code, exact_results) =>
        retrieved_chunks r = exact_results /\
        List.length exact_results <= 200
    | None =>
        (Z.of_nat (List.length (retrieved_chunks r)) <= chunks)%Z /\
        (chunks <= chunks * max_descendants + max_siblings)%Z
    end.
Proof.
  intros qi Hmiss H.
  destruct (retrieve_after_miss self now now' question kp kc kf Hmiss)
    as (self1 & emb & Heq & Hcollab).
  rewrite Heq in H. clear Heq.
  unfold retrieve_uncached in H. rewrite Hcollab in H. fold qi in H.
  destruct (context_config_sizes (intent qi))
    as (cfg & ch & md & ms & Hcfg & Hch & Hmd & Hms & Hpos & Hbound).
  exists cfg, ch, md, ms. repeat (split; [assumption|]).
  rewrite Hcfg in H. cbn [bind] in H. rewrite Hch in H. cbn [bind] in H.
  rewrite (exact_match_routing_collab self self1 qi Hcollab) in H.
  destruct (exact_match_routing self qi) as [[code rs]|] eqn:Er.
  - apply bind_ok in H as (r0 & Hr0 & H). inversion H; subst r0.
    unfold exact_match_result in Hr0.
    apply bind_ok in Hr0 as (cc & _ & Hr0). inversion Hr0; subst r; cbn.
    split; [reflexivity|].
    apply exact_match_routing_some in Er as (_ & _ & -> & _).
    apply VectorStoreFacts.search_by_code_sound.
  - apply bind_ok in H as (r0 & Hr0 & H). inversion H; subst r0.
    apply hybrid_search_length in Hr0. split; [lia | exact Hbound].
Qed.

End WithRuntime.

(** C1 on the nine-chunk store: the eight chunks of procedure 1.000001
    come back, the parent first. *)
Lemma exact_code_retrieve_witness :
  let self := Scenario.demo_pipeline in
  let question := "Lệ phí của thủ tục 1.000001 là bao nhiêu?" in
  let qi := enhance_query (collab self) question in
  cache_miss (RT:=Scenario.toy_runtime) self 0 question /\
  exact_code qi = Some "1.000001" /\
  "1.000001" <> "" /\
  exact_lookup self qi "1.000001" <> [] /\
  exists r self',
    retrieve (RT:=Scenario.toy_runtime) self 0 1 question 5 100 5
    = Ok (r, self') /\
    confidence r = 1%Q /\
    dict_get (metadata r) "search_type" = VStr "exact_code_match" /\
    List.length (retrieved_chunks r) = 8 /\
    Forall (fun c => dict_get c "mã_thủ_tục" = VStr "1.000001")
           (retrieved_chunks r) /\
    StronglySorted parent_first_then_id (retrieved_chunks r).
Proof.
  cbv zeta.
  assert (Hmiss : cache_miss (RT:=Scenario.toy_runtime)
                    Scenario.demo_pipeline 0
                    "Lệ phí của thủ tục 1.000001 là bao nhiêu?")
    by (vm_compute; reflexivity).
  assert (Hne : "1.000001" <> "") by discriminate.
  assert (Hfound :
            exact_lookup Scenario.demo_pipeline
              (enhance_query (collab Scenario.demo_pipeline)
                 "Lệ phí của thủ tục 1.000001 là bao nhiêu?") "1.000001"
            <> []) by (vm_compute; discriminate).
  repeat (split; [assumption || reflexivity|]).
  destruct (@exact_code_retrieve Scenario.toy_runtime
              Scenario.demo_pipeline 0 1
              "Lệ phí của thủ tục 1.000001 là bao nhiêu?" "1.000001"
              5 100 5 Hmiss eq_refl Hne Hfound
              (fun cfg _ => eq_refl))
    as (r & self' & Hr & Hc & Hs & Hchunks & Hall & Hsorted).
  exists r, self'. repeat (split; [assumption|]).
  split; [|split; assumption].
  rewrite Hchunks. vm_compute. reflexivity.
Defined.

(** C5 as stated fails on the exact-code path: for the intent [fees] the
    configuration allows [2 * 3 + 1 = 7] chunks, and the eight chunks of
    procedure 1.000001 are all returned. *)
Lemma exact_path_exceeds_config_bound :
  let question := "Lệ phí của thủ tục 1.000001 là bao nhiêu?" in
  cache_miss (RT:=Scenario.toy_runtime) Scenario.demo_pipeline 0 question /\
  exists r self',
    retrieve (RT:=Scenario.toy_runtime) Scenario.demo_pipeline 0 1
      question 5 100 5 = Ok (r, self') /\
    result_intent r = "fees" /\
    (exists cfg,
        get_context_config "fees" = Ok cfg /\
        config_int cfg "chunks" = Ok 2%Z /\
        config_int cfg "max_descendants" = Ok 3%Z /\
        config_int cfg "max_siblings" = Ok 1%Z) /\
    List.length (retrieved_chunks r) = 8 /\
    ~ (8 <= 2 * 3 + 1).
Proof.
  cbv zeta. split; [vm_compute; reflexivity|].
  eexists _, _. split; [vm_compute; reflexivity|].
  split; [reflexivity|].
  split; [eexists; repeat split|].
  split; [reflexivity | lia].
Qed.

(** C5 on the hybrid path: three chunks are fused and the two best are
    returned, for the intent [process], whose configuration has
    [chunks = 2]. *)
Lemma retrieved_chunks_size_witness :
  let self := Scenario.hybrid_pipeline in
  let question := "dang ky nghia vu quan su lam the nao" in
  cache_miss (RT:=Scenario.toy_runtime) self 0 question /\
  exists r self',
    retrieve (RT:=Scenario.toy_runtime) self 0 1 question 5 100 5
    = Ok (r, self') /\
    exists cfg chunks max_descendants max_siblings,
      get_context_config "process" = Ok cfg /\
      config_int cfg "chunks" = Ok chunks /\
      config_int cfg "max_descendants" = Ok max_descendants /\
      config_int cfg "max_siblings" = Ok max_siblings /\
      (Z.of_nat (List.length (retrieved_chunks r)) <= chunks)%Z /\
      (chunks <= chunks * max_descendants + max_siblings)%Z.
Proof.
  cbv zeta.
  assert (Hmiss : cache_miss (RT:=Scenario.toy_runtime)
                    Scenario.hybrid_pipeline 0
                    "dang ky nghia vu quan su lam the nao")
    by (vm_compute; reflexivity).
  split; [exact Hmiss|].
  assert (Hok : is_ok (retrieve (RT:=Scenario.toy_runtime)
                         Scenario.hybrid_pipeline 0 1
                         "dang ky nghia vu quan su lam the nao" 5 100 5)
                = true)
    by (vm_compute; reflexivity).
  destruct (retrieve (RT:=Scenario.toy_runtime) Scenario.hybrid_pipeline 0 1
              "dang ky nghia vu quan su lam the nao" 5 100 5)
    as [[r self']|e] eqn:E; [|discriminate Hok].
  exists r, self'. split; [reflexivity|].
  exact (@retrieved_chunks_size Scenario.toy_runtime
           Scenario.hybrid_pipeline self' 0 1
           "dang ky nghia vu quan su lam the nao" 5 100 5 r Hmiss E).
Defined.

(** The hybrid scenario fuses three chunks and returns two. *)
Example hybrid_returns_two_chunks :
  match retrieve (RT:=Scenario.toy_runtime) Scenario.hybrid_pipeline 0 1
          "dang ky nghia vu quan su lam the nao" 5 100 5 with
  | Ok (r, _) => List.length (retrieved_chunks r) = 2
  | Raise _ => False
  end.
Proof. vm_compute. reflexivity. Qed.

End PipelineFacts.

(* ------------------------------------------------------------------ *)
(** * Further facts on dictionaries and numbers                        *)
(* ------------------------------------------------------------------ *)

From Stdlib Require Import Lqa.

Module PyMore.
Import PyFacts.

Lemma assoc_none_not_in {V} (d : list (string * V)) q :
  assoc q d = None <-> ~ In q (map fst d).
Proof.
  induction d as [|[k v] d IH]; cbn.
  - tauto.
  - destruct (String.eqb q k) eqn:E.
    + apply String.eqb_eq in E. subst. split; [discriminate | tauto].
    + apply String.eqb_neq in E. rewrite IH. split.
      * intros H [H'|H']; [congruence | auto].
      * tauto.
Qed.

Lemma assoc_in_nodup {V} (d : list (string * V)) q v :
  NoDup (map fst d) -> In (q, v) d -> assoc q d = Some v.
Proof.
  induction d as [|[k w] d IH]; cbn; intros Hnd Hin; [tauto|].
  inversion Hnd as [|? ? Hk Hnd']; subst.
  destruct Hin as [Heq|Hin].
  - inversion Heq; subst. now rewrite String.eqb_refl.
  - destruct (String.eqb q k) eqn:E.
    + apply String.eqb_eq in E. subst. exfalso. apply Hk.
      change k with (fst (k, v)). now apply in_map.
    + auto.
Qed.

Lemma nodup_snoc (l : list string) q :
  NoDup l -> ~ In q l -> NoDup (l ++ [q]).
Proof.
  intros Hl Hq. apply NoDup_app; auto.
  - repeat constructor. tauto.
  - intros x Hx [<-|[]]. contradiction.
Qed.

Lemma assoc_some_in {V} (d : list (string * V)) q v :
  assoc q d = Some v -> In (q, v) d.
Proof.
  induction d as [|[k w] d IH]; cbn; [discriminate|].
  destruct (String.eqb q k) eqn:E.
  - apply String.eqb_eq in E. intros H. inversion H; subst. auto.
  - auto.
Qed.

Lemma Qnat_le (m n : nat) : m <= n -> (BM25.Qnat m <= BM25.Qnat n)%Q.
Proof.
  intros H. unfold BM25.Qnat. rewrite <- Zle_Qle. lia.
Qed.

Lemma Qnat_pos (n : nat) : 0 < n -> (0 < BM25.Qnat n)%Q.
Proof.
  intros H. unfold BM25.Qnat. change 0%Q with (inject_Z 0).
  rewrite <- Zlt_Qlt. lia.
Qed.

Lemma Forall2_In_l {A B} (P : A -> B -> Prop) l l' a :
  Forall2 P l l' -> In a l -> exists b, In b l' /\ P a b.
Proof.
  induction 1 as [|x y l l' Hxy _ IH]; cbn; [tauto|].
  intros [<-|Hin]; [eauto|].
  destruct (IH Hin) as (b0 & Hb0 & HP). eauto.
Qed.

Lemma Forall2_In_r {A B} (P : A -> B -> Prop) l l' b :
  Forall2 P l l' -> In b l' -> exists a, In a l /\ P a b.
Proof.
  induction 1 as [|x y l l' Hxy _ IH]; cbn; [tauto|].
  intros [<-|Hin]; [eauto|].
  destruct (IH Hin) as (a0 & Ha0 & HP). eauto.
Qed.

Lemma StronglySorted_app_inv {A} (P : A -> A -> Prop) (l1 l2 : list A) :
  StronglySorted P (l1 ++ l2) ->
  forall a b, In a l1 -> In b l2 -> P a b.
Proof.
  induction l1 as [|x l1 IH]; cbn; intros H a b Ha Hb; [tauto|].
  inversion H as [|? ? Hs Hx]; subst.
  destruct Ha as [<-|Ha].
  - rewrite Forall_forall in Hx. apply Hx. apply in_or_app. now right.
  - eapply IH; eauto.
Qed.

End PyMore.

(* ------------------------------------------------------------------ *)
(** * Further properties of the semantic cache                         *)
(* ------------------------------------------------------------------ *)

Module CacheMore.
Import Cache CacheStatsView PyFacts PyMore CacheFacts.

Lemma keys_dict_del {V} (d : list (string * V)) q :
  NoDup (map fst d) ->
  map fst (dict_del d q) = filter (fun k => negb (String.eqb q k)) (map fst d).
Proof.
  induction d as [|[k v] d IH]; cbn; intros Hnd; auto.
  inversion Hnd as [|? ? Hk Hnd']; subst.
  destruct (String.eqb q k) eqn:E; cbn.
  - apply String.eqb_eq in E. subst.
    symmetry. apply forallb_filter_id. apply forallb_forall.
    intros x Hx. apply negb_true_iff. apply String.eqb_neq.
    intros ->. contradiction.
  - now rewrite IH.
Qed.

Lemma dict_del_in {V} (d : list (string * V)) q kv :
  In kv (dict_del d q) -> In kv d.
Proof.
  induction d as [|[k v] d IH]; cbn; auto.
  destruct (String.eqb q k); cbn; intuition.
Qed.

Lemma dict_del_nodup {V} (d : list (string * V)) q :
  NoDup (map fst d) ->
  NoDup (map fst (dict_del d q)) /\ ~ In q (map fst (dict_del d q)).
Proof.
  intros Hnd. rewrite keys_dict_del by exact Hnd. split.
  - now apply NoDup_filter.
  - intros Hin. apply filter_In in Hin as [_ Hin].
    rewrite String.eqb_refl in Hin. discriminate.
Qed.

Section WithResult.
Variable R : Type.
Context {RT : Runtime}.

(** ** Distinct keys, the representation invariant of the [OrderedDict] *)

Lemma update_access_keys (c : SemanticCache R) now q :
  NoDup (keys c) ->
  NoDup (keys (_update_access c now q)) /\
  (forall e, assoc q (_cache c) = Some e ->
     exists e', assoc q (_cache (_update_access c now q)) = Some e' /\
                result_ e' = result_ e /\
                keys (_update_access c now q)
                = filter (fun k => negb (String.eqb q k)) (keys c) ++ [q]).
Proof.
  unfold _update_access, keys. intros Hnd.
  destruct (assoc q (_cache c)) as [e|] eqn:E; cbn [_cache with_cache].
  - destruct (dict_del_nodup (_cache c) q Hnd) as [H1 H2].
    split.
    + rewrite map_app. cbn. now apply nodup_snoc.
    + intros e0 He0. inversion He0; subst e0. eexists. split; [|split].
      * apply assoc_in_nodup.
        -- rewrite map_app. cbn. now apply nodup_snoc.
        -- apply in_or_app. right. left. reflexivity.
      * reflexivity.
      * rewrite map_app. cbn. now rewrite keys_dict_del.
  - split; [exact Hnd | discriminate].
Qed.

Lemma remove_entry_keys (c : SemanticCache R) q :
  NoDup (keys c) -> NoDup (keys (_remove_entry c q)).
Proof.
  unfold _remove_entry, keys. intros Hnd.
  destruct (dict_mem q (_cache c)); cbn; auto.
  now apply dict_del_nodup.
Qed.

Lemma get_keys (c : SemanticCache R) now q emb :
  NoDup (keys c) -> NoDup (keys (fst (get c now q emb))).
Proof.
  intros Hnd. unfold get. cbn [_cache with_stats].
  destruct (assoc q (_cache c)) as [entry|].
  - destruct (_is_expired _ now entry); cbn [fst].
    + apply (remove_entry_keys (with_stats c (incr_total (stats c))) q Hnd).
    + apply (update_access_keys (with_stats c (incr_total (stats c))) now q Hnd).
  - destruct (fold_left _ _ _) as [[m|] best]; cbn [fst]; auto.
    destruct (negb (String.eqb m "") && Qle_bool _ best); cbn [fst]; auto.
    pose proof (proj1 (update_access_keys
                         (with_stats c (incr_total (stats c))) now m Hnd)).
    match goal with
    | |- context [assoc m ?d] => destruct (assoc m d)
    end; cbn [fst]; exact H.
Qed.

Lemma put_keys (c : SemanticCache R) now q emb r :
  NoDup (keys c) -> NoDup (keys (put c now q emb r)).
Proof.
  unfold put, keys. intros Hnd.
  set (c1 := if (max_size c <=? List.length (_cache c))
                && negb (dict_mem q (_cache c))
             then _evict_lru c else c).
  assert (H1 : NoDup (map fst (_cache c1))).
  { subst c1. destruct (_ && _); auto.
    unfold _evict_lru. destruct (_cache c) as [|kv rest] eqn:E; cbn.
    - rewrite E. constructor.
    - cbn in Hnd. now inversion Hnd. }
  destruct (dict_mem q (_cache c1)) eqn:Hm; cbn [_cache with_cache];
    rewrite map_app; cbn; apply nodup_snoc; auto.
  - now apply dict_del_nodup.
  - now apply dict_del_nodup.
  - unfold dict_mem in Hm. apply assoc_none_not_in.
    destruct (assoc q (_cache c1)); [discriminate | reflexivity].
Qed.

Lemma clear_expired_loop_keys (qs : list string) (c : SemanticCache R) :
  NoDup (keys c) ->
  NoDup (keys (fold_left
                 (fun c q =>
                    let c := _remove_entry c q in
                    with_stats c (add_expired 1 (stats c))) qs c)).
Proof.
  revert c. induction qs as [|q qs IH]; intros c Hnd; cbn; auto.
  apply IH. apply (remove_entry_keys c q Hnd).
Qed.

Lemma step_keys (c : SemanticCache R) (o : op R) :
  NoDup (keys c) -> NoDup (keys (step c o)).
Proof.
  intros Hnd. destruct o as [now q emb|now q emb r| |now|]; cbn [step]; auto.
  - now apply get_keys.
  - now apply put_keys.
  - constructor.
  - unfold clear_expired. cbn [fst]. now apply clear_expired_loop_keys.
Qed.

Lemma run_keys (ops : list (op R)) (c : SemanticCache R) :
  NoDup (keys c) -> NoDup (keys (run c ops)).
Proof.
  revert c. induction ops as [|o ops IH]; intros c Hnd; cbn; auto.
  apply IH. now apply step_keys.
Qed.

(** ** What [put] leaves in the cache *)

Lemma dict_del_absent {V} (d : list (string * V)) q :
  dict_mem q d = false -> dict_del d q = d.
Proof.
  unfold dict_mem. induction d as [|[k v] d IH]; cbn; auto.
  destruct (String.eqb q k); [discriminate|].
  intros H. now rewrite IH.
Qed.

Lemma put_cache (c : SemanticCache R) now q emb r :
  let entry := {| query := q; query_embedding := emb; result_ := r;
                  timestamp := now; access_count := 0;
                  last_accessed := now |} in
  _cache (put c now q emb r)
  = (if dict_mem q (_cache c) then dict_del (_cache c) q
     else if max_size c <=? List.length (_cache c) then tl (_cache c)
          else _cache c) ++ [(q, entry)] /\
  evictions (stats (put c now q emb r))
  = (if negb (dict_mem q (_cache c))
        && (max_size c <=? List.length (_cache c))
        && negb (List.length (_cache c) =? 0)
     then S (evictions (stats c)) else evictions (stats c)) /\
  ttl_seconds (put c now q emb r) = ttl_seconds c /\
  similarity_threshold (put c now q emb r) = similarity_threshold c.
Proof.
  cbv zeta. unfold put, _evict_lru.
  destruct (dict_mem q (_cache c)) eqn:Hm.
  - rewrite andb_false_r. rewrite Hm. cbn. auto.
  - rewrite andb_true_r. cbn [negb andb].
    destruct (max_size c <=? List.length (_cache c)) eqn:Hfull.
    + destruct (_cache c) as [|kv rest] eqn:Hc; cbn [_cache with_cache with_stats].
      * rewrite Hc. cbn. rewrite Hc. cbn. auto.
      * apply assoc_tail_none in Hm. rewrite Hm. cbn. auto.
    + rewrite Hm. cbn. auto.
Qed.

Lemma put_get_same_query (c : SemanticCache R) (now now' : Q) (q : string)
  (emb emb' : list Q) (r : R) :
  NoDup (keys c) ->
  (now' - now <= ttl_seconds c)%Q ->
  snd (get (put c now q emb r) now' q emb') = Some r /\
  hits (stats (fst (get (put c now q emb r) now' q emb')))
  = S (hits (stats c)) /\
  misses (stats (fst (get (put c now q emb r) now' q emb')))
  = misses (stats c) /\
  exists front,
    keys (fst (get (put c now q emb r) now' q emb')) = front ++ [q].
Proof.
  intros Hnd Hfresh.
  destruct (put_cache c now q emb r) as (Hc & _ & Httl & _). cbv zeta in Hc.
  destruct (put_counts c now q emb r) as (Hh & Hm & _).
  pose proof (put_keys c now q emb r Hnd) as Hnd1.
  set (c1 := put c now q emb r) in *. clearbody c1.
  set (entry := {| query := q; query_embedding := emb; result_ := r;
                   timestamp := now; access_count := 0;
                   last_accessed := now |}) in *.
  assert (Hassoc : assoc q (_cache c1) = Some entry).
  { apply assoc_in_nodup; [exact Hnd1|].
    rewrite Hc. apply in_or_app. right. left. reflexivity. }
  unfold get. cbn [_cache with_stats]. rewrite Hassoc.
  assert (Hexp : _is_expired (with_stats c1 (incr_total (stats c1))) now'
                   entry = false).
  { unfold _is_expired. cbn [ttl_seconds with_stats timestamp entry].
    rewrite Httl. now apply Qltb_ge. }
  rewrite Hexp. cbn [fst snd].
  split; [reflexivity|].
  cbn [stats with_stats]. rewrite update_access_stats. cbn.
  split; [now rewrite Hh|]. split; [exact Hm|].
  destruct (update_access_keys (with_stats c1 (incr_total (stats c1)))
              now' q Hnd1) as [_ Hk].
  destruct (Hk entry Hassoc) as (e' & _ & _ & Hkeys).
  eexists. unfold keys in *. cbn [_cache with_stats] in *. exact Hkeys.
Qed.

Lemma get_ttl (c : SemanticCache R) now q emb :
  ttl_seconds (fst (get c now q emb)) = ttl_seconds c.
Proof.
  unfold get. cbn [_cache with_stats].
  destruct (assoc q (_cache c)) as [entry|].
  - destruct (_is_expired _ now entry); cbn [fst].
    + unfold _remove_entry. now destruct (dict_mem q _).
    + unfold _update_access. cbn. now destruct (assoc q (_cache c)).
  - destruct (fold_left _ _ _) as [[m|] best]; cbn [fst]; auto.
    destruct (negb (String.eqb m "") && _); cbn; auto.
    unfold _update_access. cbn.
    destruct (assoc m (_cache c)); cbn;
      match goal with
      | |- context [assoc m ?l] => destruct (assoc m l)
      end; reflexivity.
Qed.

(** X1.  A result stored by [put] is returned by the next [get] for the
    same query text, whatever embedding is passed, as long as the entry
    has not outlived the time to live: the look-up is a hit, it counts one
    hit and no miss, and the entry is then the most recently used one. *)
Theorem put_then_get_hits (c : SemanticCache R) (now now' : Q) (q : string)
  (emb emb' : list Q) (r : R) :
  NoDup (keys c) ->
  (now' - now <= ttl_seconds c)%Q ->
  snd (get (put c now q emb r) now' q emb') = Some r /\
  hits (stats (fst (get (put c now q emb r) now' q emb')))
  = S (hits (stats c)) /\
  misses (stats (fst (get (put c now q emb r) now' q emb')))
  = misses (stats c) /\
  exists front,
    keys (fst (get (put c now q emb r) now' q emb')) = front ++ [q].
Proof. apply put_get_same_query. Qed.


Lemma put_keys_cases (c : SemanticCache R) (now : Q) (q : string)
  (emb : list Q) (r : R) :
  NoDup (keys c) ->
  keys (put c now q emb r)
  = (if dict_mem q (_cache c)
     then filter (fun k => negb (String.eqb q k)) (keys c)
     else if max_size c <=? size c then tl (keys c) else keys c) ++ [q].
Proof.
  intros Hnd.
  destruct (put_cache c now q emb r) as (Hc & _). cbv zeta in Hc.
  unfold keys, size. rewrite Hc, map_app. cbn. f_equal.
  destruct (dict_mem q (_cache c)).
  - now apply keys_dict_del.
  - destruct (max_size c <=? List.length (_cache c)); auto.
    now destruct (_cache c).
Qed.

(** X2.  The keys after [put]: the stored query is the last, most recent
    key.  A query that was cached already only moves to the end; a new
    query on a full cache drops the head, the least recently used key, and
    nothing else; a new query on a cache with room drops nothing. *)
Theorem put_keeps_lru_order (c : SemanticCache R) (now : Q) (q : string)
  (emb : list Q) (r : R) :
  NoDup (keys c) ->
  keys (put c now q emb r)
  = (if dict_mem q (_cache c)
     then filter (fun k => negb (String.eqb q k)) (keys c)
     else if max_size c <=? size c then tl (keys c) else keys c) ++ [q] /\
  assoc q (_cache (put c now q emb r))
  = Some {| query := q; query_embedding := emb; result_ := r;
            timestamp := now; access_count := 0; last_accessed := now |}.
Proof.
  intros Hnd. split; [now apply put_keys_cases|].
  destruct (put_cache c now q emb r) as (Hc & _). cbv zeta in Hc.
  apply assoc_in_nodup; [apply (put_keys c now q emb r Hnd)|].
  rewrite Hc. apply in_or_app. right. left. reflexivity.
Qed.

Lemma best_match_loop (c : SemanticCache R) now emb
  (l : list (string * CacheEntry R)) b0 s0 m s :
  fold_left (best_match_step c now emb) l (b0, s0) = (Some m, s) ->
  (b0 = Some m /\ s0 = s) \/
  exists e, In (m, e) l /\ _is_expired c now e = false /\
            s = _cosine_similarity emb (query_embedding e).
Proof.
  revert b0 s0. induction l as [|[k e] l IH]; cbn [fold_left]; intros b0 s0 H.
  - inversion H. auto.
  - unfold best_match_step at 2 in H. cbn [fst snd] in H.
    destruct (_is_expired c now e) eqn:Ee.
    + destruct (IH _ _ H) as [?|(e0 & ? & ?)]; [auto|]. right. exists e0.
      cbn. tauto.
    + destruct (Qltb s0 (_cosine_similarity emb (query_embedding e))).
      * destruct (IH _ _ H) as [[Hb Hs]|(e0 & ? & ?)].
        -- inversion Hb; subst. right. exists e. cbn. auto.
        -- right. exists e0. cbn. tauto.
      * destruct (IH _ _ H) as [?|(e0 & ? & ?)]; [auto|]. right. exists e0.
        cbn. tauto.
Qed.

(** X3.  Whatever [get] returns is the result of an entry that is in the
    cache and has not outlived the time to live at the moment of the
    look-up.  The entry is stored under the query text itself, or the
    query text is no key and the similarity of the two embeddings reaches
    the threshold; in both cases the entry becomes the most recent one. *)
Theorem get_hit_is_stored_and_fresh (c : SemanticCache R) (now : Q)
  (q : string) (emb : list Q) (r : R) :
  NoDup (keys c) ->
  snd (get c now q emb) = Some r ->
  exists k e,
    In (k, e) (_cache c) /\
    result_ e = r /\
    _is_expired c now e = false /\
    (k = q \/
     (dict_mem q (_cache c) = false /\
      (similarity_threshold c
       <= _cosine_similarity emb (query_embedding e))%Q)) /\
    exists front, keys (fst (get c now q emb)) = front ++ [k].
Proof.
  intros Hnd. unfold get. cbn [_cache with_stats].
  destruct (assoc q (_cache c)) as [entry|] eqn:Ea.
  - destruct (_is_expired _ now entry) eqn:Ee; cbn [snd fst]; [discriminate|].
    intros H. inversion H; subst r. exists q, entry.
    split; [now apply assoc_some_in|]. split; [reflexivity|].
    split; [exact Ee|]. split; [auto|].
    destruct (update_access_keys (with_stats c (incr_total (stats c)))
                now q Hnd) as [_ Hk].
    destruct (Hk entry Ea) as (e' & _ & _ & Hkeys).
    eexists. unfold keys in *. cbn [_cache with_stats] in *. exact Hkeys.
  - destruct (fold_left _ _ _) as [[m|] best] eqn:Ef; cbn [snd]; [|discriminate].
    destruct (negb (String.eqb m "") && Qle_bool _ best) eqn:Econd;
      cbn [snd]; [|discriminate].
    apply andb_true_iff in Econd as [_ Hthr]. apply Qle_bool_iff in Hthr.
    apply best_match_loop in Ef as [[Hb _]|(e & Hin & Hfresh & Hs)];
      [discriminate|].
    assert (Ha : assoc m (_cache c) = Some e) by now apply assoc_in_nodup.
    destruct (update_access_keys (with_stats c (incr_total (stats c)))
                now m Hnd) as [_ Hk].
    destruct (Hk e Ha) as (e' & Ha' & Hres & Hkeys).
    cbn [_cache with_stats stats] in *.
    rewrite Ha'. cbn [snd fst]. intros H. inversion H; subst r.
    exists m, e. repeat split; auto.
    + right. split.
      * unfold dict_mem. now rewrite Ea.
      * now rewrite <- Hs.
    + eexists. unfold keys in *. cbn [_cache with_stats] in *. exact Hkeys.
Qed.

(** ** [clear_expired] *)

Lemma dict_del_filter {V} (d : list (string * V)) q :
  NoDup (map fst d) ->
  dict_del d q = filter (fun kv => negb (String.eqb q (fst kv))) d.
Proof.
  induction d as [|[k v] d IH]; cbn; intros Hnd; auto.
  inversion Hnd as [|? ? Hk Hnd']; subst.
  destruct (String.eqb q k) eqn:E; cbn.
  - apply String.eqb_eq in E. subst.
    symmetry. apply forallb_filter_id. apply forallb_forall.
    intros [k' v'] Hx. cbn. apply negb_true_iff. apply String.eqb_neq.
    intros ->. apply Hk. change k' with (fst (k', v')). now apply in_map.
  - now rewrite IH.
Qed.

Lemma filter_filter {A} (f g : A -> bool) (l : list A) :
  filter f (filter g l) = filter (fun x => g x && f x) l.
Proof.
  induction l as [|a l IH]; cbn; auto.
  destruct (g a); cbn; [destruct (f a)|]; now rewrite IH.
Qed.

Lemma clear_expired_loop_cache (qs : list string) (c : SemanticCache R) :
  NoDup (keys c) ->
  let c' := fold_left
              (fun c q =>
                 let c := _remove_entry c q in
                 with_stats c (add_expired 1 (stats c))) qs c in
  _cache c'
  = filter (fun kv => negb (existsb (String.eqb (fst kv)) qs)) (_cache c) /\
  expired (stats c') = List.length qs + expired (stats c) /\
  evictions (stats c') = evictions (stats c) /\
  ttl_seconds c' = ttl_seconds c /\ max_size c' = max_size c.
Proof.
  revert c. induction qs as [|q qs IH]; intros c Hnd; cbn [fold_left].
  - cbn. repeat split; auto.
    symmetry. apply forallb_filter_id. now apply forallb_forall.
  - set (c1 := with_stats (_remove_entry c q)
                 (add_expired 1 (stats (_remove_entry c q)))).
    assert (Hc1 : _cache c1 = dict_del (_cache c) q).
    { subst c1. unfold _remove_entry.
      destruct (dict_mem q (_cache c)) eqn:Hm; cbn; auto.
      now rewrite dict_del_absent. }
    assert (Hs1 : stats c1 = add_expired 1 (stats c)).
    { subst c1. cbn. now rewrite remove_entry_stats. }
    assert (Hp1 : ttl_seconds c1 = ttl_seconds c /\ max_size c1 = max_size c).
    { subst c1. unfold _remove_entry.
      destruct (dict_mem q (_cache c)); cbn; auto. }
    assert (Hnd1 : NoDup (keys c1)).
    { unfold keys. rewrite Hc1. now apply dict_del_nodup. }
    destruct (IH c1 Hnd1) as (H1 & H2 & H3 & H4 & H5). cbv zeta in *.
    rewrite H1, H2, H3, H4, H5, Hc1, Hs1. destruct Hp1 as [-> ->].
    repeat split; auto.
    + rewrite dict_del_filter by exact Hnd. rewrite filter_filter.
      apply filter_ext. intros [k v]. cbn.
      rewrite (String.eqb_sym k q). now rewrite negb_orb.
    + cbn. lia.
Qed.

Lemma filter_length_split {A} (f : A -> bool) (l : list A) :
  List.length (filter f l) + List.length (filter (fun x => negb (f x)) l)
  = List.length l.
Proof.
  induction l as [|a l IH]; cbn; auto.
  destruct (f a); cbn; lia.
Qed.

(** X4.  [clear_expired] removes exactly the entries that have outlived
    the time to live and keeps the others in their order; the number it
    returns is the number of entries removed, and the [expired] counter
    grows by that number while no eviction is counted. *)
Theorem clear_expired_removes_only_expired (c : SemanticCache R) (now : Q) :
  NoDup (keys c) ->
  _cache (fst (clear_expired c now))
  = filter (fun kv => negb (_is_expired c now (snd kv))) (_cache c) /\
  size (fst (clear_expired c now)) + snd (clear_expired c now) = size c /\
  expired (stats (fst (clear_expired c now)))
  = snd (clear_expired c now) + expired (stats c) /\
  evictions (stats (fst (clear_expired c now))) = evictions (stats c).
Proof.
  intros Hnd. unfold clear_expired. cbn [fst snd].
  set (qs := map fst (filter (fun kv => _is_expired c now (snd kv))
                             (_cache c))).
  destruct (clear_expired_loop_cache qs c Hnd) as (H1 & H2 & H3 & _).
  cbv zeta in *.
  assert (Hfilter :
            filter (fun kv => negb (existsb (String.eqb (fst kv)) qs))
                   (_cache c)
            = filter (fun kv => negb (_is_expired c now (snd kv)))
                     (_cache c)).
  { apply filter_ext_in. intros [k e] Hin. cbn. f_equal.
    destruct (_is_expired c now e) eqn:Ee.
    - apply existsb_exists. exists k. split; [|apply String.eqb_refl].
      subst qs. change k with (fst (k, e)). apply in_map.
      apply filter_In. auto.
    - destruct (existsb (String.eqb k) qs) eqn:Ex; auto.
      apply existsb_exists in Ex as (k' & Hk' & Heq).
      apply String.eqb_eq in Heq. subst k'. subst qs.
      apply in_map_iff in Hk' as ([k' e'] & Hfst & Hin').
      cbn in Hfst. subst k'. apply filter_In in Hin' as [Hin' Hexp].
      cbn in Hexp.
      pose proof (assoc_in_nodup _ _ _ Hnd Hin) as A1.
      pose proof (assoc_in_nodup _ _ _ Hnd Hin') as A2.
      congruence. }
  rewrite H1, H2, H3, Hfilter. repeat split; auto.
  unfold size. rewrite Hfilter in H1. rewrite H1.
  subst qs. rewrite length_map.
  rewrite Nat.add_comm. apply filter_length_split.
Qed.

(** ** Similarity and statistics *)

(** X5.  [_cosine_similarity] always lies between 0 and 1, and it is 0
    unless the two vectors have the same length. *)
Theorem cosine_similarity_bounded (vec1 vec2 : list Q) :
  (0 <= _cosine_similarity vec1 vec2 <= 1)%Q /\
  (List.length vec1 = List.length vec2 \/
   _cosine_similarity vec1 vec2 = 0%Q).
Proof.
  unfold _cosine_similarity. split.
  - destruct (negb (List.length vec1 =? List.length vec2));
      [split; discriminate|].
    destruct (Qeq_bool (norm vec1) 0 || Qeq_bool (norm vec2) 0);
      [split; discriminate|].
    unfold Qmax', Qmin'.
    set (x := (dot vec1 vec2 / (norm vec1 * norm vec2))%Q).
    destruct (Qltb x 1) eqn:E1.
    + destruct (Qltb 0 x) eqn:E0.
      * apply Qltb_lt in E0, E1. split; now apply Qlt_le_weak.
      * split; discriminate.
    + destruct (Qltb 0 1) eqn:E0; split; discriminate.
  - destruct (List.length vec1 =? List.length vec2) eqn:E.
    + left. now apply Nat.eqb_eq.
    + right. reflexivity.
Qed.

(** X6.  After any sequence of operations on a new cache the hit rate
    reported by [get_stats] lies between 0 and 1; it is 0 as long as no
    [get] was made. *)
Theorem hit_rate_bounded (max_size' : nat) (ttl_hours threshold : Q)
  (ops : list (op R)) :
  let c := run (init R max_size' ttl_hours threshold) ops in
  dict_get (get_stats c) "hit_rate" = VFloat (hit_rate (stats c)) /\
  (0 <= hit_rate (stats c) <= 1)%Q /\
  (if total_queries (stats c) =? 0
   then hit_rate (stats c) = 0%Q else True).
Proof.
  cbv zeta.
  pose proof (run_keeps_invariant ops (init R max_size' ttl_hours threshold)
                eq_refl) as Hinv.
  set (c := run (init R max_size' ttl_hours threshold) ops) in *.
  split; [reflexivity|]. unfold hit_rate.
  destruct (total_queries (stats c) =? 0) eqn:E.
  - split; [split; discriminate | reflexivity].
  - apply Nat.eqb_neq in E. split; [|exact I].
    assert (Hpos : (0 < BM25.Qnat (total_queries (stats c)))%Q)
      by (apply Qnat_pos; lia).
    split.
    + apply Qle_shift_div_l; [exact Hpos|].
      rewrite Qmult_0_l. change 0%Q with (BM25.Qnat 0).
      apply Qnat_le. lia.
    + apply Qle_shift_div_r; [exact Hpos|].
      rewrite Qmult_1_l. apply Qnat_le. lia.
Qed.

(** X7.  With room for at least one entry, the number of entries never
    exceeds the capacity, and the capacity itself never changes, whatever
    sequence of operations is applied to a new cache; the keys stay
    pairwise distinct. *)
Theorem capacity_respected_when_positive (max_size' : nat)
  (ttl_hours threshold : Q) (ops : list (op R)) :
  1 <= max_size' ->
  let c := run (init R max_size' ttl_hours threshold) ops in
  size c <= max_size' /\ max_size c = max_size' /\ NoDup (keys c).
Proof.
  intros Hpos. cbv zeta.
  assert (H : forall c : SemanticCache R,
             1 <= max_size c -> size c <= max_size c ->
             size (run c ops) <= max_size c /\
             max_size (run c ops) = max_size c).
  { induction ops as [|o ops IH]; intros c H1 H2; cbn; auto.
    destruct (step_size c o H1 H2) as (H3 & H4).
    rewrite <- H4. apply IH; rewrite H4; auto. }
  destruct (H (init R max_size' ttl_hours threshold)) as [H1 H2];
    cbn; try lia.
  repeat split; auto. apply run_keys. constructor.
Qed.

(** X8.  An entry that [get] has just returned for its own query text is
    not the one a following [put] evicts, as soon as the capacity is at
    least two: the query is still a key afterwards. *)
Theorem entry_just_read_survives_put (c : SemanticCache R) (now now' : Q)
  (q q' : string) (emb emb' : list Q) (r r' : R) :
  NoDup (keys c) ->
  2 <= max_size c ->
  dict_mem q (_cache c) = true ->
  snd (get c now q emb) = Some r ->
  In q (keys (put (fst (get c now q emb)) now' q' emb' r')).
Proof.
  intros Hnd Hcap Hmem Hget.
  assert (Hshape : exists front,
             keys (fst (get c now q emb)) = front ++ [q] /\
             max_size (fst (get c now q emb)) = max_size c).
  { destruct (get_size c now q emb) as [_ Hmax].
    revert Hget. unfold get. cbn [_cache with_stats].
    unfold dict_mem in Hmem.
    destruct (assoc q (_cache c)) as [entry|] eqn:Ea; [|discriminate].
    destruct (_is_expired _ now entry); cbn [snd fst]; [discriminate|].
    intros _.
    destruct (update_access_keys (with_stats c (incr_total (stats c)))
                now q Hnd) as [_ Hk].
    destruct (Hk entry Ea) as (e' & _ & _ & Hkeys).
    eexists. split; [exact Hkeys|].
    apply (proj2 (update_access_size
                    (with_stats c (incr_total (stats c))) now q)). }
  destruct Hshape as (front & Hkeys & Hmax).
  pose proof (get_keys c now q emb Hnd) as Hnd2.
  set (c2 := fst (get c now q emb)) in *. clearbody c2.
  rewrite put_keys_cases by exact Hnd2. rewrite Hkeys.
  destruct (dict_mem q' (_cache c2)) eqn:Hm'.
  - destruct (String.eqb q' q) eqn:E.
    + apply String.eqb_eq in E. subst. apply in_or_app. right. now left.
    + apply in_or_app. left. apply filter_In. split.
      * apply in_or_app. right. now left.
      * now rewrite E.
  - destruct (max_size c2 <=? size c2) eqn:Hfull.
    + apply Nat.leb_le in Hfull. unfold size in Hfull.
      assert (Hlen : List.length (keys c2) = List.length (_cache c2))
        by (unfold keys; apply length_map).
      rewrite Hkeys, length_app in Hlen. cbn in Hlen.
      destruct front as [|k front]; [cbn in Hlen; lia|].
      cbn. apply in_or_app. left. apply in_or_app. right. now left.
    + apply in_or_app. left. apply in_or_app. right. now left.
Qed.

(** X9.  [clear] empties the cache and keeps the statistics: the
    counters are those of before, and the next [get] is a miss, for every
    query and embedding, which counts as a miss. *)
Theorem clear_then_get_misses (c : SemanticCache R) (now : Q) (q : string)
  (emb : list Q) :
  size (clear c) = 0 /\
  stats (clear c) = stats c /\
  snd (get (clear c) now q emb) = None /\
  misses (stats (fst (get (clear c) now q emb))) = S (misses (stats c)) /\
  hits (stats (fst (get (clear c) now q emb))) = hits (stats c) /\
  size (fst (get (clear c) now q emb)) = 0.
Proof. repeat split. Qed.

End WithResult.

(** ** The theorems at work on a small cache *)

Ltac distinct_keys :=
  vm_compute;
  repeat (constructor; [cbn; intuition discriminate|]); constructor.

Lemma put_then_get_hits_witness :
  snd (get (RT:=Scenario.toy_runtime)
         (put CacheScenario.two_entries 2 "c" [1; 1]%Q "rc") 3600 "c" [])
  = Some "rc" /\
  hits (stats (fst (get (RT:=Scenario.toy_runtime)
                      (put CacheScenario.two_entries 2 "c" [1; 1]%Q "rc")
                      3600 "c" [])))
  = 1.
Proof.
  destruct (@put_then_get_hits string Scenario.toy_runtime
              CacheScenario.two_entries 2 3600 "c" [1; 1]%Q [] "rc"
              ltac:(distinct_keys) ltac:(vm_compute; discriminate))
    as (H1 & H2 & _).
  split; [exact H1 | exact H2].
Defined.

Lemma put_keeps_lru_order_witness :
  keys (put CacheScenario.two_entries 2 "c" [1; 1]%Q "rc") = ["b"; "c"] /\
  keys (put CacheScenario.two_entries 2 "a" [1; 1]%Q "rc") = ["b"; "a"].
Proof.
  split.
  - exact (proj1 (@put_keeps_lru_order string CacheScenario.two_entries 2
                    "c" [1; 1]%Q "rc" ltac:(distinct_keys))).
  - exact (proj1 (@put_keeps_lru_order string CacheScenario.two_entries 2
                    "a" [1; 1]%Q "rc" ltac:(distinct_keys))).
Defined.

Lemma get_hit_is_stored_and_fresh_witness :
  snd (get (RT:=Scenario.toy_runtime) CacheScenario.two_entries 5
         "another wording" [0; 1]%Q) = Some "rb" /\
  exists k e,
    In (k, e) (_cache CacheScenario.two_entries) /\
    result_ e = "rb" /\
    _is_expired CacheScenario.two_entries 5 e = false.
Proof.
  split; [vm_compute; reflexivity|].
  destruct (@get_hit_is_stored_and_fresh string Scenario.toy_runtime
              CacheScenario.two_entries 5 "another wording" [0; 1]%Q "rb"
              ltac:(distinct_keys) ltac:(vm_compute; reflexivity))
    as (k & e & H1 & H2 & H3 & _).
  exists k, e. auto.
Defined.

Lemma clear_expired_removes_only_expired_witness :
  snd (clear_expired CacheScenario.two_entries (7201 # 2)) = 1 /\
  size (fst (clear_expired CacheScenario.two_entries (7201 # 2))) + 1
  = 2 /\
  keys (fst (clear_expired CacheScenario.two_entries (7201 # 2)))
  = ["b"].
Proof.
  destruct (@clear_expired_removes_only_expired string
              CacheScenario.two_entries (7201 # 2)
              ltac:(distinct_keys)) as (H1 & H2 & _).
  split; [vm_compute; reflexivity|]. split; [exact H2|].
  unfold keys. rewrite H1. vm_compute. reflexivity.
Defined.

Lemma capacity_respected_when_positive_witness :
  size (run (RT:=Scenario.toy_runtime) (init string 2 1 0.92)
          [OpPut 0 "a" [1; 0]%Q "ra"; OpPut 1 "b" [0; 1]%Q "rb";
           OpPut 2 "c" [1; 1]%Q "rc"; OpGet 3 "a" [1; 0]%Q;
           OpClearExpired 4000; OpPut 4001 "d" [] "rd"]) <= 2.
Proof.
  exact (proj1 (@capacity_respected_when_positive string
                  Scenario.toy_runtime 2 1 0.92
                  [OpPut 0 "a" [1; 0]%Q "ra"; OpPut 1 "b" [0; 1]%Q "rb";
                   OpPut 2 "c" [1; 1]%Q "rc"; OpGet 3 "a" [1; 0]%Q;
                   OpClearExpired 4000; OpPut 4001 "d" [] "rd"]
                  ltac:(lia))).
Defined.

Lemma entry_just_read_survives_put_witness :
  In "a"
    (keys (put (fst (get (RT:=Scenario.toy_runtime)
                       CacheScenario.two_entries 5 "a" []))
             6 "c" [1; 1]%Q "rc")).
Proof.
  exact (@entry_just_read_survives_put string Scenario.toy_runtime
           CacheScenario.two_entries 5 6 "a" "c" [] [1; 1]%Q "ra" "rc"
           ltac:(distinct_keys) ltac:(vm_compute; lia)
           ltac:(reflexivity) ltac:(vm_compute; reflexivity)).
Defined.

End CacheMore.

(* ------------------------------------------------------------------ *)
(** * Further properties of the BM25 index                             *)
(* ------------------------------------------------------------------ *)

Module BM25More.
Import BM25 Props BM25Props PyFacts PyMore BM25Facts.

(** ** [Counter] and the inverted index *)

Lemma counter_add_pos (c : list (string * nat)) (t : string) :
  Forall (fun tn => 1 <= snd tn) c ->
  Forall (fun tn => 1 <= snd tn) (counter_add c t).
Proof.
  induction 1 as [|[t' n] c Hn Hc IH]; cbn.
  - repeat constructor.
  - destruct (String.eqb t t'); constructor; cbn in *; auto.
Qed.

Lemma counter_fold_pos (tokens : list string) (c : list (string * nat)) :
  Forall (fun tn => 1 <= snd tn) c ->
  Forall (fun tn => 1 <= snd tn) (fold_left counter_add tokens c).
Proof.
  revert c. induction tokens as [|t tokens IH]; cbn; auto.
  intros c Hc. apply IH. now apply counter_add_pos.
Qed.

Lemma Counter_pos (tokens : list string) :
  Forall (fun tn => 1 <= snd tn) (Counter tokens).
Proof. apply counter_fold_pos. constructor. Qed.

Lemma counter_add_mem (c : list (string * nat)) (t t' : string) :
  dict_mem t' (counter_add c t) = String.eqb t' t || dict_mem t' c.
Proof.
  unfold dict_mem. induction c as [|[t0 n] c IH]; cbn.
  - now destruct (String.eqb t' t).
  - destruct (String.eqb t t0) eqn:E; cbn.
    + apply String.eqb_eq in E. subst t0.
      now destruct (String.eqb t' t).
    + destruct (String.eqb t' t0) eqn:E'; cbn.
      * now rewrite orb_true_r.
      * exact IH.
Qed.

Lemma counter_fold_mem (tokens : list string) (c : list (string * nat))
  (t : string) :
  dict_mem t (fold_left counter_add tokens c)
  = existsb (String.eqb t) tokens || dict_mem t c.
Proof.
  revert c. induction tokens as [|t0 tokens IH]; cbn; auto.
  intros c. rewrite IH, counter_add_mem.
  destruct (String.eqb t t0), (existsb (String.eqb t) tokens); auto.
Qed.

Lemma Counter_mem (tokens : list string) (t : string) :
  In t tokens -> exists n, In (t, n) (Counter tokens).
Proof.
  intros Hin.
  assert (H : dict_mem t (Counter tokens) = true).
  { unfold Counter. rewrite counter_fold_mem. apply orb_true_iff. left.
    apply existsb_exists. exists t. split; auto. apply String.eqb_refl. }
  unfold dict_mem in H.
  destruct (assoc t (Counter tokens)) as [n|] eqn:E; [|discriminate].
  exists n. now apply assoc_some_in.
Qed.

Lemma counter_add_keys (c : list (string * nat)) (t : string) :
  NoDup (map fst c) -> NoDup (map fst (counter_add c t)).
Proof.
  induction c as [|[t0 n] c IH]; cbn; intros H.
  - repeat constructor. auto.
  - inversion H as [|? ? Hnot Hnd]; subst.
    destruct (String.eqb t t0) eqn:E; cbn.
    + constructor; auto.
    + constructor; auto.
      intros Hin. apply in_map_iff in Hin as ([t1 n1] & Heq & Hin).
      cbn in Heq. subst t1.
      assert (Hm : dict_mem t0 (counter_add c t) = true).
      { unfold dict_mem.
        destruct (assoc t0 (counter_add c t)) eqn:Ea; auto.
        exfalso. revert Hin. clear - Ea.
        induction (counter_add c t) as [|[k v] l IHl]; cbn in *; auto.
        destruct (String.eqb t0 k) eqn:Ek; [discriminate|].
        intros [Hin|Hin]; auto.
        inversion Hin; subst. now rewrite String.eqb_refl in Ek. }
      rewrite counter_add_mem in Hm. rewrite String.eqb_sym, E in Hm.
      cbn in Hm. apply Hnot. unfold dict_mem in Hm.
      destruct (assoc t0 c) as [n0|] eqn:Ea; [|discriminate].
      apply assoc_some_in in Ea. apply in_map_iff. now exists (t0, n0).
Qed.

Lemma Counter_keys (tokens : list string) : NoDup (map fst (Counter tokens)).
Proof.
  unfold Counter.
  assert (H : forall c, NoDup (map fst c) ->
                        NoDup (map fst (fold_left counter_add tokens c))).
  { induction tokens as [|t tokens IH]; cbn; auto.
    intros c Hc. apply IH. now apply counter_add_keys. }
  apply H. constructor.
Qed.

Lemma index_append_assoc (idx : list (string * list InvertedIndexEntry))
  (term t : string) (e : InvertedIndexEntry) :
  assoc t (index_append idx term e)
  = if String.eqb t term
    then Some (match assoc term idx with
               | Some ps => ps ++ [e]
               | None => [e]
               end)
    else assoc t idx.
Proof.
  induction idx as [|[t0 ps0] idx IH]; cbn.
  - reflexivity.
  - destruct (String.eqb term t0) eqn:E; cbn.
    + apply String.eqb_eq in E. subst t0.
      now destruct (String.eqb t term).
    + destruct (String.eqb t t0) eqn:E'.
      * apply String.eqb_eq in E'. subst t0.
        now rewrite String.eqb_sym, E.
      * exact IH.
Qed.


Lemma index_append_keys (idx : list (string * list InvertedIndexEntry))
  (term : string) (e : InvertedIndexEntry) :
  map fst (index_append idx term e)
  = if dict_mem term idx then map fst idx else map fst idx ++ [term].
Proof.
  unfold dict_mem. induction idx as [|[t0 ps0] idx IH]; cbn; auto.
  destruct (String.eqb term t0) eqn:E; cbn; auto.
  rewrite IH. now destruct (assoc term idx).
Qed.

Lemma index_append_nodup (idx : list (string * list InvertedIndexEntry))
  (term : string) (e : InvertedIndexEntry) :
  NoDup (map fst idx) -> NoDup (map fst (index_append idx term e)).
Proof.
  intros H. rewrite index_append_keys. unfold dict_mem.
  destruct (assoc term idx) eqn:E; auto.
  apply nodup_snoc; auto. now apply assoc_none_not_in.
Qed.

(** The postings of one document: every term of its counter gets one
    more posting, the other terms keep theirs. *)
Lemma add_doc_assoc (d : nat) (cnt : list (string * nat))
  (idx : list (string * list InvertedIndexEntry)) (t : string) :
  NoDup (map fst cnt) ->
  assoc t (fold_left
             (fun idx tf => index_append idx (fst tf)
                              {| doc_id := d; term_freq := snd tf |})
             cnt idx)
  = match assoc t cnt with
    | Some n =>
        Some (match assoc t idx with Some ps => ps | None => [] end
              ++ [{| doc_id := d; term_freq := n |}])
    | None => assoc t idx
    end.
Proof.
  revert idx. induction cnt as [|[t0 n0] cnt IH]; cbn; intros idx Hnd; auto.
  inversion Hnd as [|? ? Hnot Hnd']; subst.
  rewrite IH by exact Hnd'. rewrite index_append_assoc.
  destruct (String.eqb t t0) eqn:E.
  - apply String.eqb_eq in E. subst t0.
    apply assoc_none_not_in in Hnot. rewrite Hnot.
    now destruct (assoc t idx).
  - reflexivity.
Qed.

Lemma add_doc_nodup (d : nat) (cnt : list (string * nat))
  (idx : list (string * list InvertedIndexEntry)) :
  NoDup (map fst idx) ->
  NoDup (map fst (fold_left
                    (fun idx tf => index_append idx (fst tf)
                                     {| doc_id := d; term_freq := snd tf |})
                    cnt idx)).
Proof.
  revert idx. induction cnt as [|tf cnt IH]; cbn; auto.
  intros idx H. apply IH. now apply index_append_nodup.
Qed.

Lemma nth_error_snoc {A} (l : list A) (a : A) :
  nth_error (l ++ [a]) (List.length l) = Some a.
Proof.
  rewrite nth_error_app2 by lia. now rewrite Nat.sub_diag.
Qed.

Lemma nth_error_keep {A} (l : list A) (a x : A) (i : nat) :
  nth_error l i = Some x -> nth_error (l ++ [a]) i = Some x.
Proof.
  intros H. rewrite nth_error_app1; auto.
  apply nth_error_Some. congruence.
Qed.

Lemma good_posting_keep (lens : list nat) (n : nat)
  (e : InvertedIndexEntry) :
  good_posting lens e -> good_posting (lens ++ [n]) e.
Proof.
  intros (H1 & len & H2 & H3). split; auto.
  exists len. split; auto. now apply nth_error_keep.
Qed.

Section WithRuntime.
Context {RT : Runtime}.

Lemma tokenize_accepts (v : value) :
  is_ok (tokenize v) = text_or_false v.
Proof.
  unfold tokenize, text_or_false.
  destruct v as [|x|z|q|s|l|d]; cbn; auto.
  - now destruct x.
  - now destruct (negb (Z.eqb z 0)).
  - now destruct (negb (Qeq_bool q 0)).
  - now destruct (negb (String.eqb s "")).
  - now destruct l.
  - now destruct d.
Qed.

Lemma tokenize_raises (v : value) (e : exn) :
  tokenize v = Raise e -> e = AttributeError /\ text_or_false v = false.
Proof.
  intros H. pose proof (tokenize_accepts v) as Ha. rewrite H in Ha.
  split; auto. revert H. unfold tokenize.
  destruct (negb (truthy v)); [discriminate|].
  destruct v; intros H; inversion H; auto.
Qed.

(** One turn of the loop of [build_index] keeps what is established. *)
Lemma index_chunk_inv (done : list dict) (lens : list nat)
  (idx : list (string * list InvertedIndexEntry)) (chunk : dict)
  (st : list nat * list (string * list InvertedIndexEntry)) :
  index_inv done lens idx ->
  index_chunk (lens, idx) (List.length done, chunk) = Ok st ->
  index_inv (done ++ [chunk]) (fst st) (snd st).
Proof.
  intros Inv H. unfold index_chunk in H.
  apply bind_ok in H as (tokens & Htok & H). inversion H; subst st. clear H.
  cbn [fst snd].
  pose proof (Counter_keys tokens) as Hck.
  destruct Inv as [Hlen Hkeys Hgood Hdf Hdocs].
  constructor.
  - rewrite !length_app. cbn. lia.
  - now apply add_doc_nodup.
  - intros t ps e Ha Hin. rewrite add_doc_assoc in Ha by exact Hck.
    destruct (assoc t (Counter tokens)) as [n|] eqn:Ec.
    + inversion Ha; subst ps. clear Ha.
      apply in_app_or in Hin as [Hin|[<-|[]]].
      * destruct (assoc t idx) as [ps0|] eqn:Ei; [|contradiction].
        apply good_posting_keep. eauto.
      * apply assoc_some_in in Ec.
        pose proof (Counter_pos tokens) as Hpos.
        rewrite Forall_forall in Hpos. specialize (Hpos _ Ec).
        split; [exact Hpos|]. cbn [doc_id].
        exists (List.length tokens). split.
        -- rewrite <- Hlen. apply nth_error_snoc.
        -- destruct tokens; [inversion Ec | cbn; lia].
    + apply good_posting_keep. eauto.
  - intros t ps Ha. rewrite add_doc_assoc in Ha by exact Hck.
    rewrite length_app. cbn.
    destruct (assoc t (Counter tokens)) as [n|] eqn:Ec.
    + inversion Ha; subst ps. rewrite length_app. cbn.
      destruct (assoc t idx) as [ps0|] eqn:Ei.
      * specialize (Hdf _ _ Ei). lia.
      * cbn. lia.
    + specialize (Hdf _ _ Ha). lia.
  - intros d c toks Hd Htoks.
    destruct (Nat.lt_ge_cases d (List.length done)) as [Hlt|Hge].
    + rewrite nth_error_app1 in Hd by exact Hlt.
      destruct (Hdocs _ _ _ Hd Htoks) as [H1 H2]. split.
      * now apply nth_error_keep.
      * intros t Ht. destruct (H2 t Ht) as (ps & e & Ha & Hin & He).
        destruct (assoc t (Counter tokens)) as [n|] eqn:Ec.
        -- eexists. exists e. split; [|split; [|exact He]].
           ++ rewrite add_doc_assoc by exact Hck. rewrite Ec, Ha.
              reflexivity.
           ++ apply in_or_app. now left.
        -- exists ps, e. split; [|split; auto].
           rewrite add_doc_assoc by exact Hck. now rewrite Ec.
    + rewrite nth_error_app2 in Hd by exact Hge.
      destruct (d - List.length done) as [|k] eqn:Ek.
      2:{ cbn in Hd. destruct k; discriminate. }
      cbn in Hd. inversion Hd; subst c. clear Hd.
      assert (d = List.length done) by lia. subst d.
      unfold content_of in Htoks. rewrite Htok in Htoks.
      inversion Htoks; subst toks. split.
      * rewrite <- Hlen. apply nth_error_snoc.
      * intros t Ht. destruct (Counter_mem tokens t Ht) as (n & Hn).
        apply assoc_in_nodup in Hn; [|exact Hck].
        eexists. eexists. split; [|split].
        -- rewrite add_doc_assoc by exact Hck. rewrite Hn. reflexivity.
        -- apply in_or_app. right. left. reflexivity.
        -- reflexivity.
Qed.

Lemma build_loop_inv (cs done : list dict) (lens : list nat)
  (idx : list (string * list InvertedIndexEntry))
  (st : list nat * list (string * list InvertedIndexEntry)) :
  index_inv done lens idx ->
  foldM index_chunk (enumerate_from (List.length done) cs) (lens, idx)
  = Ok st ->
  index_inv (done ++ cs) (fst st) (snd st).
Proof.
  revert done lens idx. induction cs as [|c cs IH]; cbn; intros done lens idx Inv H.
  - inversion H; subst. now rewrite app_nil_r.
  - apply bind_ok in H as ([lens1 idx1] & Hstep & H).
    apply index_chunk_inv in Hstep; [|exact Inv]. cbn [fst snd] in Hstep.
    replace (S (List.length done)) with (List.length (done ++ [c])) in H
      by (rewrite length_app; cbn; lia).
    apply IH in H; [|exact Hstep].
    now rewrite <- app_assoc in H.
Qed.

Lemma build_loop_total (cs : list dict) (k : nat)
  (st : list nat * list (string * list InvertedIndexEntry)) :
  Forall (fun c => text_or_false (content_of c) = true) cs ->
  exists st', foldM index_chunk (enumerate_from k cs) st = Ok st'.
Proof.
  intros H. revert k st. induction H as [|c cs Hc _ IH]; cbn; intros k st.
  - eauto.
  - destruct st as [lens idx]. unfold index_chunk at 1.
    rewrite <- tokenize_accepts in Hc. unfold content_of in Hc.
    destruct (tokenize (dict_get_or c "content" (VStr ""))) as [toks|];
      [|discriminate].
    cbn. apply IH.
Qed.

Lemma build_loop_accepts (cs : list dict) (k : nat)
  (st st' : list nat * list (string * list InvertedIndexEntry)) :
  foldM index_chunk (enumerate_from k cs) st = Ok st' ->
  Forall (fun c => text_or_false (content_of c) = true) cs.
Proof.
  revert k st. induction cs as [|c cs IH]; cbn; intros k st H; constructor.
  - apply bind_ok in H as ([lens1 idx1] & Hstep & _).
    destruct st as [lens idx]. unfold index_chunk in Hstep.
    apply bind_ok in Hstep as (toks & Htok & _).
    rewrite <- tokenize_accepts. unfold content_of. now rewrite Htok.
  - apply bind_ok in H as (st1 & _ & H). eauto.
Qed.

Lemma build_loop_raises (cs : list dict) (k : nat)
  (st : list nat * list (string * list InvertedIndexEntry)) (e : exn) :
  foldM index_chunk (enumerate_from k cs) st = Raise e ->
  e = AttributeError /\
  exists c, In c cs /\ text_or_false (content_of c) = false.
Proof.
  revert k st. induction cs as [|c cs IH]; cbn; intros k st H; [discriminate|].
  destruct st as [lens idx]. unfold index_chunk at 1 in H.
  destruct (tokenize (dict_get_or c "content" (VStr ""))) as [toks|e'] eqn:Et;
    cbn in H.
  - apply IH in H as (He & c' & Hin & Hc'). eauto.
  - inversion H; subst e'. apply tokenize_raises in Et as [He Ht]. eauto.
Qed.

Lemma idf_fold_assoc (f : list InvertedIndexEntry -> Q)
  (idx : list (string * list InvertedIndexEntry)) (cache : list (string * Q))
  (t : string) :
  NoDup (map fst idx) ->
  assoc t (fold_left (fun cache tp => dict_set cache (fst tp) (f (snd tp)))
             idx cache)
  = match assoc t idx with
    | Some ps => Some (f ps)
    | None => assoc t cache
    end.
Proof.
  revert cache. induction idx as [|[t0 ps0] idx IH]; cbn; intros cache Hnd; auto.
  inversion Hnd as [|? ? Hnot Hnd']; subst.
  rewrite IH by exact Hnd'.
  destruct (String.eqb t t0) eqn:E.
  - apply String.eqb_eq in E. subst t0.
    apply assoc_none_not_in in Hnot. rewrite Hnot.
    apply assoc_dict_set_same.
  - destruct (assoc t idx); auto.
    apply assoc_dict_set_other. now apply String.eqb_neq.
Qed.

(** [build_index] establishes everything [search] relies on. *)
Lemma build_index_well_built (self idx : SimpleBM25) :
  build_index self = Ok idx ->
  well_built idx /\ chunks idx = chunks self /\
  k1 idx = k1 self /\ b idx = b self.
Proof.
  unfold build_index. intros H.
  destruct (chunks self) as [|c cs] eqn:Hcs; [discriminate|].
  rewrite <- Hcs in H.
  apply bind_ok in H as ([lens ix] & Hloop & H).
  apply build_loop_inv with (done := []) in Hloop.
  2:{ constructor.
      - reflexivity.
      - constructor.
      - intros t ps e Ha. discriminate.
      - intros t ps Ha. discriminate.
      - intros [|d'] c0 toks Hd; discriminate. }
  cbn [fst snd app] in Hloop.
  assert (Hn : 0 < List.length (chunks self)) by (rewrite Hcs; cbn; lia).
  assert (Hb : (0 <? List.length (chunks self)) = true)
    by now apply Nat.ltb_lt.
  rewrite Hb in H. inversion H; subst idx. clear H.
  split; [|repeat split; cbn; congruence].
  constructor; cbn; auto.
  intros t ps Ha.
  rewrite (idf_fold_assoc
             (fun ps => idf_of (List.length (chunks self)) (List.length ps)))
    by apply (inv_keys Hloop).
  now rewrite Ha.
Qed.


(** ** Scoring *)

Lemma list_set_length {A} (l : list A) (i : nat) (a : A) :
  List.length (list_set l i a) = List.length l.
Proof.
  revert i. induction l as [|x l IH]; intros [|i]; cbn; auto.
Qed.

Lemma list_set_same {A} (l : list A) (i : nat) (a x : A) :
  nth_error l i = Some x -> nth_error (list_set l i a) i = Some a.
Proof.
  revert i. induction l as [|y l IH]; intros [|i]; cbn; try discriminate; auto.
Qed.

Lemma list_set_le (l : list Q) (i : nat) (a x : Q) :
  nth_error l i = Some x -> (x <= a)%Q -> Forall2 Qle l (list_set l i a).
Proof.
  assert (Hrefl : forall m : list Q, Forall2 Qle m m).
  { induction m; constructor; auto. apply Qle_refl. }
  revert i. induction l as [|y l IH]; intros [|i]; cbn; try discriminate.
  - intros H Hle. inversion H; subst. constructor; auto.
  - intros H Hle. constructor; [apply Qle_refl | eauto].
Qed.

Lemma Forall2_Qle_trans (l1 l2 l3 : list Q) :
  Forall2 Qle l1 l2 -> Forall2 Qle l2 l3 -> Forall2 Qle l1 l3.
Proof.
  intros H. revert l3. induction H as [|x y l1 l2 Hxy _ IH]; intros l3 H3.
  - inversion H3. constructor.
  - inversion H3; subst. constructor; eauto using Qle_trans.
Qed.

Lemma Forall2_nth_l {A B} (P : A -> B -> Prop) l l' i x :
  Forall2 P l l' -> nth_error l i = Some x ->
  exists y, nth_error l' i = Some y /\ P x y.
Proof.
  intros H. revert i. induction H as [|a b l l' Hab _ IH]; intros [|i]; cbn;
    try discriminate.
  - intros Hx. inversion Hx; subst. eauto.
  - auto.
Qed.

Lemma Forall2_nth_r {A B} (P : A -> B -> Prop) l l' i y :
  Forall2 P l l' -> nth_error l' i = Some y ->
  exists x, nth_error l i = Some x /\ P x y.
Proof.
  intros H. revert i. induction H as [|a b l l' Hab _ IH]; intros [|i]; cbn;
    try discriminate.
  - intros Hx. inversion Hx; subst. eauto.
  - auto.
Qed.

Lemma raised_then_le (s s1 s' : list Q) (d : nat) :
  raised s s1 d -> Forall2 Qle s1 s' -> raised s s' d.
Proof.
  intros (x & y & Hx & Hy & Hlt) Hle.
  destruct (Forall2_nth_l _ Hle Hy) as (z & Hz & Hyz).
  exists x, z. repeat split; auto. eapply Qlt_le_trans; eauto.
Qed.

Lemma le_then_raised (s s1 s' : list Q) (d : nat) :
  Forall2 Qle s s1 -> raised s1 s' d -> raised s s' d.
Proof.
  intros Hle (x & y & Hx & Hy & Hlt).
  destruct (Forall2_nth_r _ Hle Hx) as (z & Hz & Hzx).
  exists z, y. repeat split; auto. eapply Qle_lt_trans; eauto.
Qed.

Lemma sum_nat_nth (l : list nat) (i x : nat) :
  nth_error l i = Some x -> x <= sum_nat l.
Proof.
  unfold sum_nat.
  revert i. induction l as [|y l IH]; intros [|i]; cbn; try discriminate.
  - intros H. inversion H. lia.
  - intros H. apply IH in H. lia.
Qed.

Lemma Qeq_bool_pos (x : Q) : (0 < x)%Q -> Qeq_bool x 0 = false.
Proof.
  intros H. destruct (Qeq_bool x 0) eqn:E; auto.
  apply Qeq_bool_eq in E. rewrite E in H. now apply Qlt_irrefl in H.
Qed.

Section Scoring.
Variable self : SimpleBM25.
Hypothesis Hwb : well_built self.
Hypothesis Hk1 : (0 <= k1 self)%Q.
Hypothesis Hb : (0 <= b self <= 1)%Q.

Lemma avg_positive (e : InvertedIndexEntry) :
  good_posting (doc_lengths self) e -> (0 < avg_doc_length self)%Q.
Proof.
  intros (_ & len & Hlen & Hpos). rewrite (wb_avg Hwb).
  apply Qlt_shift_div_l.
  - apply Qnat_pos. apply (wb_nonempty Hwb).
  - rewrite Qmult_0_l. apply Qnat_pos.
    apply sum_nat_nth in Hlen. lia.
Qed.

Lemma score_posting_ok (idf : Q) (scores : list Q) (e : InvertedIndexEntry) :
  good_posting (doc_lengths self) e ->
  List.length scores = num_docs self ->
  exists q old,
    (0 < q)%Q /\ nth_error scores (doc_id e) = Some old /\
    score_posting self idf scores e
    = Ok (list_set scores (doc_id e) (old + idf * q)%Q).
Proof.
  intros Hgood Hlen. pose proof (avg_positive Hgood) as Havg.
  destruct Hgood as (Htf & len & Hnth & Hpos).
  assert (Hd : doc_id e < List.length scores).
  { rewrite Hlen, (wb_docs Hwb), <- (inv_len (wb_inv Hwb)).
    apply nth_error_Some. congruence. }
  destruct (nth_error scores (doc_id e)) as [old|] eqn:Eold.
  2:{ apply nth_error_None in Eold. lia. }
  assert (Hratio : (0 <= b self * Qnat len / avg_doc_length self)%Q).
  { apply Qle_shift_div_l; [exact Havg|]. rewrite Qmult_0_l.
    apply Qmult_le_0_compat; [tauto|].
    change 0%Q with (Qnat 0). apply Qnat_le. lia. }
  assert (Hden : (0 < Qnat (term_freq e)
                      + k1 self * (1 - b self
                                   + b self * Qnat len / avg_doc_length self))%Q).
  { assert (H1 : (0 < Qnat (term_freq e))%Q) by (apply Qnat_pos; lia).
    assert (H2 : (0 <= k1 self * (1 - b self
                      + b self * Qnat len / avg_doc_length self))%Q).
    { apply Qmult_le_0_compat; [exact Hk1|].
      set (r := (b self * Qnat len / avg_doc_length self)%Q) in *.
      destruct Hb as [_ Hb1]. lra. }
    set (z := (k1 self * (1 - b self
                 + b self * Qnat len / avg_doc_length self))%Q) in *.
    lra. }
  exists ((Qnat (term_freq e) * (k1 self + 1))
          / (Qnat (term_freq e)
             + k1 self * (1 - b self
                          + b self * Qnat len / avg_doc_length self)))%Q, old.
  split; [|split; [reflexivity|]].
  - apply Qlt_shift_div_l; [exact Hden|]. rewrite Qmult_0_l.
    apply Qmult_lt_0_compat; [apply Qnat_pos; lia | lra].
  - unfold score_posting, list_item. rewrite Hnth. cbn [bind].
    unfold fdiv at 1. rewrite (Qeq_bool_pos Havg). cbn [bind].
    rewrite Eold. cbn [bind].
    unfold fdiv. rewrite (Qeq_bool_pos Hden). reflexivity.
Qed.

Lemma postings_fold (idf : Q) (ps : list InvertedIndexEntry)
  (scores : list Q) :
  Forall (good_posting (doc_lengths self)) ps ->
  List.length scores = num_docs self ->
  exists s',
    foldM (score_posting self idf) ps scores = Ok s' /\
    List.length s' = num_docs self /\
    ((0 < idf)%Q ->
     Forall2 Qle scores s' /\
     forall e, In e ps -> raised scores s' (doc_id e)).
Proof.
  intros Hps. revert scores.
  induction Hps as [|e ps He _ IH]; cbn; intros scores Hlen.
  - exists scores. repeat split; auto.
    + clear. induction scores; constructor; auto. apply Qle_refl.
    + intros e [].
  - destruct (score_posting_ok idf scores He Hlen)
      as (q & old & Hq & Hold & Hstep).
    rewrite Hstep. cbn [bind].
    destruct (IH (list_set scores (doc_id e) (old + idf * q)%Q))
      as (s' & Hfold & Hlen' & Hpos).
    { now rewrite list_set_length. }
    exists s'. repeat split; auto.
    + destruct (Hpos H) as [Hle _].
      eapply Forall2_Qle_trans; [|exact Hle].
      eapply list_set_le; [exact Hold|].
      assert (0 < idf * q)%Q by now apply Qmult_lt_0_compat.
      set (z := (idf * q)%Q) in *. lra.
    + intros e' [<-|Hin].
      * destruct (Hpos H) as [Hle _].
        eapply raised_then_le; [|exact Hle].
        exists old, (old + idf * q)%Q. repeat split; auto.
        -- eapply list_set_same; eauto.
        -- assert (0 < idf * q)%Q by now apply Qmult_lt_0_compat.
           set (z := (idf * q)%Q) in *. lra.
      * destruct (Hpos H) as [_ Hr].
        eapply le_then_raised; [|apply Hr; exact Hin].
        eapply list_set_le; [exact Hold|].
        assert (0 < idf * q)%Q by now apply Qmult_lt_0_compat.
        set (z := (idf * q)%Q) in *. lra.
Qed.

Lemma terms_fold (terms : list string) (scores : list Q) :
  List.length scores = num_docs self ->
  exists s',
    foldM (score_term self) terms scores = Ok s' /\
    List.length s' = num_docs self /\
    ((forall t ps, assoc t (inverted_index self) = Some ps ->
                   (0 < idf_of (num_docs self) (List.length ps))%Q) ->
     Forall2 Qle scores s' /\
     forall t d, In t terms -> has_posting (inverted_index self) t d ->
                 raised scores s' d).
Proof.
  revert scores. induction terms as [|t terms IH]; cbn; intros scores Hlen.
  - exists scores. repeat split; auto.
    + clear. induction scores; constructor; auto. apply Qle_refl.
    + intros t d [].
  - unfold score_term at 1.
    destruct (assoc t (inverted_index self)) as [ps|] eqn:Ea.
    + rewrite (wb_idf Hwb _ Ea). cbn [bind].
      destruct (postings_fold (idf_of (num_docs self) (List.length ps))
                  (ps:=ps) scores)
        as (s1 & Hs1 & Hlen1 & Hpos1); auto.
      { rewrite Forall_forall. intros e He.
        eapply (inv_good (wb_inv Hwb)); eauto. }
      rewrite Hs1. cbn [bind].
      destruct (IH s1 Hlen1) as (s' & Hs' & Hlen' & Hpos').
      exists s'. repeat split; auto.
      * destruct (Hpos1 (H _ _ Ea)) as [Hle1 _].
        destruct (Hpos' H) as [Hle' _].
        eapply Forall2_Qle_trans; eauto.
      * intros t' d [<-|Hin] Hp.
        -- destruct Hp as (ps' & e & Ha' & He & Hd).
           rewrite Ea in Ha'. inversion Ha'; subst ps'.
           destruct (Hpos1 (H _ _ Ea)) as [_ Hr1].
           destruct (Hpos' H) as [Hle' _].
           eapply raised_then_le; [|exact Hle'].
           rewrite <- Hd. now apply Hr1.
        -- destruct (Hpos1 (H _ _ Ea)) as [Hle1 _].
           destruct (Hpos' H) as [_ Hr'].
           eapply le_then_raised; [exact Hle1|]. eapply Hr'; eauto.
    + cbn [bind]. destruct (IH scores Hlen) as (s' & Hs' & Hlen' & Hpos').
      exists s'. repeat split; auto.
      * now destruct (Hpos' H).
      * intros t' d [<-|Hin] Hp.
        -- destruct Hp as (ps' & e & Ha' & _). congruence.
        -- destruct (Hpos' H) as [_ Hr']. eapply Hr'; eauto.
Qed.

End Scoring.

Lemma idf_positive (n df : nat) :
  (forall x, (1 < x)%Q -> (0 < math_log x)%Q) ->
  df <= n -> (0 < idf_of n df)%Q.
Proof.
  intros Hlog Hdf. unfold idf_of. apply Hlog.
  assert (Hden : (0 < Qnat df + 0.5)%Q).
  { assert (0 <= Qnat df)%Q
      by (change 0%Q with (Qnat 0); apply Qnat_le; lia).
    lra. }
  assert (Hratio : (0 < (Qnat n - Qnat df + 0.5) / (Qnat df + 0.5))%Q).
  { apply Qlt_shift_div_l; [exact Hden|]. rewrite Qmult_0_l.
    pose proof (Qnat_le Hdf). lra. }
  set (r := ((Qnat n - Qnat df + 0.5) / (Qnat df + 0.5))%Q) in *. lra.
Qed.

Lemma In_enumerate_from {A} (l : list A) (start i : nat) (x : A) :
  In (i, x) (enumerate_from start l)
  <-> start <= i /\ nth_error l (i - start) = Some x.
Proof.
  revert start. induction l as [|a l IH]; intros start; cbn.
  - split; [tauto|]. intros [_ H]. destruct (i - start); discriminate.
  - rewrite IH. split.
    + intros [H|[H1 H2]].
      * inversion H; subst. rewrite Nat.sub_diag. auto.
      * split; [lia|].
        replace (i - start) with (S (i - S start)) by lia. exact H2.
    + intros [H1 H2]. destruct (i - start) as [|k] eqn:E.
      * left. cbn in H2. inversion H2; subst. f_equal. lia.
      * right. split; [lia|]. cbn in H2.
        replace (i - S start) with k by lia. exact H2.
Qed.

Lemma apply_filters_loop_total (self : SimpleBM25) (filters : dict)
  (pairs acc : list (nat * Q)) :
  Forall (fun p => fst p < List.length (chunks self)) pairs ->
  foldM (fun acc p =>
           chunk <- list_item (chunks self) (fst p) ;;
           Ok (if matches_filters chunk filters then acc ++ [p] else acc))
        pairs acc
  = Ok (acc ++ filter (fun p =>
                         match nth_error (chunks self) (fst p) with
                         | Some c => matches_filters c filters
                         | None => false
                         end) pairs).
Proof.
  intros H. revert acc. induction H as [|p pairs Hp _ IH]; cbn; intros acc.
  - now rewrite app_nil_r.
  - unfold list_item.
    destruct (nth_error (chunks self) (fst p)) as [c|] eqn:E.
    2:{ apply nth_error_None in E. lia. }
    cbn [bind]. rewrite IH.
    destruct (matches_filters c filters); auto.
    now rewrite <- app_assoc.
Qed.

Lemma apply_filters_total (self : SimpleBM25) (filters : dict)
  (pairs : list (nat * Q)) :
  Forall (fun p => fst p < List.length (chunks self)) pairs ->
  exists out,
    apply_filters self filters pairs = Ok out /\
    (forall p, In p out -> In p pairs) /\
    (forall p c, In p pairs -> nth_error (chunks self) (fst p) = Some c ->
                 matches_filters c filters = true -> In p out).
Proof.
  intros H. unfold apply_filters. destruct filters as [|f filters].
  - exists pairs. auto.
  - rewrite apply_filters_loop_total by exact H. cbn [app].
    eexists. split; [reflexivity|]. split.
    + intros p Hp. now apply filter_In in Hp.
    + intros p c Hp Hc Hm. apply filter_In. split; auto. now rewrite Hc.
Qed.

Lemma scored_pairs_valid (self : SimpleBM25) (scores : list Q) :
  List.length scores = List.length (chunks self) ->
  Forall (fun p => fst p < List.length (chunks self))
         (filter (fun p => Qltb 0 (snd p)) (enumerate_from 0 scores)).
Proof.
  intros Hlen. rewrite Forall_forall. intros [i x] Hp.
  apply filter_In in Hp as [Hp _]. apply In_enumerate_from in Hp as [_ Hp].
  cbn. rewrite <- Hlen. apply nth_error_Some.
  rewrite Nat.sub_0_r in Hp. congruence.
Qed.

Lemma well_built_search_returns (idx : SimpleBM25) (q : string)
  (top_k : nat) (filters : dict) :
  well_built idx -> (0 <= k1 idx)%Q -> (0 <= b idx <= 1)%Q ->
  exists rs, search idx (VStr q) top_k filters = Ok rs.
Proof.
  intros Hwb Hk1 Hb. unfold search. rewrite (wb_built Hwb). cbn [negb].
  assert (Htok : exists terms, tokenize (VStr q) = Ok terms).
  { unfold tokenize. destruct (negb (truthy (VStr q))); eauto. }
  destruct Htok as (terms & Htok). rewrite Htok. cbn [bind].
  destruct terms as [|t terms]; [eauto|].
  destruct (terms_fold Hwb Hk1 Hb (t :: terms)
              (repeat 0%Q (num_docs idx)))
    as (s' & Hs' & Hlen & _).
  { apply repeat_length. }
  rewrite Hs'. cbn [bind].
  assert (Hvalid := @scored_pairs_valid idx s').
  rewrite Hlen, (wb_docs Hwb) in Hvalid. specialize (Hvalid eq_refl).
  destruct (apply_filters_total idx filters Hvalid) as (out & Hout & Hsub & _).
  rewrite Hout. cbn [bind].
  apply mapM_total. rewrite Forall_forall. intros p Hp.
  apply In_firstn in Hp.
  eapply Permutation_in in Hp; [|apply sort_desc_perm].
  apply Hsub in Hp. rewrite Forall_forall in Hvalid. apply Hvalid in Hp.
  unfold list_item.
  destruct (nth_error (chunks idx) (fst p)) as [c|] eqn:E.
  - cbn. eauto.
  - apply nth_error_None in E. lia.
Qed.

(** ** Building and searching *)

(** X10.  The outcome of [build_index].  It returns exactly when there is
    a chunk and every [content] is a string or a false value; the built
    index then counts the chunks, keeps the chunks and both parameters,
    and records for every chunk the number of its tokens.  Otherwise it
    raises [ValueError] (no chunk) or [AttributeError] (a content that
    is neither). *)
Theorem build_index_outcome (self : SimpleBM25) :
  match build_index self with
  | Ok idx =>
      chunks self <> [] /\
      Forall (fun c => text_or_false (content_of c) = true) (chunks self) /\
      is_built idx = true /\ chunks idx = chunks self /\
      k1 idx = k1 self /\ b idx = b self /\
      num_docs idx = List.length (chunks self) /\
      List.length (doc_lengths idx) = List.length (chunks self) /\
      forall d c toks,
        nth_error (chunks self) d = Some c ->
        tokenize (content_of c) = Ok toks ->
        nth_error (doc_lengths idx) d = Some (List.length toks)
  | Raise e =>
      (chunks self = [] /\ e = ValueError) \/
      (e = AttributeError /\
       exists c, In c (chunks self) /\ text_or_false (content_of c) = false)
  end.
Proof.
  destruct (build_index self) as [idx|e] eqn:Hbuild.
  - destruct (build_index_well_built _ Hbuild) as (Hwb & Hc & Hk & Hb).
    assert (Hne : chunks self <> []).
    { intros Hnil. unfold build_index in Hbuild. rewrite Hnil in Hbuild.
      discriminate. }
    split; [exact Hne|]. split.
    { unfold build_index in Hbuild.
      destruct (chunks self) as [|c0 cs] eqn:Hcs; [contradiction|].
      rewrite <- Hcs in *.
      apply bind_ok in Hbuild as (st & Hloop & _).
      now apply build_loop_accepts in Hloop. }
    destruct Hwb as [Hbuilt Hdocs _ Hinv _ _]. rewrite Hc in *.
    repeat split; auto.
    + rewrite (inv_len Hinv). reflexivity.
    + intros d c toks Hd Htoks.
      pose proof (inv_docs Hinv) as Hall.
      now destruct (Hall _ _ _ Hd Htoks).
  - unfold build_index in Hbuild.
    destruct (chunks self) as [|c0 cs] eqn:Hcs.
    + left. inversion Hbuild. auto.
    + right. rewrite <- Hcs in *.
      destruct (foldM index_chunk (enumerate_from 0 (chunks self)) ([], []))
        as [[lens ix]|e'] eqn:Hloop; cbn in Hbuild.
      * destruct (0 <? List.length (chunks self)); discriminate.
      * inversion Hbuild; subst e'.
        now apply build_loop_raises in Hloop.
Qed.

(** X11.  On an index that [build_index] has built with [k1 >= 0] and
    [0 <= b <= 1], [search] returns for every query string, every
    [top_k] and every filter dictionary: no index, key or division error
    can occur. *)
Theorem search_after_build_returns (self idx : SimpleBM25) (q : string)
  (top_k : nat) (filters : dict) :
  (0 <= k1 self)%Q -> (0 <= b self <= 1)%Q ->
  build_index self = Ok idx ->
  exists rs, search idx (VStr q) top_k filters = Ok rs.
Proof.
  intros Hk1 Hb Hbuild.
  destruct (build_index_well_built _ Hbuild) as (Hwb & _ & Hk & Hb').
  apply well_built_search_returns; auto; congruence.
Qed.

(** X12.  [search] misses nothing.  On a built index (with [k1 >= 0],
    [0 <= b <= 1] and a logarithm that is positive above 1), the scoring
    loop of [search] returns a score list, and a chunk at position [d]
    that shares a token with the query and passes the filters has a
    positive score [s] at position [d] of that list; the chunk is
    returned with this score [s], unless [top_k] results are returned
    that all score at least [s]. *)
Theorem bm25_search_complete (self idx : SimpleBM25) (query : value)
  (qterms : list string) (top_k : nat) (filters : dict) (d : nat) (c : dict)
  (toks : list string) (t : string) (rs : list dict) :
  (forall x, (1 < x)%Q -> (0 < math_log x)%Q) ->
  (0 <= k1 self)%Q -> (0 <= b self <= 1)%Q ->
  build_index self = Ok idx ->
  nth_error (chunks self) d = Some c ->
  tokenize (content_of c) = Ok toks ->
  tokenize query = Ok qterms ->
  In t toks -> In t qterms ->
  satisfies_filters c filters ->
  search idx query top_k filters = Ok rs ->
  exists scores s,
    foldM (score_term idx) qterms (repeat 0%Q (num_docs idx)) = Ok scores /\
    nth_error scores d = Some s /\
    (0 < s)%Q /\
    (In (with_scores c s) rs \/
     (List.length rs = top_k /\
      Forall (fun r => (s <= float_field r "bm25_score")%Q) rs)).
Proof.
  intros Hlog Hk1 Hb Hbuild Hd Htoks Hq Ht Htq Hsat H.
  destruct (build_index_well_built _ Hbuild) as (Hwb & Hc & Hk & Hb').
  rewrite <- Hk in Hk1. rewrite <- Hb' in Hb. rewrite <- Hc in Hd.
  unfold search in H. rewrite (wb_built Hwb), Hq in H. cbn [negb bind] in H.
  destruct qterms as [|t0 qt]; [contradiction|].
  apply bind_ok in H as (scores & Hsc & H).
  apply bind_ok in H as (out & Hout & H).
  apply mapM_ok in H.
  destruct (terms_fold Hwb Hk1 Hb (t0 :: qt) (repeat 0%Q (num_docs idx)))
    as (s' & Hs' & Hlen & Hpos).
  { apply repeat_length. }
  rewrite Hs' in Hsc. inversion Hsc; subst s'. clear Hsc.
  destruct Hpos as [_ Hraised].
  { intros t' ps Ha. apply idf_positive; auto.
    rewrite (wb_docs Hwb). pose proof (inv_df (wb_inv Hwb)) as Hdf. apply (Hdf _ _ Ha). }
  pose proof (inv_docs (wb_inv Hwb)) as Hall.
  destruct (Hall _ _ _ Hd Htoks) as [_ Hpost].
  destruct (Hraised t d Htq (Hpost t Ht)) as (x & y & Hx & Hy & Hxy).
  assert (Hdn : d < num_docs idx).
  { rewrite (wb_docs Hwb). apply nth_error_Some. congruence. }
  rewrite nth_error_repeat in Hx by exact Hdn. inversion Hx; subst x.
  exists scores, y.
  split; [exact Hs'|]. split; [exact Hy|]. split; [exact Hxy|].
  assert (Hvalid := @scored_pairs_valid idx scores).
  rewrite Hlen, (wb_docs Hwb) in Hvalid. specialize (Hvalid eq_refl).
  destruct (apply_filters_total idx filters Hvalid) as (out' & Hout' & _ & Hin).
  rewrite Hout' in Hout. inversion Hout; subst out'. clear Hout.
  assert (Hmem : In (d, y) (sort_desc snd out)).
  { eapply Permutation_in; [apply Permutation_sym, sort_desc_perm|].
    apply (Hin (d, y) c); auto.
    - apply filter_In. split.
      + apply In_enumerate_from. split; [lia|].
        now rewrite Nat.sub_0_r.
      + now apply Qltb_lt.
    - now apply matches_filters_spec. }
  rewrite <- (firstn_skipn top_k (sort_desc snd out)) in Hmem.
  apply in_app_or in Hmem as [Hmem|Hmem].
  - left. destruct (Forall2_In_l _ H Hmem) as (r & Hr & Hf).
    cbn [fst snd] in Hf. unfold list_item in Hf. rewrite Hd in Hf.
    cbn in Hf. inversion Hf. subst r. exact Hr.
  - right.
    assert (Hk' : top_k < List.length (sort_desc snd out)).
    { destruct (Nat.lt_ge_cases top_k (List.length (sort_desc snd out)));
        auto.
      rewrite skipn_all2 in Hmem by assumption. contradiction. }
    split.
    + apply Forall2_length in H. rewrite <- H, length_firstn. lia.
    + rewrite Forall_forall. intros r Hr.
      destruct (Forall2_In_r _ H Hr) as (p & Hp & Hf).
      apply bind_ok in Hf as (c' & _ & Hf). inversion Hf; subst r.
      unfold float_field. rewrite with_scores_bm25.
      pose proof (sort_desc_sorted snd out) as Hsorted.
      rewrite <- (firstn_skipn top_k (sort_desc snd out)) in Hsorted.
      pose proof (StronglySorted_app_inv _ _ Hsorted) as Happ.
      apply (Happ p (d, y) Hp Hmem).
Qed.

Lemma mapM_firstn {A B} (f : A -> result B) (l : list A) (rs : list B)
  (k : nat) :
  mapM f l = Ok rs -> mapM f (firstn k l) = Ok (firstn k rs).
Proof.
  revert rs k. induction l as [|a l IH]; cbn; intros rs k H.
  - inversion H. now destruct k.
  - apply bind_ok in H as (b0 & Hb & H).
    apply bind_ok in H as (bs & Hbs & H). inversion H; subst rs.
    destruct k as [|k]; cbn; auto.
    rewrite Hb. cbn. rewrite (IH _ k Hbs). reflexivity.
Qed.

(** X13.  Asking for fewer results gives a prefix of asking for more:
    when [search] returns for [top_k'], it returns for every smaller
    [top_k], and the result is the list of the first [top_k] results. *)
Theorem search_top_k_prefix (self : SimpleBM25) (query : value)
  (top_k top_k' : nat) (filters : dict) (rs' : list dict) :
  top_k <= top_k' ->
  search self query top_k' filters = Ok rs' ->
  search self query top_k filters = Ok (firstn top_k rs').
Proof.
  intros Hk. unfold search.
  destruct (negb (is_built self)); [discriminate|].
  destruct (tokenize query) as [terms|e]; [|discriminate]. cbn [bind].
  destruct terms as [|t terms].
  { intros H. inversion H. now rewrite firstn_nil. }
  destruct (foldM (score_term self) (t :: terms) (repeat 0%Q (num_docs self)))
    as [scores|e]; [|discriminate].
  cbn [bind].
  destruct (apply_filters self filters _) as [pairs|e]; [|discriminate].
  cbn [bind]. intros H.
  apply mapM_firstn with (k := top_k) in H.
  rewrite firstn_firstn in H.
  now replace (Nat.min top_k top_k') with top_k in H by lia.
Qed.

End WithRuntime.

(** ** The theorems at work on the three-chunk corpus *)

Lemma toy_log_positive (x : Q) :
  (1 < x)%Q -> (0 < math_log (Runtime:=Scenario.toy_runtime) x)%Q.
Proof.
  intros Hx. cbn. apply Qlt_shift_div_l; lra.
Qed.

Lemma search_after_build_returns_witness :
  exists rs,
    search (RT:=Scenario.toy_runtime) Scenario.demo_bm25
      (VStr "ket hon khong co trong kho") 5 [("chunk_tier", VStr "child")]
    = Ok rs.
Proof.
  apply (@search_after_build_returns Scenario.toy_runtime
           (init Scenario.demo_chunks 1.5 0.75) Scenario.demo_bm25).
  - vm_compute. discriminate.
  - split; vm_compute; discriminate.
  - vm_compute. reflexivity.
Defined.

Lemma bm25_search_complete_witness :
  exists c rs scores s,
    nth_error Scenario.demo_chunks 1 = Some c /\
    search (RT:=Scenario.toy_runtime) Scenario.demo_bm25
      (VStr "thu tuc ket hon") 1 [("chunk_tier", VStr "child")] = Ok rs /\
    foldM (score_term Scenario.demo_bm25)
      ["thu"; "tuc"; "ket"; "hon"]
      (repeat 0%Q (num_docs Scenario.demo_bm25)) = Ok scores /\
    nth_error scores 1 = Some s /\
    (0 < s)%Q /\
    (In (with_scores c s) rs \/
     (List.length rs = 1 /\
      Forall (fun r => (s <= float_field r "bm25_score")%Q) rs)).
Proof.
  assert (Hok : is_ok (search (RT:=Scenario.toy_runtime) Scenario.demo_bm25
                         (VStr "thu tuc ket hon") 1
                         [("chunk_tier", VStr "child")]) = true)
    by (vm_compute; reflexivity).
  destruct (search (RT:=Scenario.toy_runtime) Scenario.demo_bm25
              (VStr "thu tuc ket hon") 1 [("chunk_tier", VStr "child")])
    as [rs|e] eqn:E; [|discriminate].
  eexists. exists rs.
  destruct (@bm25_search_complete Scenario.toy_runtime
              (init Scenario.demo_chunks 1.5 0.75) Scenario.demo_bm25
              (VStr "thu tuc ket hon") ["thu"; "tuc"; "ket"; "hon"] 1
              [("chunk_tier", VStr "child")] 1 _
              ["dang"; "ky"; "ket"; "hon"] "ket" rs
              toy_log_positive
              ltac:(vm_compute; discriminate)
              ltac:(split; vm_compute; discriminate)
              ltac:(vm_compute; reflexivity)
              eq_refl
              ltac:(vm_compute; reflexivity)
              ltac:(vm_compute; reflexivity)
              ltac:(cbn; tauto)
              ltac:(cbn; tauto)
              ltac:(repeat constructor)
              E) as (scores & s & Hsc & Hd & Hs & Hres).
  exists scores, s. split; [reflexivity|]. split; [reflexivity|].
  split; [exact Hsc|]. split; [exact Hd|].
  split; [exact Hs | exact Hres].
Defined.

Lemma search_top_k_prefix_witness :
  exists rs',
    search (RT:=Scenario.toy_runtime) Scenario.demo_bm25
      (VStr "dang ky nghia vu") 3 [] = Ok rs' /\
    search (RT:=Scenario.toy_runtime) Scenario.demo_bm25
      (VStr "dang ky nghia vu") 1 [] = Ok (firstn 1 rs').
Proof.
  eexists. split; [vm_compute; reflexivity|].
  apply (@search_top_k_prefix Scenario.toy_runtime Scenario.demo_bm25
           (VStr "dang ky nghia vu") 1 3 []).
  - lia.
  - vm_compute. reflexivity.
Defined.

End BM25More.

(* ------------------------------------------------------------------ *)
(** * Further properties of the reranker                               *)
(* ------------------------------------------------------------------ *)

Module RerankerMore.
Import Reranker PyFacts PyMore RerankerFacts.

Lemma score_chunk_cross_encoder (self : CrossEncoderReranker) query i c r :
  score_chunk self query (i, c) = Ok r ->
  cross_encoder_score r = 0.5%Q \/
  exists text, remote_score self query text = Some (cross_encoder_score r).
Proof.
  unfold score_chunk. intros H.
  apply bind_ok in H as (s & _ & H).
  apply bind_ok in H as (bm & _ & H).
  apply bind_ok in H as (ce & Hce & H).
  inversion H; subst r; cbn. clear H.
  destruct (use_cross_encoder self) eqn:Hu.
  - destruct (dict_get_or c "content" (VStr "")); try discriminate.
    unfold score_pair in Hce. rewrite Hu in Hce. cbn in Hce.
    destruct (remote_score self query s0) eqn:Er; inversion Hce; subst; eauto.
  - inversion Hce. auto.
Qed.

Lemma scored_chunks (self : CrossEncoderReranker) query (chunks : list dict)
  (start : nat) (scored : list RerankResult) :
  mapM (score_chunk self query) (enumerate_from start chunks) = Ok scored ->
  map chunk scored = chunks /\
  Forall (fun r => exists i, score_chunk self query (i, chunk r) = Ok r)
         scored.
Proof.
  revert start scored. induction chunks as [|c chunks IH]; cbn;
    intros start scored H.
  - inversion H. split; auto.
  - apply bind_ok in H as (r & Hr & H).
    apply bind_ok in H as (rs & Hrs & H). inversion H; subst scored.
    destruct (IH _ _ Hrs) as [H1 H2]. cbn.
    pose proof (score_chunk_ok _ _ _ _ Hr) as (Hc & _).
    split; [now rewrite Hc, H1|].
    constructor; auto. exists start. now rewrite Hc.
Qed.

Lemma set_rank_fields (ir : nat * RerankResult) :
  chunk (set_rank ir) = chunk (snd ir) /\
  ensemble_score (set_rank ir) = ensemble_score (snd ir).
Proof. destruct ir as [i r]. split; reflexivity. Qed.

Lemma map_set_rank_chunks (start : nat) (l : list RerankResult) :
  map chunk (map set_rank (enumerate_from start l)) = map chunk l /\
  map ensemble_score (map set_rank (enumerate_from start l))
  = map ensemble_score l.
Proof.
  revert start. induction l as [|r l IH]; intros start; cbn; auto.
  destruct (IH (S start)) as [H1 H2]. now rewrite H1, H2.
Qed.

Lemma In_ranked (start : nat) (l : list RerankResult) (r : RerankResult) :
  In r (map set_rank (enumerate_from start l)) ->
  exists r0, In r0 l /\ chunk r = chunk r0 /\
             ensemble_score r = ensemble_score r0.
Proof.
  revert start. induction l as [|x l IH]; intros start; cbn; [tauto|].
  intros [<-|H].
  - exists x. auto.
  - destruct (IH _ H) as (r0 & Hin & Heq). eauto.
Qed.

(** X14.  [rerank] keeps the best candidates and loses nothing else: it
    returns [min(top_k, len(chunks))] results, the returned chunks
    together with the dropped ones are the input chunks, every result
    carries the score that the scoring loop gives its chunk, and no
    dropped candidate scores higher than a returned one. *)
Theorem rerank_keeps_the_best (self : CrossEncoderReranker) (query : string)
  (chunks : list dict) (top_k : nat) (rs : list RerankResult) :
  rerank self query chunks top_k = Ok rs ->
  List.length rs = Nat.min top_k (List.length chunks) /\
  exists dropped,
    Permutation (map chunk rs ++ map chunk dropped) chunks /\
    Forall (fun r => exists i r0,
                score_chunk self query (i, chunk r) = Ok r0 /\
                ensemble_score r0 = ensemble_score r) (rs ++ dropped) /\
    forall r d, In r rs -> In d dropped ->
                (ensemble_score d <= ensemble_score r)%Q.
Proof.
  unfold rerank. intros H.
  destruct chunks as [|c chunks].
  { inversion H; subst. cbn. split; [lia|].
    exists []. repeat split; auto. intros r d []. }
  apply bind_ok in H as (scored & Hsc & H). inversion H; subst rs; clear H.
  apply scored_chunks in Hsc as [Hchunks Hscored].
  set (ranked := map set_rank
                   (enumerate_from 1 (sort_desc ensemble_score scored))).
  assert (Hlen : List.length ranked = List.length (c :: chunks)).
  { unfold ranked. rewrite length_map, length_enumerate_from.
    rewrite (Permutation_length (sort_desc_perm ensemble_score scored)).
    rewrite <- Hchunks. now rewrite length_map. }
  split; [rewrite length_firstn, Hlen; reflexivity|].
  exists (skipn top_k ranked). split; [|split].
  - rewrite <- map_app, firstn_skipn. unfold ranked.
    rewrite (proj1 (map_set_rank_chunks 1 _)), <- Hchunks.
    apply Permutation_map. apply sort_desc_perm.
  - rewrite firstn_skipn. rewrite Forall_forall. intros r Hr.
    apply In_ranked in Hr as (r0 & Hin & Hc & He).
    eapply Permutation_in in Hin; [|apply sort_desc_perm].
    rewrite Forall_forall in Hscored.
    destruct (Hscored _ Hin) as (i & Hi).
    exists i, r0. rewrite Hc. auto.
  - intros r d Hr Hd.
    assert (Hs : StronglySorted
                   (fun r1 r2 => (ensemble_score r2 <= ensemble_score r1)%Q)
                   ranked).
    { eapply StronglySorted_Forall2;
        [| apply (proj1 (set_rank_enumerate 1 _)) | apply sort_desc_sorted].
      intros a b a' b' [_ Ha] [_ Hb] Hle. cbn beta in *.
      now rewrite Ha, Hb. }
    rewrite <- (firstn_skipn top_k ranked) in Hs.
    apply (StronglySorted_app_inv _ _ Hs r d Hr Hd).
Qed.

Lemma convex_unit (w1 w2 w3 x1 x2 x3 : Q) :
  (0 <= w1)%Q -> (0 <= w2)%Q -> (0 <= w3)%Q -> (w1 + w2 + w3 == 1)%Q ->
  (0 <= x1 <= 1)%Q -> (0 <= x2 <= 1)%Q -> (0 <= x3 <= 1)%Q ->
  (0 <= w1 * x1 + w2 * x2 + w3 * x3 <= 1)%Q.
Proof.
  intros H1 H2 H3 Hs [L1 U1] [L2 U2] [L3 U3].
  assert (A1 : (0 <= w1 * x1)%Q) by now apply Qmult_le_0_compat.
  assert (A2 : (0 <= w2 * x2)%Q) by now apply Qmult_le_0_compat.
  assert (A3 : (0 <= w3 * x3)%Q) by now apply Qmult_le_0_compat.
  assert (B1 : (0 <= w1 * (1 - x1))%Q)
    by (apply Qmult_le_0_compat; auto; lra).
  assert (B2 : (0 <= w2 * (1 - x2))%Q)
    by (apply Qmult_le_0_compat; auto; lra).
  assert (B3 : (0 <= w3 * (1 - x3))%Q)
    by (apply Qmult_le_0_compat; auto; lra).
  split; nra.
Qed.

Lemma init_weights_nonneg (sw bw cw : Q) (use : bool)
  (remote : string -> string -> option Q) (r : CrossEncoderReranker) :
  (0 <= sw)%Q -> (0 <= bw)%Q -> (0 <= cw)%Q ->
  init sw bw cw use remote = Ok r ->
  (0 <= semantic_weight r)%Q /\ (0 <= bm25_weight r)%Q /\
  (0 <= cross_encoder_weight r)%Q /\ remote_score r = remote.
Proof.
  intros Hs Hb Hc. unfold init, fdiv. intros H.
  destruct (Qeq_bool (sw + bw + cw) 0) eqn:E; cbn in H; [discriminate|].
  inversion H; subst r; cbn. clear H.
  apply Qeq_bool_neq in E.
  assert (Hpos : (0 < sw + bw + cw)%Q).
  { apply Qnot_le_lt. intros Hle. apply E. lra. }
  repeat split; auto;
    (apply Qle_shift_div_l; [exact Hpos | rewrite Qmult_0_l; assumption]).
Qed.

(** X15.  With non-negative weights given to the constructor and
    cross-encoder scores between 0 and 1, every chunk that
    [rerank_simple] returns carries a [final_score] between 0 and 1 and
    keeps every other field of the candidate it comes from, except
    [original_rank]. *)
Theorem rerank_simple_scores_in_unit_interval (sw bw cw : Q) (use : bool)
  (remote : string -> string -> option Q) (self : CrossEncoderReranker)
  (query : string) (chunks : list dict) (top_k : nat) (out : list dict) :
  (0 <= sw)%Q -> (0 <= bw)%Q -> (0 <= cw)%Q ->
  (forall q t s, remote q t = Some s -> (0 <= s <= 1)%Q) ->
  init sw bw cw use remote = Ok self ->
  rerank_simple self query chunks top_k = Ok out ->
  Forall (fun c =>
            (exists s, dict_get c "final_score" = VFloat s /\
                       (0 <= s <= 1)%Q) /\
            exists c0, In c0 chunks /\
              forall k, k <> "final_score" -> k <> "original_rank" ->
                        dict_get c k = dict_get c0 k) out.
Proof.
  intros Hs Hb Hc Hremote Hinit H.
  destruct (init_weights_nonneg _ _ Hs Hb Hc Hinit) as (Ws & Wb & Wc & Hrem).
  pose proof (init_weights_sum _ _ _ _ _ Hinit) as Hsum.
  unfold rerank_simple in H. apply bind_ok in H as (rs & Hrs & H).
  inversion H; subst out; clear H.
  unfold rerank in Hrs. destruct chunks as [|c chunks].
  { inversion Hrs; subst. constructor. }
  apply bind_ok in Hrs as (scored & Hsc & Hrs). inversion Hrs; subst rs.
  clear Hrs. apply scored_chunks in Hsc as [Hchunks Hscored].
  rewrite Forall_forall. intros x Hx.
  apply in_map_iff in Hx as (r & <- & Hr).
  apply In_firstn in Hr. apply In_ranked in Hr as (r0 & Hin & Hc0 & He).
  eapply Permutation_in in Hin; [|apply sort_desc_perm].
  rewrite Forall_forall in Hscored. destruct (Hscored _ Hin) as (i & Hi).
  split.
  - exists (ensemble_score r). split.
    + rewrite dict_get_set_other by discriminate. apply dict_get_set_same.
    + rewrite He.
      pose proof (score_chunk_ok _ _ _ _ Hi)
        as (_ & _ & Hform & (s1 & _ & Hs1) & (s2 & _ & Hs2) & _).
      rewrite Hform. apply convex_unit; auto.
      * rewrite Hs1. apply clamp01_range.
      * rewrite Hs2. apply clamp01_range.
      * destruct (score_chunk_cross_encoder _ _ _ _ Hi) as [->|(t & Ht)].
        -- split; discriminate.
        -- rewrite Hrem in Ht. eauto.
  - exists (chunk r0). split.
    + rewrite <- Hchunks. now apply in_map.
    + intros k H1 H2. rewrite !dict_get_set_other by auto. now rewrite Hc0.
Qed.

Lemma rerank_keeps_the_best_witness :
  init 0.55 0.35 0.10 false (fun _ _ => None)
  = Ok RerankerScenario.default_reranker /\
  exists rs,
    rerank RerankerScenario.default_reranker "q"
      [Scenario.chunk_a; Scenario.chunk_b] 1 = Ok rs /\
    List.length rs = 1.
Proof.
  split; [reflexivity|].
  eexists. split; [vm_compute; reflexivity|].
  exact (proj1 (@rerank_keeps_the_best RerankerScenario.default_reranker "q"
                  [Scenario.chunk_a; Scenario.chunk_b] 1 _
                  ltac:(vm_compute; reflexivity))).
Defined.

Lemma rerank_simple_scores_in_unit_interval_witness :
  exists out,
    rerank_simple RerankerScenario.default_reranker "q"
      [Scenario.chunk_a; Scenario.chunk_b] 5 = Ok out /\
    Forall (fun c => exists s, dict_get c "final_score" = VFloat s /\
                               (0 <= s <= 1)%Q) out.
Proof.
  eexists. split; [vm_compute; reflexivity|].
  eapply Forall_impl;
    [| apply (@rerank_simple_scores_in_unit_interval 0.55 0.35 0.10 false
                (fun _ _ => None) RerankerScenario.default_reranker "q"
                [Scenario.chunk_a; Scenario.chunk_b] 5 _);
       [ vm_compute; discriminate | vm_compute; discriminate
       | vm_compute; discriminate | intros q t s Hf; discriminate
       | reflexivity | vm_compute; reflexivity ] ].
  cbn beta. intros c [H _]. exact H.
Defined.

End RerankerMore.

(* ------------------------------------------------------------------ *)
(** * Further properties of the exact-code lookup                      *)
(* ------------------------------------------------------------------ *)

Module VectorStoreMore.
Import VectorStore Props PyFacts PyMore VectorStoreFacts.

Lemma format_point_fields (p : Point) (s : Q) :
  dict_get (format_point p s) "mã_thủ_tục" = VStr (thu_tuc_id p) /\
  dict_get (format_point p s) "chunk_tier" = VStr (chunk_tier p) /\
  dict_get (format_point p s) "chunk_type" = VStr (chunk_type p) /\
  dict_get (format_point p s) "chunk_id" = VStr (chunk_id p) /\
  dict_get (format_point p s) "score" = VFloat s.
Proof. repeat split. Qed.

Lemma In_scroll (client : QdrantClient) (must : list FieldCondition)
  (limit : nat) (p : Point) :
  In p (scroll client must limit) ->
  In p (points client) /\ forallb (satisfies p) must = true.
Proof.
  unfold scroll. intros H. apply In_firstn in H. now apply filter_In in H.
Qed.

(** X16.  Without a chunk-type filter the lookup finds every chunk of the
    procedure: when at most 100 stored points carry the code, the result
    consists of exactly these points, each once and each with score 1. *)
Theorem search_by_code_complete (client : QdrantClient) (code : string)
  (chunk_type_filter : value) :
  truthy chunk_type_filter = false ->
  List.length (filter (fun p => String.eqb (thu_tuc_id p) code)
                      (points client)) <= 100 ->
  Permutation
    (search_by_code client code true true chunk_type_filter)
    (map (fun p => format_point p 1)
         (filter (fun p => String.eqb (thu_tuc_id p) code) (points client))).
Proof.
  intros Hf Hlen. unfold search_by_code. rewrite Hf. cbn [negb andb].
  rewrite stable_sort_perm. apply Permutation_map.
  unfold scroll.
  assert (Heq : filter
                  (fun p => forallb (satisfies p)
                              [{| key := "thu_tuc_id";
                                  match_ := MatchValue (VStr code) |}])
                  (points client)
                = filter (fun p => String.eqb (thu_tuc_id p) code)
                         (points client)).
  { apply filter_ext. intros p. cbn. apply andb_true_r. }
  rewrite Heq, firstn_all2 by exact Hlen. reflexivity.
Qed.

(** X17.  With a chunk-type filter every chunk the lookup returns carries
    the code and is either a parent chunk, returned only when parents are
    asked for and whatever its type, or a child chunk, returned only when
    children are asked for and only with a type the filter names. *)
Theorem search_by_code_respects_filter (client : QdrantClient)
  (code : string) (include_parent include_children : bool)
  (chunk_type_filter : value) (r : dict) :
  truthy chunk_type_filter = true ->
  In r (search_by_code client code include_parent include_children
          chunk_type_filter) ->
  dict_get r "mã_thủ_tục" = VStr code /\
  ((dict_get r "chunk_tier" = VStr "parent" /\ include_parent = true) \/
   (dict_get r "chunk_tier" = VStr "child" /\ include_children = true /\
    match chunk_type_filter with
    | VList l => existsb (py_eq (dict_get r "chunk_type")) l = true
    | v => py_eq (dict_get r "chunk_type") v = true
    end)).
Proof.
  intros Hf Hin. unfold search_by_code in Hin. rewrite Hf in Hin.
  cbn [negb andb] in Hin.
  eapply Permutation_in in Hin; [|apply stable_sort_perm].
  assert (Hpar : forall p,
             In p (scroll client
                     [{| key := "thu_tuc_id";
                         match_ := MatchValue (VStr code) |};
                      {| key := "chunk_tier";
                         match_ := MatchValue (VStr "parent") |}] 100) ->
             thu_tuc_id p = code /\ chunk_tier p = "parent").
  { intros p Hp. apply In_scroll in Hp as [_ Hp]. cbn in Hp.
    apply andb_true_iff in Hp as [H1 H2].
    apply andb_true_iff in H2 as [H2 _].
    apply String.eqb_eq in H1, H2. auto. }
  assert (Hchild : forall p,
             In p (scroll client
                     ([{| key := "thu_tuc_id";
                          match_ := MatchValue (VStr code) |};
                       {| key := "chunk_tier";
                          match_ := MatchValue (VStr "child") |}]
                      ++ match chunk_type_filter with
                         | VList l =>
                             [{| key := "chunk_type"; match_ := MatchAny l |}]
                         | v =>
                             [{| key := "chunk_type";
                                 match_ := MatchValue v |}]
                         end) 100) ->
             thu_tuc_id p = code /\ chunk_tier p = "child" /\
             match chunk_type_filter with
             | VList l => existsb (py_eq (VStr (chunk_type p))) l = true
             | v => py_eq (VStr (chunk_type p)) v = true
             end).
  { intros p Hp. apply In_scroll in Hp as [_ Hp]. cbn [app forallb] in Hp.
    apply andb_true_iff in Hp as [H1 H2].
    apply andb_true_iff in H2 as [H2 H3].
    cbn in H1, H2. apply String.eqb_eq in H1, H2.
    split; [exact H1|]. split; [exact H2|].
    destruct chunk_type_filter; cbn in H3; try discriminate;
      apply andb_true_iff in H3 as [H3 _]; exact H3. }
  assert (Hmain : exists p,
             r = format_point p 1 /\
             ((In p (scroll client
                       [{| key := "thu_tuc_id";
                           match_ := MatchValue (VStr code) |};
                        {| key := "chunk_tier";
                           match_ := MatchValue (VStr "parent") |}] 100) /\
               include_parent = true) \/
              (In p (scroll client
                       ([{| key := "thu_tuc_id";
                            match_ := MatchValue (VStr code) |};
                         {| key := "chunk_tier";
                            match_ := MatchValue (VStr "child") |}]
                        ++ match chunk_type_filter with
                           | VList l =>
                               [{| key := "chunk_type";
                                   match_ := MatchAny l |}]
                           | v =>
                               [{| key := "chunk_type";
                                   match_ := MatchValue v |}]
                           end) 100) /\
               include_children = true))).
  { destruct include_parent, include_children; cbn [negb] in Hin;
      repeat match type of Hin with
             | In _ (filter _ _) => apply filter_In in Hin as [Hin _]
             end;
      apply in_map_iff in Hin as (p & <- & Hp);
      try (apply in_app_or in Hp as [Hp|Hp]);
      try contradiction;
      exists p; (split; [reflexivity|]); auto. }
  destruct Hmain as (p & -> & [[Hp Hip]|[Hp Hic]]).
  - destruct (Hpar p Hp) as [H1 H2]. cbn. rewrite H1, H2. auto.
  - destruct (Hchild p Hp) as (H1 & H2 & H3). cbn. rewrite H1, H2.
    split; [reflexivity|]. right. repeat split; auto.
Qed.

(** ** The theorems at work on the nine-chunk store *)

Lemma search_by_code_complete_witness :
  Permutation
    (search_by_code (Pipeline.client Scenario.demo_collab) "1.000001"
       true true VNone)
    (map (fun p => format_point p 1)
         (filter (fun p => String.eqb (thu_tuc_id p) "1.000001")
                 Scenario.demo_points)) /\
  List.length (search_by_code (Pipeline.client Scenario.demo_collab)
                 "1.000001" true true VNone) = 8.
Proof.
  split; [|reflexivity].
  apply (@search_by_code_complete (Pipeline.client Scenario.demo_collab)
           "1.000001" VNone).
  - reflexivity.
  - vm_compute. lia.
Defined.

Lemma search_by_code_respects_filter_witness :
  dict_get
    (format_point
       (Scenario.demo_point "1.000001" "1.000001_child_process_0" "child"
          "child_process") 1) "chunk_tier" = VStr "child" /\
  py_eq
    (dict_get
       (format_point
          (Scenario.demo_point "1.000001" "1.000001_child_process_0" "child"
             "child_process") 1) "chunk_type")
    (VStr "child_process") = true.
Proof.
  destruct (@search_by_code_respects_filter
              (Pipeline.client Scenario.demo_collab) "1.000001" true true
              (VStr "child_process")
              (format_point
                 (Scenario.demo_point "1.000001" "1.000001_child_process_0"
                    "child" "child_process") 1)
              eq_refl
              ltac:(vm_compute; right; left; reflexivity))
    as [_ [[H _]|(H1 & _ & H2)]].
  - discriminate H.
  - split; [exact H1 | exact H2].
Defined.

End VectorStoreMore.

(* ------------------------------------------------------------------ *)
(** * Further properties of the retrieval pipeline                     *)
(* ------------------------------------------------------------------ *)

Module PipelineMore.
Import ContextSettings VectorStore Pipeline Props FusionProps.
Import PyFacts PyMore PipelineFacts.

(** ** Rank fusion *)

Lemma py_eq_canon (a b : value) :
  hashable a = true -> hashable b = true ->
  (py_eq a b = true <-> canon a = canon b).
Proof.
  assert (Hnum : forall x y : Q,
             Qeq_bool x y = true <-> KNum (Qred x) = KNum (Qred y)).
  { intros x y. rewrite Qeq_bool_iff. split.
    - intros H. f_equal. now apply Qred_complete.
    - intros H. inversion H as [H']. now apply Qred_eq_iff. }
  intros Ha Hb.
  destruct a as [|x|z|q|s|l|d]; try discriminate Ha;
    destruct b as [|x'|z'|q'|s'|l'|d']; try discriminate Hb;
    try (destruct x); try (destruct x'); cbn [py_eq canon as_number];
    try (split; intros H; (reflexivity || discriminate H));
    try apply Hnum.
  split; [intros H; apply String.eqb_eq in H; congruence|].
  intros H. inversion H. apply String.eqb_refl.
Qed.


Lemma fuse_add_keys (fused : list (value * Fused)) (doc_id : value)
  (d : dict) (score : Q) (is_bm25 : bool) :
  map fst (fuse_add fused doc_id d score is_bm25)
  = if existsb (py_eq doc_id) (map fst fused) then map fst fused
    else map fst fused ++ [doc_id].
Proof.
  induction fused as [|[k f] fused IH]; cbn; auto.
  destruct (py_eq doc_id k) eqn:E; cbn; auto.
  rewrite IH. now destruct (existsb (py_eq doc_id) (map fst fused)).
Qed.

Lemma fuse_add_entries (fused : list (value * Fused)) (doc_id : value)
  (d : dict) (score : Q) (is_bm25 : bool) :
  hashable doc_id = true -> dict_get d "chunk_id" = doc_id ->
  (0 < score)%Q ->
  Forall entry_ok fused ->
  Forall entry_ok (fuse_add fused doc_id d score is_bm25).
Proof.
  intros Hh Hd Hs. induction 1 as [|[k f] fused Hkf Hall IH]; cbn.
  - constructor; [|constructor]. unfold entry_ok. cbn.
    repeat split; auto; try lra; destruct is_bm25; lia.
  - destruct (py_eq doc_id k).
    + constructor; auto.
      destruct Hkf as (H1 & H2 & H3 & H4 & H5). unfold entry_ok. cbn in *.
      repeat split; auto; try lra; destruct is_bm25; lia.
    + constructor; auto.
Qed.

Lemma fuse_add_ok (fused : list (value * Fused)) (doc_id : value)
  (d : dict) (score : Q) (is_bm25 : bool) :
  hashable doc_id = true -> dict_get d "chunk_id" = doc_id ->
  (0 < score)%Q ->
  fused_ok fused ->
  fused_ok (fuse_add fused doc_id d score is_bm25) /\
  (forall v, covers fused v ->
             covers (fuse_add fused doc_id d score is_bm25) v) /\
  covers (fuse_add fused doc_id d score is_bm25) doc_id.
Proof.
  intros Hh Hd Hs [Hnd Hall].
  assert (Hrefl : py_eq doc_id doc_id = true) by now apply py_eq_canon.
  unfold fused_ok, covers. rewrite fuse_add_keys.
  destruct (existsb (py_eq doc_id) (map fst fused)) eqn:Ex.
  - repeat split; auto. now apply fuse_add_entries.
  - repeat split.
    + rewrite map_app. cbn. apply NoDup_app; auto.
      * repeat constructor. tauto.
      * intros x Hx [<-|[]].
        apply in_map_iff in Hx as (k & Hk & Hin).
        apply in_map_iff in Hin as ([k' f] & Hfst & Hin). cbn in Hfst.
        subst k'.
        assert (Hhk : hashable k = true).
        { rewrite Forall_forall in Hall. now destruct (Hall _ Hin). }
        assert (py_eq doc_id k = true) by (apply py_eq_canon; auto).
        assert (Hex : existsb (py_eq doc_id) (map fst fused) = true).
        { apply existsb_exists. exists k. split; auto.
          apply in_map_iff. now exists (k, f). }
        congruence.
    + now apply fuse_add_entries.
    + intros v Hv. rewrite existsb_app. now rewrite Hv.
    + rewrite existsb_app. cbn. rewrite Hrefl. now rewrite orb_true_r.
Qed.

Lemma rrf_term_positive (k rank : nat) (is_bm25 : bool) :
  1 <= rank ->
  (0 < (if is_bm25
        then 1 / (BM25.Qnat k + BM25.Qnat rank) * 1.2
        else 1 / (BM25.Qnat k + BM25.Qnat rank)))%Q.
Proof.
  intros Hr.
  assert (Hk : (0 <= BM25.Qnat k)%Q)
    by (change 0%Q with (BM25.Qnat 0); apply Qnat_le; lia).
  assert (Hrank : (0 < BM25.Qnat rank)%Q) by (apply Qnat_pos; lia).
  assert (Hbase : (0 < 1 / (BM25.Qnat k + BM25.Qnat rank))%Q).
  { apply Qlt_shift_div_l; lra. }
  destruct is_bm25; auto.
  apply Qmult_lt_0_compat; [exact Hbase | reflexivity].
Qed.

Section WithRuntime.
Context {RT : Runtime}.

Lemma fuse_docs_ok (is_bm25 : bool) (k : nat) (docs : list dict)
  (start : nat) (fused fused' : list (value * Fused)) :
  1 <= start -> fused_ok fused ->
  foldM (fun fused rd =>
           doc_id <- dict_item (snd rd) "chunk_id" ;;
           let base := (1 / (BM25.Qnat k + BM25.Qnat (fst rd)))%Q in
           let score := if is_bm25 then (base * 1.2)%Q else base in
           if hashable doc_id
           then Ok (fuse_add fused doc_id (snd rd) score is_bm25)
           else Raise TypeError)
        (enumerate_from start docs) fused = Ok fused' ->
  fused_ok fused' /\
  (forall v, covers fused v -> covers fused' v) /\
  (forall d, In d docs -> covers fused' (chunk_id_of d)).
Proof.
  revert start fused. induction docs as [|d docs IH]; cbn;
    intros start fused Hstart Hok H.
  - inversion H; subst. split; [exact Hok|]. split; [auto|]. intros d [].
  - apply bind_ok in H as (fused1 & Hstep & H).
    apply bind_ok in Hstep as (doc_id & Hid & Hstep). cbn [fst snd] in *.
    destruct (hashable doc_id) eqn:Hh; [|discriminate].
    inversion Hstep; subst fused1. clear Hstep.
    assert (Hget : dict_get d "chunk_id" = doc_id).
    { unfold dict_item in Hid. unfold dict_get.
      destruct (assoc "chunk_id" d); inversion Hid; auto. }
    destruct (fuse_add_ok d is_bm25 Hh Hget
                (rrf_term_positive k is_bm25 Hstart) Hok)
      as (Hok1 & Hmono1 & Hcov1).
    apply IH in H as (Hok' & Hmono' & Hcov'); auto.
    split; [exact Hok'|]. split; [auto|].
    intros d' [<-|Hin]; auto.
    apply Hmono'. unfold chunk_id_of. now rewrite Hget.
Qed.

Lemma fuse_all_ok (k : nat) (results : list (string * list dict))
  (fused fused' : list (value * Fused)) :
  fused_ok fused ->
  foldM (fun fused qr =>
           let is_bm25 := is_bm25_source (fst qr) in
           foldM (fun fused rd =>
                    doc_id <- dict_item (snd rd) "chunk_id" ;;
                    let base := (1 / (BM25.Qnat k + BM25.Qnat (fst rd)))%Q in
                    let score := if is_bm25 then (base * 1.2)%Q else base in
                    if hashable doc_id
                    then Ok (fuse_add fused doc_id (snd rd) score is_bm25)
                    else Raise TypeError)
                 (enumerate_from 1 (snd qr)) fused)
        results fused = Ok fused' ->
  fused_ok fused' /\
  (forall v, covers fused v -> covers fused' v) /\
  (forall name docs d, In (name, docs) results -> In d docs ->
                       covers fused' (chunk_id_of d)).
Proof.
  revert fused. induction results as [|[name docs] results IH]; cbn;
    intros fused Hok H.
  - inversion H; subst. split; [exact Hok|]. split; [auto|].
    intros ? ? ? [].
  - apply bind_ok in H as (fused1 & Hstep & H).
    apply fuse_docs_ok in Hstep as (Hok1 & Hmono1 & Hcov1); auto.
    apply IH in H as (Hok' & Hmono' & Hcov'); auto.
    split; [exact Hok'|]. split; [auto|].
    intros name' docs' d [Heq|Hin] Hd; eauto.
    inversion Heq; subst. auto.
Qed.

Lemma attach_fusion_fields (f : Fused) :
  chunk_id_of (attach_fusion f) = chunk_id_of (doc f) /\
  float_field (attach_fusion f) "rrf_score" = rrf_score f /\
  dict_get (attach_fusion f) "retrieval_count" = VInt (Z.of_nat (count f)) /\
  dict_get (attach_fusion f) "source_counts"
  = VDict [ ("semantic", VInt (Z.of_nat (semantic_count f)));
            ("bm25", VInt (Z.of_nat (bm25_count f))) ].
Proof.
  unfold attach_fusion, chunk_id_of, float_field. repeat split.
  - rewrite !dict_get_set_other by discriminate. reflexivity.
  - rewrite !dict_get_set_other by discriminate.
    now rewrite dict_get_set_same.
  - rewrite dict_get_set_other by discriminate. apply dict_get_set_same.
  - apply dict_get_set_same.
Qed.

Lemma StronglySorted_map {A B} (P : B -> B -> Prop) (g : A -> B)
  (l : list A) :
  StronglySorted (fun a b => P (g a) (g b)) l -> StronglySorted P (map g l).
Proof.
  induction 1 as [|a l Hs IH Ha]; cbn; constructor; auto.
  rewrite Forall_map. exact Ha.
Qed.

(** X18.  Rank fusion merges by [chunk_id].  Whenever it returns, the
    result is sorted by descending [rrf_score]; no two results share a
    [chunk_id]; every chunk of every input list is represented by the
    result with its [chunk_id]; and every result has a positive
    [rrf_score] and a [retrieval_count] of at least one that is the sum
    of its two source counts. *)
Theorem rank_fusion_merges_by_chunk_id
  (results : list (string * list dict)) (k : nat) (out : list dict) :
  _reciprocal_rank_fusion results k = Ok out ->
  StronglySorted
    (fun r1 r2 =>
       (float_field r2 "rrf_score" <= float_field r1 "rrf_score")%Q) out /\
  (forall i j ri rj,
      nth_error out i = Some ri -> nth_error out j = Some rj ->
      py_eq (chunk_id_of ri) (chunk_id_of rj) = true -> i = j) /\
  (forall name docs d,
      In (name, docs) results -> In d docs ->
      exists r, In r out /\
                py_eq (chunk_id_of d) (chunk_id_of r) = true) /\
  Forall (fun r =>
            (0 < float_field r "rrf_score")%Q /\
            exists s b : nat,
              dict_get r "source_counts"
              = VDict [ ("semantic", VInt (Z.of_nat s));
                        ("bm25", VInt (Z.of_nat b)) ] /\
              dict_get r "retrieval_count" = VInt (Z.of_nat (s + b)) /\
              1 <= s + b) out.
Proof.
  unfold _reciprocal_rank_fusion. intros H.
  apply bind_ok in H as (fused & Hfused & H). inversion H; subst out. clear H.
  apply fuse_all_ok in Hfused as ([Hnd Hall] & _ & Hcov).
  2:{ split; constructor. }
  set (sorted := sort_desc rrf_score (map snd fused)).
  assert (Hperm : Permutation sorted (map snd fused))
    by apply sort_desc_perm.
  assert (Hin : forall f, In f sorted -> exists k0, In (k0, f) fused).
  { intros f Hf. eapply Permutation_in in Hf; [|exact Hperm].
    apply in_map_iff in Hf as ([k0 f0] & Heq & Hf). cbn in Heq. subst f0.
    eauto. }
  assert (Hids : Permutation (map chunk_id_of (map attach_fusion sorted))
                             (map fst fused)).
  { rewrite map_map.
    rewrite (map_ext _ (fun f => chunk_id_of (doc f)))
      by (intros f; apply attach_fusion_fields).
    rewrite (Permutation_map _ Hperm). rewrite map_map.
    assert (Heq : map (fun x => chunk_id_of (doc (snd x))) fused
                  = map fst fused).
    { apply map_ext_in. intros kf Hkf. rewrite Forall_forall in Hall.
      now destruct (Hall _ Hkf) as (_ & H2 & _). }
    now rewrite Heq. }
  split; [|split; [|split]].
  - apply StronglySorted_map.
    eapply StronglySorted_weaken; [|apply sort_desc_sorted].
    intros a b0 Hab. cbn beta.
    destruct (attach_fusion_fields a) as (_ & -> & _).
    destruct (attach_fusion_fields b0) as (_ & -> & _). exact Hab.
  - clear Hcov. remember (map attach_fusion sorted) as out eqn:Eout.
    clear Eout. intros i j ri rj Hi Hj Heq.
    assert (Hh : Forall (fun v => hashable v = true)
                        (map chunk_id_of out)).
    { eapply Permutation_Forall; [symmetry; exact Hids|].
      rewrite Forall_map. eapply Forall_impl; [|exact Hall].
      intros kf Hkf. now destruct Hkf. }
    assert (Hnd' : NoDup (map canon (map chunk_id_of out))).
    { eapply Permutation_NoDup; [|exact Hnd].
      symmetry. now apply Permutation_map. }
    rewrite Forall_forall in Hh.
    assert (Hci : canon (chunk_id_of ri) = canon (chunk_id_of rj)).
    { apply py_eq_canon; auto; apply Hh; apply in_map;
        eapply nth_error_In; eauto. }
    rewrite NoDup_nth_error in Hnd'. apply Hnd'.
    + rewrite !length_map. apply nth_error_Some. congruence.
    + rewrite !nth_error_map. rewrite Hi, Hj. cbn. now rewrite Hci.
  - intros name docs d Hres Hd.
    specialize (Hcov name docs d Hres Hd). unfold covers in Hcov.
    apply existsb_exists in Hcov as (k0 & Hk0 & Heq).
    apply in_map_iff in Hk0 as ([k1 f] & Hfst & Hkf). cbn in Hfst. subst k1.
    exists (attach_fusion f). split.
    + apply in_map. eapply Permutation_in; [symmetry; exact Hperm|].
      apply in_map_iff. now exists (k0, f).
    + destruct (attach_fusion_fields f) as (-> & _).
      rewrite Forall_forall in Hall.
      destruct (Hall _ Hkf) as (_ & H2 & _). cbn in H2.
      unfold chunk_id_of at 2. now rewrite H2.
  - rewrite Forall_map, Forall_forall. intros f Hf.
    destruct (Hin f Hf) as (k0 & Hkf).
    rewrite Forall_forall in Hall.
    destruct (Hall _ Hkf) as (_ & _ & H3 & H4 & H5). cbn in *.
    destruct (attach_fusion_fields f) as (_ & -> & -> & ->).
    split; [exact H3|].
    exists (semantic_count f), (bm25_count f).
    rewrite <- H4. repeat split; auto.
Qed.

(** ** Cross-tier filtering *)

Lemma Forall_dict_set {V} (P : V -> Prop) (d : list (string * V))
  (k : string) (v : V) :
  Forall (fun kv => P (snd kv)) d -> P v ->
  Forall (fun kv => P (snd kv)) (dict_set d k v).
Proof.
  intros Hd Hv. induction Hd as [|[k' v'] d Hk Hd IH]; cbn.
  - repeat constructor. exact Hv.
  - destruct (String.eqb k k'); constructor; auto.
Qed.

Lemma dict_mem_dict_set {V} (d : list (string * V)) (k q : string) (v : V) :
  dict_mem q (dict_set d k v) = String.eqb q k || dict_mem q d.
Proof.
  unfold dict_mem.
  destruct (String.eqb q k) eqn:E.
  - apply String.eqb_eq in E. subst. now rewrite assoc_dict_set_same.
  - apply String.eqb_neq in E. now rewrite assoc_dict_set_other.
Qed.

Lemma fold_dict_set {V} (P : V -> Prop) (g : string -> V)
  (l : list string) (d : list (string * V)) :
  Forall (fun kv => P (snd kv)) d -> (forall q, P (g q)) ->
  Forall (fun kv => P (snd kv))
         (fold_left (fun all q => dict_set all q (g q)) l d) /\
  forall q, dict_mem q (fold_left (fun all q => dict_set all q (g q)) l d)
            = true <-> dict_mem q d = true \/ In q l.
Proof.
  intros Hd Hg. revert d Hd. induction l as [|x l IH]; cbn; intros d Hd.
  - split; auto. intros q. tauto.
  - destruct (IH (dict_set d x (g x))) as [H1 H2].
    { now apply Forall_dict_set. }
    split; auto. intros q. rewrite H2, dict_mem_dict_set.
    rewrite orb_true_iff, String.eqb_eq. intuition auto.
Qed.

Lemma mark_children (parent_ids : list value) (child_results : list dict) :
  let filtered :=
    filter (fun ch => existsb (py_eq (dict_get ch "mã_thủ_tục")) parent_ids)
           child_results in
  let marked :=
    match filtered, child_results with
    | [], _ :: _ =>
        map (fun ch => dict_set ch "cross_tier_match" (VBool false))
            (firstn 5 child_results)
    | _, _ =>
        map (fun ch => dict_set ch "cross_tier_match" (VBool true)) filtered
    end in
  Forall (fun ch =>
            dict_get ch "cross_tier_match" = VBool true /\
            existsb (py_eq (dict_get ch "mã_thủ_tục")) parent_ids = true)
         marked \/
  (marked <> [] /\ List.length marked <= 5 /\
   Forall (fun ch => dict_get ch "cross_tier_match" = VBool false) marked).
Proof.
  cbv zeta.
  set (filtered := filter _ child_results).
  assert (Htrue :
            Forall (fun ch =>
                      dict_get ch "cross_tier_match" = VBool true /\
                      existsb (py_eq (dict_get ch "mã_thủ_tục")) parent_ids
                      = true)
                   (map (fun ch => dict_set ch "cross_tier_match"
                                     (VBool true)) filtered)).
  { rewrite Forall_map, Forall_forall. intros ch Hch.
    apply filter_In in Hch as [_ Hch]. split.
    - apply dict_get_set_same.
    - rewrite dict_get_set_other by discriminate. exact Hch. }
  destruct filtered as [|f fs] eqn:Ef; [|left; exact Htrue].
  destruct child_results as [|c cs]; [left; exact Htrue|].
  right. split; [discriminate|]. split.
  - rewrite length_map, length_firstn. lia.
  - rewrite Forall_map, Forall_forall. intros ch _.
    apply dict_get_set_same.
Qed.

(** X19.  What Stage 4 hands to the fusion.  There is one list for every
    query variation, and each list is of one of two kinds: every chunk in
    it is marked [cross_tier_match = True] and belongs to the procedure
    of a retrieved parent chunk; or, when no retrieved child belongs to
    such a procedure, it holds between one and five chunks, all marked
    [cross_tier_match = False]. *)
Theorem child_chunks_are_marked (self : HierarchicalRetrievalPipeline)
  (query_info : QueryInfo) (top_k_parent top_k_child : nat) :
  let parents :=
    fst (_hierarchical_retrieve self query_info top_k_parent top_k_child) in
  let children :=
    snd (_hierarchical_retrieve self query_info top_k_parent top_k_child) in
  (forall q, dict_mem q children = true <->
             In q (query_variations query_info)) /\
  Forall (fun kv =>
            Forall (fun ch =>
                      dict_get ch "cross_tier_match" = VBool true /\
                      exists p, In p parents /\
                        py_eq (dict_get ch "mã_thủ_tục")
                              (dict_get p "mã_thủ_tục") = true) (snd kv) \/
            (snd kv <> [] /\ List.length (snd kv) <= 5 /\
             Forall (fun ch => dict_get ch "cross_tier_match" = VBool false)
                    (snd kv))) children.
Proof.
  unfold _hierarchical_retrieve. cbv zeta. cbn [fst snd].
  set (parents := VectorStore.search _ _ top_k_parent _).
  match goal with
  | |- context [fold_left ?f _ _] =>
      match f with
      | (fun all q => dict_set all q (@?g q)) =>
          destruct (@fold_dict_set (list dict)
                      (fun l =>
                         Forall (fun ch =>
                            dict_get ch "cross_tier_match" = VBool true /\
                            exists p, In p parents /\
                              py_eq (dict_get ch "mã_thủ_tục")
                                    (dict_get p "mã_thủ_tục") = true) l \/
                         (l <> [] /\ List.length l <= 5 /\
                          Forall (fun ch =>
                             dict_get ch "cross_tier_match" = VBool false) l))
                      g (query_variations query_info) [])
            as [H1 H2]
      end
  end.
  - constructor.
  - intros q. cbv beta.
    match goal with
    | |- context [filter _ ?cr] =>
        destruct (mark_children
                    (map (fun r => dict_get r "mã_thủ_tục") parents) cr)
          as [H|H]
    end.
    + left. eapply Forall_impl; [|exact H].
      intros ch [Hm Hex]. split; auto.
      apply existsb_exists in Hex as (v & Hv & Heq).
      apply in_map_iff in Hv as (p & <- & Hp). eauto.
    + right. exact H.
  - split; [|exact H1].
    intros q. rewrite H2. cbn. intuition discriminate.
Qed.

(** ** The cache in front of the pipeline *)

Lemma retrieve_uncached_state (self self' : HierarchicalRetrievalPipeline)
  (now : Q) (question : string) (emb : option (list Q)) (kp kc : nat)
  (r : RetrievalResult) :
  retrieve_uncached self now question emb kp kc = Ok (r, self') ->
  self' = cache_result self now question emb r.
Proof.
  unfold retrieve_uncached. intros H.
  apply bind_ok in H as (cfg & _ & H).
  apply bind_ok in H as (chunks & _ & H).
  destruct (exact_match_routing self _) as [[code rs]|];
    apply bind_ok in H as (r0 & _ & H); now inversion H.
Qed.

(** X20.  A question that has just been answered is answered from the
    cache.  After a call of [retrieve] that missed the cache and returned
    a result, a second call with the same question, made before the time
    to live has passed, returns the same result with one more cache hit,
    whatever the other arguments. *)
Theorem repeated_question_is_served_from_cache
  (self self' : HierarchicalRetrievalPipeline)
  (c : Cache.SemanticCache RetrievalResult) (now now' now2 now2' : Q)
  (question : string) (kp kc kf kp2 kc2 kf2 : nat) (r : RetrievalResult) :
  cache self = Some c ->
  NoDup (CacheStatsView.keys c) ->
  cache_miss self now question ->
  retrieve self now now' question kp kc kf = Ok (r, self') ->
  (now2 - now' <= Cache.ttl_seconds c)%Q ->
  exists self'' c' c'',
    retrieve self' now2 now2' question kp2 kc2 kf2 = Ok (r, self'') /\
    cache self' = Some c' /\ cache self'' = Some c'' /\
    Cache.hits (Cache.stats c'') = S (Cache.hits (Cache.stats c')) /\
    Cache.misses (Cache.stats c'') = Cache.misses (Cache.stats c').
Proof.
  intros Hc Hnd Hmiss H Hfresh.
  unfold cache_miss in Hmiss. rewrite Hc in Hmiss.
  unfold retrieve in H. rewrite Hc in H.
  pose proof (CacheMore.get_keys c now question
                (encode (collab self) question) Hnd) as Hnd1.
  pose proof (CacheMore.get_ttl c now question
                (encode (collab self) question)) as Httl.
  destruct (Cache.get c now question (encode (collab self) question))
    as [c1 cached]. cbn [fst snd] in *. subst cached.
  apply retrieve_uncached_state in H. subst self'.
  unfold cache_result, retrieve. cbn [cache with_cache collab].
  rewrite <- Httl in Hfresh.
  destruct (@CacheMore.put_get_same_query RetrievalResult RT c1 now' now2
              question (encode (collab self) question)
              (encode (collab self) question) r Hnd1 Hfresh)
    as (Hget & Hhits & Hmisses & _).
  destruct (CacheFacts.put_counts c1 now' question
              (encode (collab self) question) r) as (Hh & Hm & _).
  destruct (Cache.get
              (Cache.put c1 now' question (encode (collab self) question) r)
              now2 question (encode (collab self) question))
    as [c2 cached]. cbn [fst snd] in *. subst cached.
  eexists _, _, _. split; [reflexivity|].
  split; [reflexivity|]. split; [reflexivity|].
  split; congruence.
Qed.

End WithRuntime.

(** ** The whole call *)

Lemma dict_item_dict_set_other (d : dict) (k k' : string) (v : value) :
  k <> k' -> dict_item (dict_set d k' v) k = dict_item d k.
Proof.
  intros H. unfold dict_item. now rewrite assoc_dict_set_other.
Qed.

Lemma dict_get_or_dict_set_other (d : dict) (k k' : string) (v dflt : value) :
  k <> k' -> dict_get_or (dict_set d k' v) k dflt = dict_get_or d k dflt.
Proof.
  intros H. unfold dict_get_or. now rewrite assoc_dict_set_other.
Qed.

Lemma dict_get_or_dict_set_same (d : dict) (k : string) (v dflt : value) :
  dict_get_or (dict_set d k v) k dflt = v.
Proof. unfold dict_get_or. now rewrite assoc_dict_set_same. Qed.

Lemma semantic_doc_ready (p : Point) (s : Q) (m : value) :
  has_chunk_id (dict_set (format_point p s) "cross_tier_match" m) /\
  scorable (dict_set (format_point p s) "cross_tier_match" m).
Proof.
  split.
  - exists (VStr (chunk_id p)). split; [|reflexivity].
    rewrite dict_item_dict_set_other by discriminate. reflexivity.
  - split; rewrite dict_get_or_dict_set_other by discriminate; reflexivity.
Qed.

Lemma keyword_doc_ready (c : dict) (s : Q) :
  has_chunk_id c ->
  has_chunk_id (BM25.with_scores c s) /\ scorable (BM25.with_scores c s).
Proof.
  intros (id & Hid & Hh). unfold BM25.with_scores. split.
  - exists id. split; auto.
    now rewrite !dict_item_dict_set_other by discriminate.
  - split.
    + rewrite dict_get_or_dict_set_other by discriminate.
      now rewrite dict_get_or_dict_set_same.
    + now rewrite dict_get_or_dict_set_same.
Qed.

Lemma attach_fusion_scorable (f : Fused) :
  scorable (doc f) -> scorable (attach_fusion f).
Proof.
  unfold scorable, attach_fusion.
  now rewrite !dict_get_or_dict_set_other by discriminate.
Qed.

Lemma In_enumerate_from_value {A} (l : list A) (start i : nat) (x : A) :
  In (i, x) (enumerate_from start l) -> In x l.
Proof.
  revert start. induction l as [|a l IH]; intros start; cbn; [tauto|].
  intros [H|H]; [inversion H; auto | right; eauto].
Qed.

Lemma fuse_add_docs (P : dict -> Prop) (fused : list (value * Fused))
  (doc_id : value) (d : dict) (score : Q) (is_bm25 : bool) :
  P d -> Forall (fun kf => P (doc (snd kf))) fused ->
  Forall (fun kf => P (doc (snd kf)))
         (fuse_add fused doc_id d score is_bm25).
Proof.
  intros Hd. induction 1 as [|[k f] fused Hkf Hall IH]; cbn.
  - repeat constructor. exact Hd.
  - destruct (py_eq doc_id k); constructor; auto.
Qed.

Section WithRuntime.
Context {RT : Runtime}.

Lemma fuse_docs_total (P : dict -> Prop) (is_bm25 : bool) (k : nat)
  (docs : list dict) (start : nat) (fused : list (value * Fused)) :
  Forall (fun d => has_chunk_id d /\ P d) docs ->
  Forall (fun kf => P (doc (snd kf))) fused ->
  exists fused',
    foldM (fun fused rd =>
             doc_id <- dict_item (snd rd) "chunk_id" ;;
             let base := (1 / (BM25.Qnat k + BM25.Qnat (fst rd)))%Q in
             let score := if is_bm25 then (base * 1.2)%Q else base in
             if hashable doc_id
             then Ok (fuse_add fused doc_id (snd rd) score is_bm25)
             else Raise TypeError)
          (enumerate_from start docs) fused = Ok fused' /\
    Forall (fun kf => P (doc (snd kf))) fused'.
Proof.
  intros Hdocs. revert start fused.
  induction Hdocs as [|d docs [(id & Hid & Hh) Hd] _ IH]; cbn;
    intros start fused Hf.
  - eauto.
  - rewrite Hid. cbn [bind]. rewrite Hh. cbn [bind].
    apply IH. now apply fuse_add_docs.
Qed.

Lemma fuse_all_total (P : dict -> Prop) (k : nat)
  (results : list (string * list dict)) (fused : list (value * Fused)) :
  Forall (fun qr => Forall (fun d => has_chunk_id d /\ P d) (snd qr))
         results ->
  Forall (fun kf => P (doc (snd kf))) fused ->
  exists fused',
    foldM (fun fused qr =>
             let is_bm25 := is_bm25_source (fst qr) in
             foldM (fun fused rd =>
                      doc_id <- dict_item (snd rd) "chunk_id" ;;
                      let base :=
                        (1 / (BM25.Qnat k + BM25.Qnat (fst rd)))%Q in
                      let score :=
                        if is_bm25 then (base * 1.2)%Q else base in
                      if hashable doc_id
                      then Ok (fuse_add fused doc_id (snd rd) score is_bm25)
                      else Raise TypeError)
                   (enumerate_from 1 (snd qr)) fused)
          results fused = Ok fused' /\
    Forall (fun kf => P (doc (snd kf))) fused'.
Proof.
  intros Hres. revert fused.
  induction Hres as [|[name docs] results Hd _ IH]; cbn; intros fused Hf.
  - eauto.
  - destruct (fuse_docs_total P (is_bm25_source name) k 1 Hd Hf)
      as (fused1 & Hstep & Hf1).
    cbn [fst snd] in *.
    match goal with
    | |- exists fused', bind ?m _ = _ /\ _ =>
        replace m with (Ok fused1) by (symmetry; exact Hstep)
    end.
    cbn [bind]. now apply IH.
Qed.

Lemma rank_fusion_total (results : list (string * list dict)) (k : nat) :
  Forall (fun qr => Forall (fun d => has_chunk_id d /\ scorable d) (snd qr))
         results ->
  exists out,
    _reciprocal_rank_fusion results k = Ok out /\ Forall scorable out.
Proof.
  intros Hres. unfold _reciprocal_rank_fusion.
  destruct (fuse_all_total scorable k (fused:=[]) Hres)
    as (fused & Hfused & Hdocs); [constructor|].
  match goal with
  | |- exists out, bind ?m _ = _ /\ _ =>
      replace m with (Ok fused) by (symmetry; exact Hfused)
  end.
  cbn [bind]. eexists. split; [reflexivity|].
  rewrite Forall_map, Forall_forall. intros f Hf.
  apply attach_fusion_scorable.
  eapply Permutation_in in Hf; [|apply sort_desc_perm].
  apply in_map_iff in Hf as (kf & <- & Hkf).
  rewrite Forall_forall in Hdocs. now apply Hdocs.
Qed.

Lemma rerank_simple_total (r : Reranker.CrossEncoderReranker)
  (query : string) (docs : list dict) (top_k : nat) :
  Reranker.use_cross_encoder r = false ->
  Forall scorable docs ->
  exists out, Reranker.rerank_simple r query docs top_k = Ok out.
Proof.
  intros Hoff Hdocs. unfold Reranker.rerank_simple, Reranker.rerank.
  destruct docs as [|d docs]; [cbn; eauto|].
  assert (Hscored : exists scored,
             mapM (Reranker.score_chunk r query)
                  (enumerate_from 0 (d :: docs)) = Ok scored).
  { apply mapM_total. rewrite Forall_forall. intros [i c] Hic.
    assert (Hc : In c (d :: docs)).
    { apply In_enumerate_from_value in Hic. exact Hic. }
    rewrite Forall_forall in Hdocs. destruct (Hdocs c Hc) as [H1 H2].
    unfold Reranker.score_chunk.
    destruct (to_number (dict_get_or c "score" (VFloat 0)));
      [|discriminate].
    destruct (to_number (dict_get_or c "bm25_score" (VFloat 0)));
      [|discriminate].
    cbn [bind]. rewrite Hoff. cbn [bind]. eauto. }
  destruct Hscored as (scored & ->). cbn [bind]. eauto.
Qed.

Lemma marked_children_ready (parent_ids : list value)
  (child_results : list dict) :
  Forall (fun d => exists p s, d = format_point p s) child_results ->
  let filtered :=
    filter (fun ch => existsb (py_eq (dict_get ch "mã_thủ_tục")) parent_ids)
           child_results in
  Forall (fun d => has_chunk_id d /\ scorable d)
    match filtered, child_results with
    | [], _ :: _ =>
        map (fun ch => dict_set ch "cross_tier_match" (VBool false))
            (firstn 5 child_results)
    | _, _ =>
        map (fun ch => dict_set ch "cross_tier_match" (VBool true)) filtered
    end.
Proof.
  intros Hall. cbv zeta.
  assert (Hmap : forall (m : value) (l : list dict),
             (forall d, In d l -> In d child_results) ->
             Forall (fun d => has_chunk_id d /\ scorable d)
                    (map (fun ch => dict_set ch "cross_tier_match" m) l)).
  { intros m l Hl. rewrite Forall_map, Forall_forall. intros d Hd.
    rewrite Forall_forall in Hall.
    destruct (Hall d (Hl d Hd)) as (p & sc & ->).
    apply semantic_doc_ready. }
  destruct (filter _ child_results) as [|f fs] eqn:Ef.
  - destruct child_results as [|c cs]; [constructor|].
    apply Hmap. intros d Hd. eapply In_firstn; eauto.
  - apply Hmap. intros d Hd. rewrite <- Ef in Hd.
    now apply filter_In in Hd.
Qed.

Lemma search_formatted (cl : QdrantClient) (emb : list Q) (k : nat)
  (f : dict) :
  Forall (fun d => exists p s, d = format_point p s)
         (VectorStore.search cl emb k f).
Proof.
  unfold VectorStore.search. rewrite Forall_map, Forall_forall.
  intros [p sc] _. cbn. eauto.
Qed.

Lemma hier_children_ready (self : HierarchicalRetrievalPipeline)
  (query_info : QueryInfo) (kp kc : nat) :
  Forall (fun kv => Forall (fun d => has_chunk_id d /\ scorable d) (snd kv))
         (snd (_hierarchical_retrieve self query_info kp kc)).
Proof.
  unfold _hierarchical_retrieve. cbv zeta. cbn [fst snd].
  match goal with
  | |- context [fold_left ?f _ _] =>
      match f with
      | (fun all q => dict_set all q (@?g q)) =>
          apply (@fold_dict_set (list dict)
                   (Forall (fun d => has_chunk_id d /\ scorable d))
                   g (query_variations query_info) [])
      end
  end.
  - constructor.
  - intros q. cbv beta. apply marked_children_ready.
    destruct (truthy _); [|apply search_formatted].
    destruct (VectorStore.search _ _ _ (dict_set _ _ _)) eqn:E.
    + apply search_formatted.
    + rewrite <- E. apply search_formatted.
Qed.

Lemma search_results_from_corpus (bm : BM25.SimpleBM25) (query : value)
  (k : nat) (f : dict) (rs : list dict) :
  BM25.search bm query k f = Ok rs ->
  Forall (fun r => exists c s, In c (BM25.chunks bm) /\
                               r = BM25.with_scores c s) rs.
Proof.
  unfold BM25.search. intros H.
  destruct (negb (BM25.is_built bm)); [discriminate|].
  apply bind_ok in H as (terms & _ & H).
  destruct terms as [|t terms]; [inversion H; constructor|].
  apply bind_ok in H as (scores & _ & H).
  apply bind_ok in H as (pairs & _ & H).
  apply mapM_ok in H. induction H as [|p r ps rs0 Hr _ IH]; constructor; auto.
  apply bind_ok in Hr as (c & Hc & Hr). apply list_item_ok in Hc.
  inversion Hr. exists c, (snd p). split; auto.
  eapply nth_error_In; eauto.
Qed.

Lemma keyword_leg_total (self : HierarchicalRetrievalPipeline)
  (question : string) (k : nat) (f : dict) :
  (bm25 self = None \/
   exists bm, bm25 self = Some bm /\ BM25Props.well_built bm /\
              (0 <= BM25.k1 bm)%Q /\ (0 <= BM25.b bm <= 1)%Q /\
              Forall has_chunk_id (BM25.chunks bm)) ->
  exists bm25_results,
    match bm25 self with
    | Some bm =>
        if BM25.is_built bm then
          bm25_chunks <- BM25.search bm (VStr question) k f ;;
          match bm25_chunks with
          | [] => Ok []
          | _ => Ok [ ("bm25", bm25_chunks) ]
          end
        else Ok []
    | None => Ok []
    end = Ok bm25_results /\
    Forall (fun kv => Forall (fun d => has_chunk_id d /\ scorable d) (snd kv))
           bm25_results.
Proof.
  intros [->|(bm & -> & Hwb & Hk1 & Hb & Hids)]; [eauto|].
  rewrite (BM25Props.wb_built Hwb).
  destruct (BM25More.well_built_search_returns question k f Hwb Hk1 Hb)
    as (rs & Hrs).
  rewrite Hrs. cbn [bind].
  apply search_results_from_corpus in Hrs.
  destruct rs as [|r rs]; [eauto|].
  eexists. split; [reflexivity|]. constructor; [|constructor]. cbn [snd].
  eapply Forall_impl; [|exact Hrs]. intros d (c & sc & Hc & ->).
  apply keyword_doc_ready. rewrite Forall_forall in Hids. auto.
Qed.

Lemma fold_dict_set_pairs {V} (P : V -> Prop) (l d : list (string * V)) :
  Forall (fun kv => P (snd kv)) l -> Forall (fun kv => P (snd kv)) d ->
  Forall (fun kv => P (snd kv))
         (fold_left (fun d kv => dict_set d (fst kv) (snd kv)) l d).
Proof.
  intros Hl. revert d. induction Hl as [|kv l Hkv _ IH]; cbn; auto.
  intros d Hd. apply IH. now apply Forall_dict_set.
Qed.

Lemma hybrid_search_total (self : HierarchicalRetrievalPipeline)
  (question : string) (query_info : QueryInfo) (cfg : dict)
  (kp kc kf : nat) :
  (exists r, reranker self = Some r /\
             Reranker.use_cross_encoder r = false) ->
  (bm25 self = None \/
   exists bm, bm25 self = Some bm /\ BM25Props.well_built bm /\
              (0 <= BM25.k1 bm)%Q /\ (0 <= BM25.b bm <= 1)%Q /\
              Forall has_chunk_id (BM25.chunks bm)) ->
  (forall ps cs cfg, is_ok (assemble (collab self) ps cs cfg) = true) ->
  exists r, hybrid_search self question query_info cfg kp kc kf = Ok r.
Proof.
  intros (rr & Hrr & Hoff) Hbm Hasm. unfold hybrid_search.
  pose proof (hier_children_ready self query_info kp kc) as Hchildren.
  destruct (_hierarchical_retrieve self query_info kp kc)
    as [parents children]. cbn [snd] in Hchildren.
  match goal with
  | |- exists r, bind ?m _ = _ =>
      destruct (keyword_leg_total self question kc
                  (if truthy (dict_get (filters query_info) "chunk_type")
                   then [ ("chunk_tier", VStr "child");
                          ("chunk_type",
                            dict_get (filters query_info) "chunk_type") ]
                   else [ ("chunk_tier", VStr "child") ]) Hbm)
        as (bm25_results & Hleg & Hready);
      replace m with (Ok bm25_results) by (symmetry; exact Hleg)
  end.
  cbn [bind].
  destruct (rank_fusion_total 60
              (fold_dict_set_pairs _ Hready Hchildren))
    as (fused & Hfused & Hscorable).
  rewrite Hfused. cbn [bind].
  assert (Hrerank : exists reranked,
             _rerank_with_score_fusion self question fused kf
             = Ok reranked).
  { unfold _rerank_with_score_fusion. destruct fused as [|d fused]; [eauto|].
    rewrite Hrr. now apply rerank_simple_total. }
  destruct Hrerank as (reranked & ->). cbn [bind].
  specialize (Hasm parents reranked cfg).
  destruct (assemble (collab self) parents reranked cfg); [|discriminate].
  cbn [bind]. eauto.
Qed.

Lemma retrieve_uncached_total (self : HierarchicalRetrievalPipeline)
  (now : Q) (question : string) (emb : option (list Q)) (kp kc : nat) :
  (exists r, reranker self = Some r /\
             Reranker.use_cross_encoder r = false) ->
  (bm25 self = None \/
   exists bm, bm25 self = Some bm /\ BM25Props.well_built bm /\
              (0 <= BM25.k1 bm)%Q /\ (0 <= BM25.b bm <= 1)%Q /\
              Forall has_chunk_id (BM25.chunks bm)) ->
  (forall ps cs cfg, is_ok (assemble (collab self) ps cs cfg) = true) ->
  exists r,
    retrieve_uncached self now question emb kp kc
    = Ok (r, cache_result self now question emb r).
Proof.
  intros Hrr Hbm Hasm. unfold retrieve_uncached.
  destruct (context_config_sizes
              (intent (enhance_query (collab self) question)))
    as (cfg & chunks & md & ms & Hcfg & Hchunks & _).
  rewrite Hcfg. cbn [bind]. rewrite Hchunks. cbn [bind].
  destruct (exact_match_routing self _) as [[code rs]|].
  - unfold exact_match_result.
    match goal with
    | |- context [assemble ?c ?ps ?cs ?g] =>
        pose proof (Hasm ps cs g) as Ha; destruct (assemble c ps cs g);
          [|discriminate]
    end.
    cbn [bind]. eauto.
  - destruct (@hybrid_search_total self question
                (enhance_query (collab self) question) cfg kp kc
                (Z.to_nat chunks) Hrr Hbm Hasm) as (r & ->).
    cbn [bind]. eauto.
Qed.

(** X21.  A pipeline constructed with its defaults (index built from the
    given chunks, default reranker) never fails: if every chunk has a
    hashable [chunk_id] and the context assembly returns, then
    [retrieve] returns a result for every question, every clock reading
    and every state of the cache, and it changes nothing but the
    cache. *)
Theorem retrieve_returns (c : Collaborators) (chunks : list dict)
  (cache0 cache1 : option (Cache.SemanticCache RetrievalResult))
  (use_cache : bool) (self : HierarchicalRetrievalPipeline) (now now' : Q)
  (question : string) (kp kc kf : nat) :
  Pipeline.init c None chunks true None true cache0 use_cache = Ok self ->
  Forall has_chunk_id chunks ->
  (forall ps cs cfg, is_ok (assemble c ps cs cfg) = true) ->
  exists r cache2,
    retrieve (Pipeline.with_cache self cache1) now now' question kp kc kf
    = Ok (r, Pipeline.with_cache self cache2).
Proof.
  intros Hinit Hids Hasm. unfold Pipeline.init in Hinit.
  apply bind_ok in Hinit as (bm & Hbm & Hinit).
  apply bind_ok in Hinit as (rr & Hrr & Hinit).
  inversion Hinit; subst self. clear Hinit.
  apply bind_ok in Hrr as (r0 & Hr0 & Hrr). inversion Hrr; subst rr.
  assert (Hoff : Reranker.use_cross_encoder r0 = false).
  { unfold Reranker.init in Hr0.
    apply bind_ok in Hr0 as (? & _ & Hr0).
    apply bind_ok in Hr0 as (? & _ & Hr0).
    apply bind_ok in Hr0 as (? & _ & Hr0). now inversion Hr0. }
  assert (Hbm' : bm = None \/
                 exists b0, bm = Some b0 /\ BM25Props.well_built b0 /\
                   (0 <= BM25.k1 b0)%Q /\ (0 <= BM25.b b0 <= 1)%Q /\
                   Forall has_chunk_id (BM25.chunks b0)).
  { destruct chunks as [|ch chunks]; [left; now inversion Hbm|]. right.
    apply bind_ok in Hbm as (built & Hbuilt & Hbm). inversion Hbm; subst bm.
    destruct (BM25More.build_index_well_built _ Hbuilt)
      as (Hwb & Hc & Hk & Hb).
    exists built. split; auto. split; auto.
    rewrite Hk, Hb, Hc. cbn.
    split; [discriminate|]. split; [split; discriminate|]. exact Hids. }
  clear Hbm Hr0 Hrr.
  set (self := {| collab := c; bm25 := bm; reranker := Some r0;
                  cache := match cache0 with
                           | Some _ => cache0
                           | None =>
                               if use_cache
                               then Some (Cache.init RetrievalResult 100 24
                                            0.92)
                               else cache0
                           end |}).
  assert (Hun : forall ca t emb,
             exists r,
               retrieve_uncached (Pipeline.with_cache self ca) t question
                 emb kp kc
               = Ok (r, cache_result (Pipeline.with_cache self ca) t
                          question emb r)).
  { intros ca t emb. apply retrieve_uncached_total; cbn; eauto. }
  assert (Hcr : forall ca t emb r,
             exists cache2,
               cache_result (Pipeline.with_cache self ca) t question emb r
               = Pipeline.with_cache self cache2).
  { intros ca t emb r. unfold cache_result. cbn [cache Pipeline.with_cache].
    destruct ca as [c1|]; eexists; reflexivity. }
  unfold retrieve.
  change (cache (Pipeline.with_cache self cache1)) with cache1.
  destruct cache1 as [c1|].
  - change (collab (Pipeline.with_cache self (Some c1))) with c.
    destruct (Cache.get c1 now question (encode c question))
      as [c' [r|]].
    + exists r, (Some c'). reflexivity.
    + change (Pipeline.with_cache (Pipeline.with_cache self (Some c1))
                (Some c'))
        with (Pipeline.with_cache self (Some c')).
      destruct (Hun (Some c') now' (Some (encode c question))) as (r & ->).
      destruct (Hcr (Some c') now' (Some (encode c question)) r)
        as (cache2 & ->).
      eauto.
  - destruct (Hun None now' None) as (r & ->).
    destruct (Hcr None now' None r) as (cache2 & ->).
    eauto.
Qed.

(** X22.  Stage 7 without a reranker.  The documents are scored with
    [0.6 * rrf_score + 0.4 * score], missing fields counting as 0, and
    the [min(top_k, len(documents))] best are returned in descending
    order of that score, each being one of the documents with its
    [final_score] set. *)
Theorem fallback_rerank_sorted (self : HierarchicalRetrievalPipeline)
  (query : string) (documents : list dict) (top_k : nat) (out : list dict) :
  reranker self = None ->
  _rerank_with_score_fusion self query documents top_k = Ok out ->
  List.length out = Nat.min top_k (List.length documents) /\
  StronglySorted
    (fun r1 r2 =>
       (float_field r2 "final_score" <= float_field r1 "final_score")%Q)
    out /\
  Forall (fun r =>
            exists d rrf vector_score,
              In d documents /\
              to_number (dict_get_or d "rrf_score" (VFloat 0)) = Ok rrf /\
              to_number (dict_get_or d "score" (VFloat 0))
              = Ok vector_score /\
              r = dict_set d "final_score"
                    (VFloat (0.6 * rrf + 0.4 * vector_score))) out.
Proof.
  intros Hnone. unfold _rerank_with_score_fusion. rewrite Hnone.
  destruct documents as [|d0 documents].
  { intros H. inversion H. cbn. rewrite Nat.min_0_r.
    repeat split; constructor. }
  intros H. apply bind_ok in H as (scored & Hscored & H).
  inversion H; subst out. clear H. apply mapM_ok in Hscored.
  assert (Hall : Forall (fun p =>
              float_field (fst p) "final_score" = snd p /\
              exists d rrf vector_score,
                In d (d0 :: documents) /\
                to_number (dict_get_or d "rrf_score" (VFloat 0)) = Ok rrf /\
                to_number (dict_get_or d "score" (VFloat 0))
                = Ok vector_score /\
                fst p = dict_set d "final_score"
                          (VFloat (0.6 * rrf + 0.4 * vector_score)))
            scored).
  { rewrite Forall_forall. intros p Hp.
    destruct (Forall2_In_r _ Hscored Hp) as (d & Hd & Hf).
    apply bind_ok in Hf as (rrf & Hrrf & Hf).
    apply bind_ok in Hf as (vs & Hvs & Hf). inversion Hf; subst p. cbn.
    split.
    - unfold float_field. now rewrite dict_get_set_same.
    - exists d, rrf, vs. auto. }
  assert (Hsorted : Forall (fun p =>
              float_field (fst p) "final_score" = snd p /\
              exists d rrf vector_score,
                In d (d0 :: documents) /\
                to_number (dict_get_or d "rrf_score" (VFloat 0)) = Ok rrf /\
                to_number (dict_get_or d "score" (VFloat 0))
                = Ok vector_score /\
                fst p = dict_set d "final_score"
                          (VFloat (0.6 * rrf + 0.4 * vector_score)))
            (sort_desc snd scored)).
  { eapply Permutation_Forall; [|exact Hall].
    apply Permutation_sym, sort_desc_perm. }
  split; [|split].
  - rewrite length_firstn, length_map.
    rewrite (Permutation_length (sort_desc_perm snd scored)).
    now rewrite <- (Forall2_length Hscored).
  - apply StronglySorted_firstn, StronglySorted_map.
    pose proof (sort_desc_sorted snd scored) as Hs.
    revert Hs Hsorted. generalize (sort_desc snd scored). intros l Hs Hl.
    induction Hs as [|a l Hs IH Ha]; constructor.
    + apply IH. now inversion Hl.
    + destruct (Forall_inv Hl) as [Hfa _].
      pose proof (Forall_inv_tail Hl) as Hl'.
      rewrite Forall_forall in *. intros x Hx.
      destruct (Hl' x Hx) as [Hfx _].
      change (float_field (fst x) "final_score"
              <= float_field (fst a) "final_score")%Q.
      exact (eq_ind_r
               (fun z => (float_field (fst x) "final_score" <= z)%Q)
               (eq_ind_r (fun z => (z <= snd a)%Q) (Ha x Hx) Hfx) Hfa).
  - rewrite Forall_forall. intros r Hr. apply In_firstn in Hr.
    apply in_map_iff in Hr as (p & <- & Hp).
    rewrite Forall_forall in Hsorted.
    destruct (Hsorted p Hp) as (_ & d & rrf & vs & Hd & H1 & H2 & Heq).
    exists d, rrf, vs. repeat split; auto.
Qed.

End WithRuntime.

(** ** The theorems at work *)

(** Two semantic hits and one keyword hit for the second of them. *)
Lemma rank_fusion_merges_by_chunk_id_witness :
  exists out,
    _reciprocal_rank_fusion (RT:=Scenario.toy_runtime)
      [ ("dang ky", [Scenario.chunk_a; Scenario.chunk_b]);
        ("bm25", [Scenario.chunk_b]) ] 60 = Ok out /\
    map chunk_id_of out = [VStr "b"; VStr "a"] /\
    StronglySorted
      (fun r1 r2 =>
         (float_field r2 "rrf_score" <= float_field r1 "rrf_score")%Q) out.
Proof.
  eexists. split; [vm_compute; reflexivity|]. split; [reflexivity|].
  exact (proj1 (@rank_fusion_merges_by_chunk_id Scenario.toy_runtime
                  [ ("dang ky", [Scenario.chunk_a; Scenario.chunk_b]);
                    ("bm25", [Scenario.chunk_b]) ] 60 _
                  ltac:(vm_compute; reflexivity))).
Defined.

Lemma repeated_question_is_served_from_cache_witness :
  exists r self' self'',
    retrieve (RT:=Scenario.toy_runtime) Scenario.hybrid_pipeline 0 1
      "dang ky nghia vu quan su lam the nao" 5 100 5 = Ok (r, self') /\
    retrieve (RT:=Scenario.toy_runtime) self' 3600 3601
      "dang ky nghia vu quan su lam the nao" 1 1 1 = Ok (r, self'').
Proof.
  assert (Hmiss : cache_miss (RT:=Scenario.toy_runtime)
                    Scenario.hybrid_pipeline 0
                    "dang ky nghia vu quan su lam the nao")
    by (vm_compute; reflexivity).
  assert (Hok : is_ok (retrieve (RT:=Scenario.toy_runtime)
                         Scenario.hybrid_pipeline 0 1
                         "dang ky nghia vu quan su lam the nao" 5 100 5)
                = true)
    by (vm_compute; reflexivity).
  destruct (retrieve (RT:=Scenario.toy_runtime) Scenario.hybrid_pipeline 0 1
              "dang ky nghia vu quan su lam the nao" 5 100 5)
    as [[r self']|e] eqn:E; [|discriminate Hok].
  destruct (@repeated_question_is_served_from_cache Scenario.toy_runtime
              Scenario.hybrid_pipeline self'
              (Cache.init RetrievalResult 100 24 0.92) 0 1 3600 3601
              "dang ky nghia vu quan su lam the nao" 5 100 5 1 1 1 r
              ltac:(vm_compute; reflexivity)
              ltac:(constructor)
              Hmiss E
              ltac:(vm_compute; discriminate))
    as (self'' & _ & _ & H & _).
  exists r, self', self''. split; [reflexivity | exact H].
Defined.

Lemma fallback_rerank_sorted_witness :
  Pipeline.init (RT:=Scenario.toy_runtime) Scenario.hybrid_collab None []
    true None false None false = Ok PipelineScenario.plain_pipeline /\
  exists out,
    _rerank_with_score_fusion PipelineScenario.plain_pipeline "q"
      [Scenario.chunk_a; Scenario.chunk_b] 1 = Ok out /\
    map chunk_id_of out = [VStr "b"] /\
    List.length out = 1.
Proof.
  split; [reflexivity|].
  eexists. split; [vm_compute; reflexivity|]. split; [reflexivity|].
  exact (proj1 (@fallback_rerank_sorted PipelineScenario.plain_pipeline "q"
                  [Scenario.chunk_a; Scenario.chunk_b] 1 _ eq_refl
                  ltac:(vm_compute; reflexivity))).
Defined.

Lemma retrieve_returns_witness :
  exists r cache2,
    retrieve (RT:=Scenario.toy_runtime)
      (Pipeline.with_cache Scenario.hybrid_pipeline None) 0 1
      "thu tuc ket hon" 5 20 5
    = Ok (r, Pipeline.with_cache Scenario.hybrid_pipeline cache2).
Proof.
  exact (@retrieve_returns Scenario.toy_runtime Scenario.hybrid_collab
           Scenario.demo_chunks None None true Scenario.hybrid_pipeline 0 1
           "thu tuc ket hon" 5 20 5
           eq_refl
           ltac:(repeat (constructor; [eexists; split; reflexivity|]);
                 constructor)
           (fun _ _ _ => eq_refl)).
Defined.

End PipelineMore.

(* ------------------------------------------------------------------ *)
(** * Properties of the query enhancer                                 *)
(* ------------------------------------------------------------------ *)

Module QueryEnhancerFacts.
Import QueryEnhancer Pipeline Props PyFacts PyMore.

Lemma max_from_spec (best : string * nat) (l : list (string * nat)) :
  In (max_from best l) (best :: l) /\
  Forall (fun x => snd x <= snd (max_from best l)) (best :: l).
Proof.
  revert best. induction l as [|x l IH]; intros best; cbn [max_from].
  - split; [now left | repeat constructor].
  - destruct (snd best <? snd x) eqn:E.
    + destruct (IH x) as [H1 H2]. split.
      * right. exact H1.
      * inversion H2; subst. apply Nat.ltb_lt in E.
        constructor; [lia|]. constructor; auto.
    + destruct (IH best) as [H1 H2]. split.
      * destruct H1 as [H1|H1]; [now left | right; now right].
      * inversion H2; subst. apply Nat.ltb_ge in E.
        constructor; auto. constructor; auto. lia.
Qed.

Lemma intent_scores_spec (ql : string) (r : string) (n : nat) :
  In (r, n) (intent_scores ql) <->
  exists ks, In (r, ks) INTENT_MAPPING /\ n = keyword_score ql r ks /\ 1 <= n.
Proof.
  unfold intent_scores. rewrite filter_In, in_map_iff. cbn [snd]. split.
  - intros [([i ks] & Heq & Hin) Hpos]. cbn in Heq. inversion Heq; subst.
    apply Nat.ltb_lt in Hpos. eauto.
  - intros (ks & Hin & -> & Hpos). split.
    + exists (r, ks). auto.
    + now apply Nat.ltb_lt.
Qed.

Lemma valid_intents_have_config (intent : string) :
  In intent valid_intents ->
  exists cfg,
    assoc intent ContextSettings.INTENT_CONTEXT_MAPPING = Some cfg /\
    ContextSettings.get_context_config intent = Ok cfg.
Proof.
  cbn. intros H.
  repeat (destruct H as [<-|H]; [eexists; split; reflexivity|]).
  contradiction.
Qed.

Section WithRuntime.
Context {RT : Runtime}.

Lemma detect_intent_cases (self : OllamaQueryEnhancer) (question : string) :
  (exists n, In (detect_intent self question, n)
               (intent_scores (str_lower question)) /\
             Forall (fun x => snd x <= n)
                    (intent_scores (str_lower question))) \/
  (intent_scores (str_lower question) = [] /\
   (ask_intent self question = Some (detect_intent self question) \/
    detect_intent self question = "overview") /\
   In (detect_intent self question) valid_intents).
Proof.
  unfold detect_intent.
  destruct (intent_scores (str_lower question)) as [|first rest] eqn:E.
  - right. split; auto.
    destruct (ask_intent self question) as [intent|].
    + destruct (existsb (String.eqb intent) valid_intents) eqn:Ex.
      * split; auto. apply existsb_exists in Ex as (v & Hv & Heq).
        apply String.eqb_eq in Heq. now subst.
      * split; auto. cbn. tauto.
    + split; auto. cbn. tauto.
  - left. destruct (max_from_spec first rest) as [H1 H2].
    exists (snd (max_from first rest)).
    now rewrite <- surjective_pairing.
Qed.

(** X23.  [detect_intent] always returns one of the eight intents of the
    context table, whatever the model answers, so that the context
    configuration used for the question is the record of that very
    intent and never the fall-back. *)
Theorem detect_intent_valid (self : OllamaQueryEnhancer) (question : string) :
  In (detect_intent self question) valid_intents /\
  exists cfg,
    assoc (detect_intent self question)
          ContextSettings.INTENT_CONTEXT_MAPPING = Some cfg /\
    ContextSettings.get_context_config (detect_intent self question)
    = Ok cfg.
Proof.
  assert (H : In (detect_intent self question) valid_intents).
  { destruct (detect_intent_cases self question) as [(n & Hin & _)|(_ & _ & H)];
      auto.
    apply intent_scores_spec in Hin as (ks & Hin & _).
    unfold valid_intents. apply in_or_app. left.
    change (detect_intent self question)
      with (fst (detect_intent self question, ks)).
    now apply in_map. }
  split; [exact H|]. now apply valid_intents_have_config.
Qed.

(** X24.  Keywords decide before the model is asked.  As soon as one
    intent has a positive keyword score, the returned intent is an
    intent of the keyword table whose score is positive and at least the
    score of every other intent, and it is the same for every model. *)
Theorem keywords_decide_before_the_model (self : OllamaQueryEnhancer)
  (question intent : string) (keywords : list string) :
  In (intent, keywords) INTENT_MAPPING ->
  1 <= keyword_score (str_lower question) intent keywords ->
  (exists ks,
      In (detect_intent self question, ks) INTENT_MAPPING /\
      1 <= keyword_score (str_lower question)
             (detect_intent self question) ks /\
      forall i kws, In (i, kws) INTENT_MAPPING ->
        keyword_score (str_lower question) i kws
        <= keyword_score (str_lower question)
             (detect_intent self question) ks) /\
  forall other : OllamaQueryEnhancer,
    detect_intent other question = detect_intent self question.
Proof.
  intros Hin Hpos.
  assert (Hmem : In (intent,
                     keyword_score (str_lower question) intent keywords)
                    (intent_scores (str_lower question))).
  { apply intent_scores_spec. eauto. }
  split.
  - destruct (detect_intent_cases self question)
      as [(n & Hr & Hmax)|(Hnil & _)].
    2:{ rewrite Hnil in Hmem. contradiction. }
    apply intent_scores_spec in Hr as (ks & Hks & -> & Hn).
    exists ks. repeat split; auto.
    intros i kws Hi.
    destruct (Nat.le_gt_cases 1 (keyword_score (str_lower question) i kws))
      as [Hge|Hlt]; [|lia].
    rewrite Forall_forall in Hmax.
    apply (Hmax (i, keyword_score (str_lower question) i kws)).
    apply intent_scores_spec. eauto.
  - intros other. unfold detect_intent.
    destruct (intent_scores (str_lower question)); [contradiction|].
    reflexivity.
Qed.

(** X25.  A question about timing is never classified as a question
    about documents: when the lower-cased question contains one of the
    phrases for a duration, the returned intent is not [documents],
    whatever the model answers. *)
Theorem timing_questions_are_not_documents (self : OllamaQueryEnhancer)
  (question phrase : string) :
  In phrase [ "thời gian"; "bao lâu"; "thời hạn" ] ->
  contains phrase (str_lower question) = true ->
  detect_intent self question <> "documents".
Proof.
  intros Hphrase Hc.
  assert (Htime : exists ks,
             In ("timeline", ks) INTENT_MAPPING /\
             1 <= keyword_score (str_lower question) "timeline" ks).
  { eexists. split; [cbn; do 4 right; left; reflexivity|].
    unfold keyword_score. cbn [assoc INTENT_EXCLUSIONS String.eqb].
    change (String.eqb "timeline" "documents") with false. cbv iota.
    cbn [filter].
    cbn in Hphrase.
    destruct Hphrase as [<-|[<-|[<-|[]]]]; rewrite Hc; cbn;
      repeat match goal with
             | |- context [contains ?k ?q] =>
                 lazymatch goal with
                 | |- 1 <= _ => destruct (contains k q)
                 end
             end; cbn; lia. }
  destruct Htime as (ks & Hks & Hpos).
  assert (Hmem : In ("timeline",
                     keyword_score (str_lower question) "timeline" ks)
                    (intent_scores (str_lower question)))
    by (apply intent_scores_spec; eauto).
  destruct (detect_intent_cases self question)
    as [(n & Hr & _)|(Hnil & _)].
  2:{ rewrite Hnil in Hmem. contradiction. }
  intros Hdoc. rewrite Hdoc in Hr.
  apply intent_scores_spec in Hr as (kd & Hkd & -> & Hn).
  assert (Hzero : keyword_score (str_lower question) "documents" kd = 0).
  { unfold keyword_score. cbn [assoc INTENT_EXCLUSIONS].
    change (String.eqb "documents" "documents") with true. cbv iota.
    assert (Hex : existsb (fun excl => contains excl (str_lower question))
                    [ "thời gian"; "bao lâu"; "thời hạn";
                      "hình thức thông báo"; "thông báo" ] = true).
    { apply existsb_exists. exists phrase. split; auto.
      cbn in Hphrase. cbn. tauto. }
    now rewrite Hex. }
  lia.
Qed.

(** X26.  For a question classified as [timeline] the enhancer's
    chunk-type filter is a list of two types.  The keyword search
    compares it with the [chunk_type] field of each chunk by equality, so
    that, on a corpus whose chunk types are strings, the keyword search
    of the hybrid path returns nothing at all for such a question. *)
Theorem timeline_questions_get_no_keyword_results
  (self : OllamaQueryEnhancer) (question : string) (bm : BM25.SimpleBM25)
  (top_k : nat) (rs : list dict) :
  let query_info := QueryEnhancer.enhance_query self question in
  let chunk_type := dict_get (filters query_info) "chunk_type" in
  let bm25_filters :=
    if truthy chunk_type
    then [ ("chunk_tier", VStr "child"); ("chunk_type", chunk_type) ]
    else [ ("chunk_tier", VStr "child") ] in
  intent query_info = "timeline" ->
  Forall (fun c => exists s, dict_get c "chunk_type" = VStr s)
         (BM25.chunks bm) ->
  BM25.search bm (VStr question) top_k bm25_filters = Ok rs ->
  chunk_type = VList [ VStr "child_process"; VStr "child_fees_timing" ] /\
  rs = [].
Proof.
  cbv zeta. intros Hi Hchunks H.
  assert (Hf : dict_get (filters (QueryEnhancer.enhance_query self question))
                 "chunk_type"
               = VList [ VStr "child_process"; VStr "child_fees_timing" ]).
  { unfold QueryEnhancer.enhance_query in *. cbn [filters intent] in *.
    rewrite Hi.
    reflexivity. }
  split; [exact Hf|]. rewrite Hf in H. cbn [truthy] in H.
  unfold BM25.search in H.
  destruct (negb (BM25.is_built bm)); [discriminate|].
  apply bind_ok in H as (terms & _ & H).
  destruct terms as [|t terms]; [now inversion H|].
  apply bind_ok in H as (scores & _ & H).
  apply bind_ok in H as (pairs & Hpairs & H).
  unfold BM25.apply_filters in Hpairs.
  eapply BM25Facts.apply_filters_loop with (P := fun _ => True) in Hpairs;
    [| rewrite Forall_forall; auto | constructor].
  destruct pairs as [|p pairs].
  { change (sort_desc snd (@nil (nat * Q))) with (@nil (nat * Q)) in H.
    rewrite firstn_nil in H. cbn in H. now inversion H. }
  exfalso.
  inversion Hpairs as [|? ? [_ (c & Hc & Hm)] _]; subst.
  rewrite Forall_forall in Hchunks.
  destruct (Hchunks c (nth_error_In _ _ Hc)) as (s & Hs).
  unfold BM25.matches_filters in Hm. cbn [forallb fst snd] in Hm.
  rewrite Hs in Hm. cbn [py_eq andb] in Hm.
  rewrite andb_false_r in Hm. discriminate.
Qed.

End WithRuntime.

(** ** The theorems at work *)

Lemma keywords_decide_before_the_model_witness :
  detect_intent (RT:=Scenario.toy_runtime) EnhancerScenario.silent_enhancer
    "trình tự và các bước thực hiện"
  = detect_intent (RT:=Scenario.toy_runtime) EnhancerScenario.demo_enhancer
      "trình tự và các bước thực hiện".
Proof.
  exact (proj2 (@keywords_decide_before_the_model Scenario.toy_runtime
                  EnhancerScenario.demo_enhancer
                  "trình tự và các bước thực hiện" "process"
                  [ "trình tự"; "các bước"; "làm thế nào"; "quy trình";
                    "cách thức" ]
                  ltac:(cbn; tauto)
                  ltac:(vm_compute; lia))
               EnhancerScenario.silent_enhancer).
Defined.

Lemma timing_questions_are_not_documents_witness :
  detect_intent (RT:=Scenario.toy_runtime) EnhancerScenario.demo_enhancer
    "nộp gì và trong thời gian bao lâu" <> "documents".
Proof.
  exact (@timing_questions_are_not_documents Scenario.toy_runtime
           EnhancerScenario.demo_enhancer
           "nộp gì và trong thời gian bao lâu" "thời gian"
           ltac:(cbn; tauto)
           ltac:(vm_compute; reflexivity)).
Defined.

Lemma timeline_questions_get_no_keyword_results_witness :
  intent (QueryEnhancer.enhance_query (RT:=Scenario.toy_runtime)
            EnhancerScenario.demo_enhancer "dang ky ket hon mất bao lâu")
  = "timeline" /\
  BM25.search (RT:=Scenario.toy_runtime) Scenario.demo_bm25
    (VStr "dang ky ket hon mất bao lâu") 20
    [ ("chunk_tier", VStr "child");
      ("chunk_type", VList [ VStr "child_process"; VStr "child_fees_timing" ]) ]
  = Ok [].
Proof.
  split; [vm_compute; reflexivity|].
  assert (Hok : is_ok (BM25.search (RT:=Scenario.toy_runtime)
                         Scenario.demo_bm25
                         (VStr "dang ky ket hon mất bao lâu") 20
                         [ ("chunk_tier", VStr "child");
                           ("chunk_type",
                             VList [ VStr "child_process";
                                     VStr "child_fees_timing" ]) ]) = true)
    by (vm_compute; reflexivity).
  destruct (BM25.search (RT:=Scenario.toy_runtime) Scenario.demo_bm25
              (VStr "dang ky ket hon mất bao lâu") 20
              [ ("chunk_tier", VStr "child");
                ("chunk_type",
                  VList [ VStr "child_process"; VStr "child_fees_timing" ]) ])
    as [rs|e] eqn:E; [|discriminate Hok].
  f_equal.
  exact (proj2 (@timeline_questions_get_no_keyword_results
                  Scenario.toy_runtime EnhancerScenario.demo_enhancer
                  "dang ky ket hon mất bao lâu" Scenario.demo_bm25 20 rs
                  ltac:(vm_compute; reflexivity)
                  ltac:(repeat constructor; eexists; reflexivity)
                  E)).
Defined.

End QueryEnhancerFacts.

(* ------------------------------------------------------------------ *)
(** * Further properties of the context settings                       *)
(* ------------------------------------------------------------------ *)

Module ContextSettingsMore.
Import ContextSettings ContextProps PyFacts PyMore.

Lemma out_of_range_cases (config : dict) (k : string) (lo hi : Z) :
  match out_of_range config k lo hi with
  | Ok false =>
      exists x, number_field config k = Ok x /\
                (inject_Z lo <= x <= inject_Z hi)%Q
  | Ok true =>
      exists x, number_field config k = Ok x /\
                ((x < inject_Z lo)%Q \/ (inject_Z hi < x)%Q)
  | Raise e =>
      (e = KeyError /\ dict_mem k config = false) \/
      (e = TypeError /\ dict_mem k config = true)
  end.
Proof.
  unfold out_of_range, number_field, dict_item, dict_mem.
  destruct (assoc k config) as [v|]; cbn; [|auto].
  unfold to_number. destruct (as_number v) as [x|]; cbn; [|auto].
  destruct (Qltb x (inject_Z lo)) eqn:E1.
  - exists x. split; auto. left. now apply Qltb_lt.
  - destruct (Qltb (inject_Z hi) x) eqn:E2.
    + exists x. split; auto. right. now apply Qltb_lt.
    + exists x. split; auto. apply Qltb_ge in E1, E2. auto.
Qed.

(** X27.  The outcome of [validate_config] on an arbitrary dictionary.
    It answers [True] only if the six keys are present and the three
    numbers lie in their ranges; it answers [False] if a key is missing
    or a number lies outside its range; and the only error it can raise
    is a [TypeError], for a present field that is no number: a missing
    key never raises. *)
Theorem validate_config_outcome (config : dict) :
  match validate_config config with
  | Ok true =>
      all_keys_present config /\
      exists chunks max_descendants max_siblings,
        number_field config "chunks" = Ok chunks /\
        number_field config "max_descendants" = Ok max_descendants /\
        number_field config "max_siblings" = Ok max_siblings /\
        (1 <= chunks <= 10)%Q /\
        (0 <= max_descendants <= 100)%Q /\
        (0 <= max_siblings <= 20)%Q
  | Ok false =>
      ~ all_keys_present config \/
      exists k lo hi x,
        In (k, lo, hi) [ ("chunks", 1, 10); ("max_descendants", 0, 100);
                         ("max_siblings", 0, 20) ]%Z /\
        number_field config k = Ok x /\
        ((x < inject_Z lo)%Q \/ (inject_Z hi < x)%Q)
  | Raise e => e = TypeError /\ all_keys_present config
  end.
Proof.
  unfold validate_config, all_keys_present.
  destruct (forallb (fun key => dict_mem key config) required_keys) eqn:Hk;
    cbn [negb].
  2:{ left. intros H. rewrite Forall_forall in H.
      assert (forallb (fun key => dict_mem key config) required_keys = true)
        by (apply forallb_forall; exact H).
      congruence. }
  assert (Hall : Forall (fun key => dict_mem key config = true) required_keys).
  { rewrite Forall_forall. now apply forallb_forall. }
  assert (Hmem : forall k, In k required_keys -> dict_mem k config = true).
  { now apply Forall_forall. }
  pose proof (out_of_range_cases config "chunks" 1 10) as H1.
  pose proof (out_of_range_cases config "max_descendants" 0 100) as H2.
  pose proof (out_of_range_cases config "max_siblings" 0 20) as H3.
  assert (M1 := Hmem "chunks" ltac:(cbn; tauto)).
  assert (M2 := Hmem "max_descendants" ltac:(cbn; tauto)).
  assert (M3 := Hmem "max_siblings" ltac:(cbn; tauto)).
  destruct (out_of_range config "chunks" 1 10) as [[|]|e1]; cbn [bind].
  - destruct H1 as (x & Hx & Hr). right.
    exists "chunks", 1%Z, 10%Z, x. cbn. auto.
  - destruct (out_of_range config "max_descendants" 0 100) as [[|]|e2];
      cbn [bind].
    + destruct H2 as (x & Hx & Hr). right.
      exists "max_descendants", 0%Z, 100%Z, x. cbn. auto.
    + destruct (out_of_range config "max_siblings" 0 20) as [[|]|e3];
        cbn [bind].
      * destruct H3 as (x & Hx & Hr). right.
        exists "max_siblings", 0%Z, 20%Z, x. cbn. auto 6.
      * destruct H1 as (x1 & Hx1 & Hr1), H2 as (x2 & Hx2 & Hr2),
                 H3 as (x3 & Hx3 & Hr3).
        split; auto. exists x1, x2, x3. auto 10.
      * destruct H3 as [[_ H]|[-> _]]; [congruence | auto].
    + destruct H2 as [[_ H]|[-> _]]; [congruence | auto].
  - destruct H1 as [[_ H]|[-> _]]; [congruence | auto].
Qed.

End ContextSettingsMore.

(* ------------------------------------------------------------------ *)
(** * Further properties of the truncation                             *)
(* ------------------------------------------------------------------ *)

Module TextMore.
Import Text Props PyFacts TextFacts.

(** Words take room: every word has a character, and two words are a
    white-space character apart. *)
Lemma split_from_room (s cur : text) :
  2 * List.length (split_from cur s)
  <= List.length s + match cur with [] => 1 | _ => 2 end.
Proof.
  revert cur. induction s as [|c s IH]; intros cur; cbn [split_from].
  - destruct cur; cbn; lia.
  - destruct (isspace c).
    + destruct cur as [|x cur].
      * specialize (IH []). cbn in *. lia.
      * specialize (IH []). cbn in *. lia.
    + specialize (IH (c :: cur)). cbn in *. destruct cur; lia.
Qed.

Lemma split_room (s : text) :
  2 * List.length (split s) <= List.length s + 1.
Proof. apply (split_from_room s []). Qed.

(** X28.  What the safety net guarantees.  A shortened content has
    exactly 1209 words, the 600 first ones, the nine words of the marker
    and the 600 last ones; and whatever the content, shortened or not,
    the result has at most 2400 words. *)
Theorem truncate_bounds_words (content : text) :
  let words := split content in
  let shortened :=
    (4800 <? List.length content) && (1200 <? List.length words) in
  List.length (split (truncate content))
  = (if shortened then 1209 else List.length words) /\
  List.length (split (truncate content)) <= 2400.
Proof.
  cbv zeta. unfold truncate. rewrite truncate_general.
  change (1200 * 4) with 4800. change (1200 / 2) with 600.
  destruct (4800 <? List.length content) eqn:Hc; cbn [andb].
  - destruct (1200 <? List.length (split content)) eqn:Hw.
    + apply Nat.ltb_lt in Hw.
      change 600 with (S 599) at 2 4. rewrite !last_n_succ.
      rewrite !split_around_elision
        by (apply Forall_firstn, split_words
            || apply Forall_skipn, split_words).
      rewrite !length_app, !length_firstn, !length_skipn.
      change (List.length (split ELISION)) with 9. lia.
    + apply Nat.ltb_ge in Hw. lia.
  - apply Nat.ltb_ge in Hc. pose proof (split_room content). lia.
Qed.

End TextMore.
